(** * Agent Memory Vault: the vault client, the decision loop and the HTTP surface

    A shallow embedding of the TypeScript sources
    - [agent-app/src/index.ts]   (read / reply / decide / write agent),
    - [agent-2/src/index.ts]     (read-only multi-topic agent),
    - [mcp-memory-vault/src/server.ts] (HTTP worker),
    - [mcp-memory-vault/src/tools.ts]  (the two handlers of [createTools]),
    followed by the properties of the specification that concern them.

    JavaScript strings are sequences of UTF-16 code units, bytes are integers
    in [0, 256), and every call that leaves the process (ledger reads and
    writes, language-model completions) is answered by an explicit [World].
    A contract call goes through the ABI it is given, as it does in viem: the
    function is looked up in the ABI before anything is sent, and an integer
    that comes back is decoded by the type the ABI declares for it. *)

From Stdlib Require Import String Ascii Bool ZArith Lia List.
Import ListNotations.
Open Scope Z_scope.
Set Warnings "-register-all".

(* ================================================================== *)
(** * JavaScript values used by the sources *)
(* ================================================================== *)

Module JS.

(** A JavaScript string: its UTF-16 code units, each in [0, 65536). *)
Definition JSString := list Z.

(** An ASCII literal of the sources as a JavaScript string. *)
Definition lit (s : string) : JSString :=
  map (fun a => Z.of_N (N_of_ascii a)) (list_ascii_of_string s).
Arguments lit s%_string.

Definition str_eqb (a b : JSString) : bool :=
  if list_eq_dec Z.eq_dec a b then true else false.

(** Line feed and the double quote, which the template literals contain. *)
Definition nl : JSString := [10].
Definition dq : JSString := [34].

(** [WhiteSpace] and [LineTerminator] code units of ECMA-262, the ones
    [String.prototype.trim] strips. *)
Definition isWhiteSpace (c : Z) : bool :=
  (c =? 9) || (c =? 10) || (c =? 11) || (c =? 12) || (c =? 13) || (c =? 32)
  || (c =? 160) || (c =? 5760) || ((8192 <=? c) && (c <=? 8202))
  || (c =? 8232) || (c =? 8233) || (c =? 8239) || (c =? 8287)
  || (c =? 12288) || (c =? 65279).

Fixpoint trimStart (s : JSString) : JSString :=
  match s with
  | c :: rest => if isWhiteSpace c then trimStart rest else s
  | [] => []
  end.

Definition trimEnd (s : JSString) : JSString := rev (trimStart (rev s)).

(** [s.trim()] *)
Definition trim (s : JSString) : JSString := trimEnd (trimStart s).

(** Truthiness of a string: every string but the empty one. *)
Definition truthy (s : JSString) : bool :=
  match s with [] => false | _ => true end.

(** Truthiness of [string | undefined]. *)
Definition truthy_opt (v : option JSString) : bool :=
  match v with Some s => truthy s | None => false end.

(** [a || b] on [string | undefined] operands. *)
Definition or_else (a b : option JSString) : option JSString :=
  if truthy_opt a then a else b.

(** [Number(b)] for a non-negative bigint [b]: the nearest double, ties to
    even.  Exact up to 2^53; a uint256 never reaches the overflow range. *)
Definition Number_of_bigint (b : Z) : Z :=
  if b <? 2 ^ 53 then b
  else
    let e := Z.log2 b - 52 in
    let q := Z.shiftr b e in
    let r := b - Z.shiftl q e in
    let half := Z.shiftl 1 (e - 1) in
    let q' := if (half <? r) || ((r =? half) && Z.odd q) then q + 1 else q in
    Z.shiftl q' e.

(** [arr.join(sep)] on strings. *)
Fixpoint join (sep : JSString) (parts : list JSString) : JSString :=
  match parts with
  | [] => []
  | [p] => p
  | p :: rest => p ++ sep ++ join sep rest
  end.

End JS.
Import JS.

(* ================================================================== *)
(** * viem: [stringToBytes] and [keccak256] *)
(* ================================================================== *)

Module Viem.

(** The replacement character U+FFFD in UTF-8. *)
Definition replacement : list Z := [239; 191; 189].

Definition utf8_2 (c : Z) : list Z :=
  [Z.lor 192 (Z.shiftr c 6); Z.lor 128 (Z.land c 63)].

Definition utf8_3 (c : Z) : list Z :=
  [Z.lor 224 (Z.shiftr c 12);
   Z.lor 128 (Z.land (Z.shiftr c 6) 63);
   Z.lor 128 (Z.land c 63)].

Definition utf8_4 (cp : Z) : list Z :=
  [Z.lor 240 (Z.shiftr cp 18);
   Z.lor 128 (Z.land (Z.shiftr cp 12) 63);
   Z.lor 128 (Z.land (Z.shiftr cp 6) 63);
   Z.lor 128 (Z.land cp 63)].

Definition isHighSurrogate (c : Z) : bool := (55296 <=? c) && (c <? 56320).
Definition isLowSurrogate (c : Z) : bool := (56320 <=? c) && (c <? 57344).

(** [stringToBytes(value)] is [new TextEncoder().encode(value)]: the UTF-8
    encoding of the code units, a surrogate pair giving one four-byte
    sequence and an unpaired surrogate the replacement character. *)
Fixpoint stringToBytes (s : JSString) : list Z :=
  match s with
  | [] => []
  | c :: rest =>
      if c <? 128 then c :: stringToBytes rest
      else if c <? 2048 then utf8_2 c ++ stringToBytes rest
      else if isHighSurrogate c then
        match rest with
        | d :: rest' =>
            if isLowSurrogate d
            then utf8_4 (65536 + Z.shiftl (c - 55296) 10 + (d - 56320))
                   ++ stringToBytes rest'
            else replacement ++ stringToBytes rest
        | [] => replacement
        end
      else if isLowSurrogate c then replacement ++ stringToBytes rest
      else utf8_3 c ++ stringToBytes rest
  end.

(** ** Keccak-f[1600] on 25 lanes of 64 bits, lane (x, y) at index x + 5y. *)

Definition mask64 : Z := Z.ones 64.

Definition rotl64 (v : Z) (n : Z) : Z :=
  Z.land (Z.lor (Z.shiftl v n) (Z.shiftr v (64 - n))) mask64.

Definition lane (A : list Z) (x y : nat) : Z :=
  nth ((x mod 5) + 5 * y)%nat A 0.

Definition roundConstants : list Z :=
  [0x0000000000000001; 0x0000000000008082; 0x800000000000808A;
   0x8000000080008000; 0x000000000000808B; 0x0000000080000001;
   0x8000000080008081; 0x8000000000008009; 0x000000000000008A;
   0x0000000000000088; 0x0000000080008009; 0x000000008000000A;
   0x000000008000808B; 0x800000000000008B; 0x8000000000008089;
   0x8000000000008003; 0x8000000000008002; 0x8000000000000080;
   0x000000000000800A; 0x800000008000000A; 0x8000000080008081;
   0x8000000000008080; 0x0000000080000001; 0x8000000080008008].

(** Rotation offsets, row x holding the offsets of lanes (x, 0..4). *)
Definition rotationOffsets : list (list Z) :=
  [[0; 36; 3; 41; 18];
   [1; 44; 10; 45; 2];
   [62; 6; 43; 15; 61];
   [28; 55; 25; 21; 56];
   [27; 20; 39; 8; 14]].

Definition offset (x y : nat) : Z := nth y (nth x rotationOffsets []) 0.

Definition lanes (f : nat -> nat -> Z) : list Z :=
  map (fun i => f (i mod 5)%nat (i / 5)%nat) (seq 0 25).

Definition theta (A : list Z) : list Z :=
  let C x :=
    Z.lxor (lane A x 0) (Z.lxor (lane A x 1)
      (Z.lxor (lane A x 2) (Z.lxor (lane A x 3) (lane A x 4)))) in
  let D x := Z.lxor (C (x + 4)%nat) (rotl64 (C (x + 1)%nat) 1) in
  lanes (fun x y => Z.lxor (lane A x y) (D x)).

(** rho and pi together: B[y][2x + 3y] = rot (A[x][y], r[x][y]), read from
    the side of the target lane (X, Y), whose source is x = X + 3Y, y = X. *)
Definition rhoPi (A : list Z) : list Z :=
  lanes (fun X Y =>
    let x := ((X + 3 * Y) mod 5)%nat in
    rotl64 (lane A x X) (offset x X)).

Definition chi (B : list Z) : list Z :=
  lanes (fun x y =>
    Z.lxor (lane B x y)
      (Z.land (Z.lxor (lane B (x + 1) y) mask64) (lane B (x + 2) y))).

Definition iota (rc : Z) (A : list Z) : list Z :=
  match A with
  | a :: rest => Z.lxor a rc :: rest
  | [] => []
  end.

Definition keccakRound (A : list Z) (rc : Z) : list Z :=
  iota rc (chi (rhoPi (theta A))).

Definition keccakF (A : list Z) : list Z :=
  fold_left keccakRound roundConstants A.

(** ** The sponge at rate 136 bytes with the Keccak padding 0x01 .. 0x80. *)

Definition rate : nat := 136.

Definition pad (msg : list Z) : list Z :=
  let fill := (rate - 1 - (length msg mod rate))%nat in
  match fill with
  | O => msg ++ [129]
  | S k => msg ++ [1] ++ repeat 0 k ++ [128]
  end.

(** Eight bytes, little endian, as one lane. *)
Fixpoint laneOfBytes (bs : list Z) : Z :=
  match bs with
  | [] => 0
  | b :: rest => Z.lor b (Z.shiftl (laneOfBytes rest) 8)
  end.

Definition bytesOfLane (l : Z) : list Z :=
  map (fun i => Z.land (Z.shiftr l (8 * Z.of_nat i)) 255) (seq 0 8).

Definition xorBlock (A : list Z) (block : list Z) : list Z :=
  map (fun i =>
         let a := nth i A 0 in
         if (i <? 17)%nat
         then Z.lxor a (laneOfBytes (firstn 8 (skipn (8 * i) block)))
         else a)
      (seq 0 25).

Fixpoint absorb (blocks : nat) (msg : list Z) (A : list Z) : list Z :=
  match blocks with
  | O => A
  | S k => absorb k (skipn rate msg) (keccakF (xorBlock A (firstn rate msg)))
  end.

(** The 32-byte digest. *)
Definition keccak256_bytes (msg : list Z) : list Z :=
  let p := pad msg in
  let A := absorb (length p / rate)%nat p (repeat 0 25) in
  flat_map bytesOfLane (firstn 4 A).

Definition hexDigit (n : Z) : Z := if n <? 10 then 48 + n else 87 + n.

(** [bytesToHex]: the digits of every byte after the prefix 0x. *)
Definition bytesToHex (bs : list Z) : JSString :=
  lit "0x" ++ flat_map (fun b => [hexDigit (Z.shiftr b 4); hexDigit (Z.land b 15)]) bs.

(** [keccak256(bytes)], which viem returns as a hex string. *)
Definition keccak256 (msg : list Z) : JSString :=
  bytesToHex (keccak256_bytes msg).

End Viem.
Import Viem.

(* ================================================================== *)
(** * JSON values and [JSON.parse] *)
(* ================================================================== *)

Module Json.

(** A JSON value.  A number keeps its exact decimal value
    [mantissa * 10 ^ exponent]; an object keeps its members in source order,
    a repeated key being read at its last occurrence as [JSON.parse] does. *)
Inductive Json : Type :=
| JNull
| JBool (b : bool)
| JNumber (mantissa exponent : Z)
| JString (s : JSString)
| JArray (items : list Json)
| JObject (members : list (JSString * Json)).

(** A JavaScript value read out of a parsed document: a property that is
    not there reads as [undefined]. *)
Inductive JsValue : Type :=
| Undefined
| Value (v : Json).

Fixpoint lookup (key : JSString) (members : list (JSString * Json)) : JsValue :=
  match members with
  | [] => Undefined
  | (k, v) :: rest =>
      match lookup key rest with
      | Value v' => Value v'
      | Undefined => if str_eqb k key then Value v else Undefined
      end
  end.

(** [v.key] for a value [v] that is not null; strings, numbers, booleans
    and arrays have none of the keys the sources read. *)
Definition property (v : Json) (key : JSString) : JsValue :=
  match v with
  | JObject members => lookup key members
  | _ => Undefined
  end.

(** A decimal [m * 10 ^ e] converts to the double zero when it is zero or
    at most 2 ^ -1075 in magnitude (the tie goes to the even neighbour 0). *)
Definition numberIsZero (m e : Z) : bool :=
  if m =? 0 then true
  else if 0 <=? e then false
  else Z.abs m * 2 ^ 1075 <=? 10 ^ (- e).

(** Truthiness of a value: undefined, null, false, zero and the empty
    string are falsy. *)
Definition truthyValue (v : JsValue) : bool :=
  match v with
  | Undefined => false
  | Value JNull => false
  | Value (JBool b) => b
  | Value (JNumber m e) => negb (numberIsZero m e)
  | Value (JString s) => truthy s
  | Value (JArray _) => true
  | Value (JObject _) => true
  end.

(** ** The grammar of ECMA-404 *)

Definition isJsonSpace (c : Z) : bool :=
  (c =? 32) || (c =? 9) || (c =? 10) || (c =? 13).

Fixpoint skipSpace (s : list Z) : list Z :=
  match s with
  | c :: rest => if isJsonSpace c then skipSpace rest else s
  | [] => []
  end.

Definition isDigit (c : Z) : bool := (48 <=? c) && (c <=? 57).

Definition hexValue (c : Z) : option Z :=
  if isDigit c then Some (c - 48)
  else if (97 <=? c) && (c <=? 102) then Some (c - 87)
  else if (65 <=? c) && (c <=? 70) then Some (c - 55)
  else None.

Definition hex4 (a b c d : Z) : option Z :=
  match hexValue a, hexValue b, hexValue c, hexValue d with
  | Some x, Some y, Some z, Some w => Some (((x * 16 + y) * 16 + z) * 16 + w)
  | _, _, _, _ => None
  end.

(** The character a backslash escape stands for, [\u] apart. *)
Definition escape (e : Z) : option Z :=
  if e =? 34 then Some 34
  else if e =? 92 then Some 92
  else if e =? 47 then Some 47
  else if e =? 98 then Some 8
  else if e =? 102 then Some 12
  else if e =? 110 then Some 10
  else if e =? 114 then Some 13
  else if e =? 116 then Some 9
  else None.

(** The characters of a string after its opening quote, up to and past the
    closing one. *)
Fixpoint parseChars (s : list Z) (acc : JSString) : option (JSString * list Z) :=
  match s with
  | [] => None
  | c :: rest =>
      if c =? 34 then Some (acc, rest)
      else if c =? 92 then
        match rest with
        | [] => None
        | e :: rest' =>
            if e =? 117 then
              match rest' with
              | h1 :: h2 :: h3 :: h4 :: rest'' =>
                  match hex4 h1 h2 h3 h4 with
                  | Some u => parseChars rest'' (acc ++ [u])
                  | None => None
                  end
              | _ => None
              end
            else
              match escape e with
              | Some x => parseChars rest' (acc ++ [x])
              | None => None
              end
        end
      else if c <? 32 then None
      else parseChars rest (acc ++ [c])
  end.

(** A run of digits: its value continued from [acc], its length, the rest. *)
Fixpoint parseDigits (s : list Z) (acc : Z) (n : Z) : Z * Z * list Z :=
  match s with
  | c :: rest =>
      if isDigit c then parseDigits rest (acc * 10 + (c - 48)) (n + 1)
      else (acc, n, s)
  | [] => (acc, n, [])
  end.

Definition parseFraction (s : list Z) (int : Z) : option (Z * Z * list Z) :=
  match s with
  | 46 :: rest =>
      let '(m, n, rest') := parseDigits rest int 0 in
      if n =? 0 then None else Some (m, n, rest')
  | _ => Some (int, 0, s)
  end.

Definition parseExponent (s : list Z) : option (Z * list Z) :=
  match s with
  | c :: rest =>
      if (c =? 101) || (c =? 69) then
        let '(sign, rest1) :=
          match rest with
          | 43 :: r => (1, r)
          | 45 :: r => (-1, r)
          | _ => (1, rest)
          end in
        let '(e, n, rest2) := parseDigits rest1 0 0 in
        if n =? 0 then None else Some (sign * e, rest2)
      else Some (0, s)
  | [] => Some (0, [])
  end.

Definition parseNumber (s : list Z) : option (Json * list Z) :=
  let '(sign, s1) := match s with 45 :: r => (-1, r) | _ => (1, s) end in
  match s1 with
  | c :: rest =>
      if isDigit c then
        let '(int, _, s2) :=
          if c =? 48 then (0, 1, rest) else parseDigits s1 0 0 in
        match parseFraction s2 int with
        | None => None
        | Some (m, digits, s3) =>
            match parseExponent s3 with
            | None => None
            | Some (e, s4) => Some (JNumber (sign * m) (e - digits), s4)
            end
        end
      else None
  | [] => None
  end.

(** [expect word s]: [s] without the prefix [word]. *)
Fixpoint expect (word s : list Z) : option (list Z) :=
  match word, s with
  | [], _ => Some s
  | w :: word', c :: rest => if w =? c then expect word' rest else None
  | _ :: _, [] => None
  end.

(** Values, the elements of an array after its bracket and the members of
    an object after its brace; [fuel] bounds the calls. *)
Fixpoint parseValue (fuel : nat) (s : list Z) : option (Json * list Z) :=
  match fuel with
  | O => None
  | S fuel' =>
      match skipSpace s with
      | [] => None
      | c :: rest =>
          if c =? 110 then option_map (pair JNull) (expect (lit "ull") rest)
          else if c =? 116 then option_map (pair (JBool true)) (expect (lit "rue") rest)
          else if c =? 102 then option_map (pair (JBool false)) (expect (lit "alse") rest)
          else if c =? 34 then
            match parseChars rest [] with
            | Some (str, rest') => Some (JString str, rest')
            | None => None
            end
          else if c =? 91 then
            match skipSpace rest with
            | 93 :: rest' => Some (JArray [], rest')
            | _ => parseElements fuel' rest []
            end
          else if c =? 123 then
            match skipSpace rest with
            | 125 :: rest' => Some (JObject [], rest')
            | _ => parseMembers fuel' rest []
            end
          else parseNumber (c :: rest)
      end
  end
with parseElements (fuel : nat) (s : list Z) (acc : list Json)
  : option (Json * list Z) :=
  match fuel with
  | O => None
  | S fuel' =>
      match parseValue fuel' s with
      | None => None
      | Some (v, rest) =>
          match skipSpace rest with
          | 44 :: rest' => parseElements fuel' rest' (acc ++ [v])
          | 93 :: rest' => Some (JArray (acc ++ [v]), rest')
          | _ => None
          end
      end
  end
with parseMembers (fuel : nat) (s : list Z) (acc : list (JSString * Json))
  : option (Json * list Z) :=
  match fuel with
  | O => None
  | S fuel' =>
      match skipSpace s with
      | 34 :: rest =>
          match parseChars rest [] with
          | None => None
          | Some (key, rest1) =>
              match skipSpace rest1 with
              | 58 :: rest2 =>
                  match parseValue fuel' rest2 with
                  | None => None
                  | Some (v, rest3) =>
                      match skipSpace rest3 with
                      | 44 :: rest4 => parseMembers fuel' rest4 (acc ++ [(key, v)])
                      | 125 :: rest4 => Some (JObject (acc ++ [(key, v)]), rest4)
                      | _ => None
                      end
                  end
              | _ => None
              end
          end
      | _ => None
      end
  end.

(** [JSON.parse(text)]: [None] stands for the SyntaxError it throws. *)
Definition JSON_parse (text : JSString) : option Json :=
  match parseValue (2 * length text + 4) text with
  | Some (v, rest) =>
      match skipSpace rest with
      | [] => Some v
      | _ => None
      end
  | None => None
  end.

End Json.
Import Json.

(* ================================================================== *)
(** * zod: the schema combinators the sources use *)
(* ================================================================== *)

Module Zod.

(** A schema's [parse]: [None] stands for the ZodError it throws. *)
Definition Schema (A : Type) : Type := JsValue -> option A.

(** [z.boolean()] *)
Definition z_boolean : Schema bool :=
  fun v => match v with Value (JBool b) => Some b | _ => None end.

(** [z.string()] *)
Definition z_string : Schema JSString :=
  fun v => match v with Value (JString s) => Some s | _ => None end.

(** [schema.optional()]: undefined passes, null does not. *)
Definition z_optional {A : Type} (inner : Schema A) : Schema (option A) :=
  fun v => match v with
           | Undefined => Some None
           | _ => option_map Some (inner v)
           end.

(** [z.object({...})] accepts objects only (neither null nor an array)
    and hands their members to the shape; unknown keys are dropped. *)
Definition z_object {A : Type} (shape : list (JSString * Json) -> option A)
  : Schema A :=
  fun v => match v with
           | Value (JObject members) => shape members
           | _ => None
           end.

End Zod.
Import Zod.

(* ================================================================== *)
(** * The ledger *)
(* ================================================================== *)

Module Ledger.

(** A stored record, as the contract's ABI returns it. *)
Record MemoryRecord : Type := {
  timestamp : Z;
  writer : JSString;
  content : JSString
}.

(** Modelled from the spec: the MemoryVault contract, of which the
    repository holds only the ABI.  A MemorySet is the sequence of records of
    one (owner, topic key) in write order; the count is its length, a read at
    an index at or past the count is invalid, the latest record is the last
    one, and a read the contract rejects is [None]. *)
Definition getMemoryCount (set : list MemoryRecord) : Z :=
  Z.of_nat (length set).

(** Modelled from the spec: [getMemory], which the contract rejects for an
    index at or past the count. *)
Definition getMemory (set : list MemoryRecord) (index : Z) : option MemoryRecord :=
  if (0 <=? index) && (index <? getMemoryCount set)
  then nth_error set (Z.to_nat index)
  else None.

(** Modelled from the spec: [getLatestMemory], the last record appended,
    and nothing to return for an empty MemorySet. *)
Definition getLatestMemory (set : list MemoryRecord) : option MemoryRecord :=
  match set with
  | [] => None
  | r :: rest => Some (last rest r)
  end.

End Ledger.

(* ================================================================== *)
(** * The runtime: errors, calls that leave the process, effects *)
(* ================================================================== *)

Module Runtime.

(** What a throw or a rejected promise carries. *)
Inductive JSError : Type :=
| ContractReverted
| TransportFailed (reason : JSString)
| ModelCallFailed (reason : JSString)
| InvalidPrivateKey
| SyntaxError
| ZodError
| TypeError
| IntegerOutOfRange
| InvalidAbiType
| AbiFunctionNotFound.

Inductive Outcome (A : Type) : Type :=
| Returned (a : A)
| Threw (e : JSError).
Arguments Returned {A} a.
Arguments Threw {A} e.

(** An address argument taken from the configuration: a string, or
    undefined when the variable is unset. *)
Definition Address : Type := option JSString.

Inductive ReadCall : Type :=
| CallGetLatestMemory (user : Address) (topic : JSString)
| CallGetMemoryCount (user : Address) (topic : JSString)
| CallGetMemory (user : Address) (topic : JSString) (index : Z).

(** The argument of [publicClient.readContract]. *)
Record ContractRead : Type := {
  read_address : Address;
  read_call : ReadCall
}.

(** The argument of [walletClient.writeContract], always [storeMemoryFor]. *)
Record ContractWrite : Type := {
  write_address : Address;
  write_user : Address;
  write_topic : JSString;
  write_content : JSString
}.

(** The argument of [generateText]; the temperature by its literal. *)
Record LlmRequest : Type := {
  model : JSString;
  system : JSString;
  prompt : JSString;
  temperature : JSString
}.

(** Everything outside the process during one stretch of execution: the
    MemorySets per contract, owner and topic key, which reads the transport
    fails, and what a write, a completion and a key derivation come back
    with. *)
Record World : Type := {
  sets : Address -> Address -> JSString -> list Ledger.MemoryRecord;
  readFault : ContractRead -> option JSString;
  writeContract_result : ContractWrite -> Outcome JSString;
  generateText_result : LlmRequest -> Outcome JSString;
  privateKeyToAccount_result : JSString -> Outcome JSString
}.

(** The object both agents build from a record they read. *)
Record Memory : Type := {
  topic : JSString;
  content : JSString;
  timestamp : Z;
  writer : JSString
}.

Inductive Printed : Type :=
| PStr (s : JSString)
| PMemory (m : option Memory)
| PMemories (l : list Memory)
| PError (e : JSError).

Inductive Event : Type :=
| ConsoleLog (args : list Printed)
| ConsoleError (args : list Printed)
| Question (query : JSString)
| LedgerRead (c : ContractRead)
| LedgerWrite (c : ContractWrite)
| ModelCall (r : LlmRequest).

(** The mutable state of a run: what it did so far, oldest first, and the
    array it is filling ([memories] in the first agent's loop, [results] in
    the second agent's scan).  A throw leaves the state as it is. *)
Record Store : Type := {
  trace : list Event;
  array : list Memory
}.

Definition emptyStore : Store := {| trace := []; array := [] |}.

Definition M (A : Type) : Type := Store -> Outcome A * Store.

Definition ret {A : Type} (a : A) : M A := fun st => (Returned a, st).

Definition throw {A : Type} (e : JSError) : M A := fun st => (Threw e, st).

Definition bind {A B : Type} (m : M A) (k : A -> M B) : M B :=
  fun st =>
    match m st with
    | (Returned a, st') => k a st'
    | (Threw e, st') => (Threw e, st')
    end.

(** [try { body } catch (e) { handler }] *)
Definition try_catch {A : Type} (body : M A) (handler : JSError -> M A) : M A :=
  fun st =>
    match body st with
    | (Returned a, st') => (Returned a, st')
    | (Threw e, st') => handler e st'
    end.

Declare Scope monad_scope.
Delimit Scope monad_scope with monad.
Notation "x <- m ;; k" := (bind m (fun x => k))
  (at level 61, m at next level, right associativity) : monad_scope.
Notation "m ;; k" := (bind m (fun _ => k))
  (at level 61, right associativity) : monad_scope.
Open Scope monad_scope.

Definition emit (e : Event) : M unit :=
  fun st => (Returned tt, {| trace := trace st ++ [e]; array := array st |}).

Definition console_log (args : list Printed) : M unit := emit (ConsoleLog args).
Definition console_error (args : list Printed) : M unit := emit (ConsoleError args).

(** [const a: any[] = []], [a.push(m)] and a read of [a]. *)
Definition newArray : M unit :=
  fun st => (Returned tt, {| trace := trace st; array := [] |}).
Definition push (m : Memory) : M unit :=
  fun st => (Returned tt, {| trace := trace st; array := array st ++ [m] |}).
Definition getArray : M (list Memory) :=
  fun st => (Returned (array st), st).

(** [for (const x of l) body] *)
Fixpoint forOf {A : Type} (l : list A) (body : A -> M unit) : M unit :=
  match l with
  | [] => ret tt
  | x :: rest => body x ;; forOf rest body
  end.

(** [for (let i = from; i < from + n; i++) body] *)
Fixpoint forRange (n : nat) (from : Z) (body : Z -> M unit) : M unit :=
  match n with
  | O => ret tt
  | S k => body from ;; forRange k (from + 1) body
  end.

(** ** viem: the ABI a contract call is made with *)

(** A parameter of an ABI item: its [type], its [name] and, for a tuple,
    its [components].  The [internalType] members, which viem does not read,
    are left out. *)
Inductive AbiParameter : Type :=
| Param (type name : JSString) (components : list AbiParameter).

Definition param_type (p : AbiParameter) : JSString :=
  match p with Param type _ _ => type end.

Definition param_name (p : AbiParameter) : JSString :=
  match p with Param _ name _ => name end.

(** An item of the array handed over as [abi]: an object that describes an
    event or a function, or a string, which is what a signature is as long
    as [parseAbi] has not been applied to it. *)
Inductive AbiItem : Type :=
| AbiText (signature : JSString)
| AbiEvent (name : JSString) (inputs : list AbiParameter)
| AbiFunction (name : JSString) (inputs outputs : list AbiParameter).

(** ['name' in abiItem && abiItem.name === name], the test of viem's
    [getAbiItem]; the [in] operator throws a TypeError when its right operand
    is a string. *)
Definition isNamed (name : JSString) (item : AbiItem) : Outcome bool :=
  match item with
  | AbiText _ => Threw TypeError
  | AbiEvent n _ => Returned (str_eqb n name)
  | AbiFunction n _ _ => Returned (str_eqb n name)
  end.

(** [abi.filter(test)]: the test runs on the items in their order, and the
    first throw ends the filter. *)
Fixpoint filterNamed (name : JSString) (abi : list AbiItem) : Outcome (list AbiItem) :=
  match abi with
  | [] => Returned []
  | item :: rest =>
      match isNamed name item with
      | Threw e => Threw e
      | Returned keep =>
          match filterNamed name rest with
          | Threw e => Threw e
          | Returned kept => Returned (if keep then item :: kept else kept)
          end
      end
  end.

(** viem's [encodeFunctionData] as far as the item it encodes with, of
    which the outputs are kept: the item of that name, which has to be a
    function.  No ABI of the sources gives two items one name, so the first
    item of the name is the one. *)
Definition functionOutputs (abi : list AbiItem) (functionName : JSString)
  : Outcome (list AbiParameter) :=
  match filterNamed functionName abi with
  | Threw e => Threw e
  | Returned (AbiFunction _ _ outputs :: _) => Returned outputs
  | Returned _ => Threw AbiFunctionNotFound
  end.

(** ** viem: decoding an integer word *)

(** What viem hands over for an integer word: a bigint, or a Number. *)
Inductive Numeric : Type :=
| BigInt (v : Z)
| Num (v : Z).

(** [Number(n)] *)
Definition Number_of (n : Numeric) : Z :=
  match n with
  | BigInt b => Number_of_bigint b
  | Num v => v
  end.

(** [s.startsWith(p)] *)
Fixpoint startsWith (p s : JSString) : bool :=
  match p, s with
  | [], _ => true
  | a :: p', b :: s' => (a =? b) && startsWith p' s'
  | _ :: _, [] => false
  end.

(** [s.split(sep)] for a separator that is not empty: [current] is the
    piece being read and [skip] counts the code units of a separator still to
    pass. *)
Fixpoint splitFrom (sep s : JSString) (skip : nat) (current : JSString)
  : list JSString :=
  match s with
  | [] => [current]
  | c :: rest =>
      match skip with
      | S k => splitFrom sep rest k current
      | O =>
          if startsWith sep s
          then current :: splitFrom sep rest (length sep - 1) []
          else splitFrom sep rest 0 (current ++ [c])
      end
  end.

Definition split (sep s : JSString) : list JSString := splitFrom sep s 0 [].

(** The value of a digit in a radix of 10 or 16. *)
Definition digitValue (radix c : Z) : option Z :=
  if (48 <=? c) && (c <=? 57) then Some (c - 48)
  else if (radix =? 16) && (97 <=? c) && (c <=? 102) then Some (c - 87)
  else if (radix =? 16) && (65 <=? c) && (c <=? 70) then Some (c - 55)
  else None.

(** The value of the longest run of digits [s] starts with; [acc] is the
    value read so far, [None] before the first digit. *)
Fixpoint leadingDigits (radix : Z) (s : JSString) (acc : option Z) : option Z :=
  match s with
  | [] => acc
  | c :: rest =>
      match digitValue radix c with
      | Some d =>
          leadingDigits radix rest
            (Some (radix * match acc with Some a => a | None => 0 end + d))
      | None => acc
      end
  end.

(** [Number.parseInt(s)] without a radix, [None] standing for NaN: white
    space is skipped, a sign is read, 0x or 0X selects radix 16, and the digits
    that follow give the value, which is exact below 2^53. *)
Definition parseInt (s : JSString) : option Z :=
  let s := trimStart s in
  let (sign, s) :=
    match s with
    | 43 :: rest => (1, rest)
    | 45 :: rest => (-1, rest)
    | _ => (1, s)
    end in
  let (radix, s) :=
    match s with
    | 48 :: 120 :: rest => (16, rest)
    | 48 :: 88 :: rest => (16, rest)
    | _ => (10, s)
    end in
  option_map (Z.mul sign) (leadingDigits radix s None).

(** [Number.isSafeInteger(v)] for an integer [v] *)
Definition isSafeInteger (v : Z) : bool :=
  (- (2 ^ 53 - 1) <=? v) && (v <=? 2 ^ 53 - 1).

(** viem's [decodeNumber(cursor, param)] on the 32-byte word [word], read
    as an unsigned number:
    [signed = type.startsWith('int')],
    [size = Number.parseInt(type.split('int')[1] || '256')], and the result is
    [size > 48 ? bytesToBigInt(value, { signed }) : bytesToNumber(value, { signed })],
    where [bytesToNumber] throws for a value that is not a safe integer. *)
Definition decodeNumber (type : JSString) (word : Z) : Outcome Numeric :=
  let signed := startsWith (lit "int") type in
  let size :=
    parseInt match nth_error (split (lit "int") type) 1 with
             | Some (c :: piece) => c :: piece
             | _ => lit "256"
             end in
  let value := if signed && (2 ^ 255 <=? word) then word - 2 ^ 256 else word in
  if match size with Some n => 48 <? n | None => false end
  then Returned (BigInt value)
  else if isSafeInteger value then Returned (Num value)
       else Threw IntegerOutOfRange.

(** viem's [decodeParameter] for a word of a type that is neither an
    array nor [tuple], [address], [bool], [bytes...] or [string]: a type that
    starts with [uint] or [int] is decoded as a number, any other is
    refused. *)
Definition decodeInteger (type : JSString) (word : Z) : Outcome Numeric :=
  if startsWith (lit "uint") type || startsWith (lit "int") type
  then decodeNumber type word
  else Threw InvalidAbiType.

(** The object viem hands over for a record read with outputs of one tuple
    of named components. *)
Record DecodedMemory : Type := {
  d_timestamp : Numeric;
  d_writer : JSString;
  d_content : JSString
}.

(** The type the outputs declare for the component [timestamp] of the
    tuple. *)
Definition timestampType (outputs : list AbiParameter) : option JSString :=
  match outputs with
  | [Param _ _ components] =>
      option_map param_type
        (find (fun p => str_eqb (param_name p) (lit "timestamp")) components)
  | _ => None
  end.

(** [decodeFunctionResult] for a record: the timestamp is decoded by the
    type the ABI declares for it; the writer and the content, of the types
    [address] and [string] in every ABI of the sources, are taken as the
    ledger holds them. *)
Definition decodeMemory (outputs : list AbiParameter) (r : Ledger.MemoryRecord)
  : Outcome DecodedMemory :=
  match timestampType outputs with
  | Some type =>
      match decodeInteger type (Ledger.timestamp r) with
      | Returned n =>
          Returned {| d_timestamp := n;
                      d_writer := Ledger.writer r;
                      d_content := Ledger.content r |}
      | Threw e => Threw e
      end
  | None => Threw InvalidAbiType
  end.

(** [decodeFunctionResult] for a count: one output, decoded by its type. *)
Definition decodeCount (outputs : list AbiParameter) (count : Z) : Outcome Numeric :=
  match outputs with
  | [Param type _ _] => decodeInteger type count
  | _ => Threw InvalidAbiType
  end.

(** ** The contract calls *)

(** A value or a throw as a step of a computation. *)
Definition lift {A : Type} (o : Outcome A) : M A := fun st => (o, st).

(** The [functionName] of a read. *)
Definition functionName (call : ReadCall) : JSString :=
  match call with
  | CallGetLatestMemory _ _ => lit "getLatestMemory"
  | CallGetMemoryCount _ _ => lit "getMemoryCount"
  | CallGetMemory _ _ _ => lit "getMemory"
  end.

(** What the ledger answers a read the transport delivered. *)
Definition contractRecord (w : World) (c : ContractRead) : option Ledger.MemoryRecord :=
  match read_call c with
  | CallGetLatestMemory user key =>
      Ledger.getLatestMemory (sets w (read_address c) user key)
  | CallGetMemory user key i =>
      Ledger.getMemory (sets w (read_address c) user key) i
  | CallGetMemoryCount _ _ => None
  end.

(** The request of a read that returns a record: a transport failure or
    a revert rejects. *)
Definition requestRecord (w : World) (c : ContractRead) : M Ledger.MemoryRecord :=
  match readFault w c with
  | Some reason => throw (TransportFailed reason)
  | None =>
      match contractRecord w c with
      | Some r => ret r
      | None => throw ContractReverted
      end
  end.

(** [await publicClient.readContract({ address, abi, functionName, args })]
    for a function returning a record.  The event records the call; viem
    encodes the call from the ABI before anything is sent, and decodes what
    comes back by the outputs of the ABI. *)
Definition readContract_record (w : World) (abi : list AbiItem) (c : ContractRead)
  : M DecodedMemory :=
  emit (LedgerRead c) ;;
  outputs <- lift (functionOutputs abi (functionName (read_call c))) ;;
  r <- requestRecord w c ;;
  lift (decodeMemory outputs r).

(** [await publicClient.readContract(...)] for [getMemoryCount]. *)
Definition readContract_count (w : World) (abi : list AbiItem)
    (address user : Address) (key : JSString) : M Numeric :=
  let c := {| read_address := address; read_call := CallGetMemoryCount user key |} in
  emit (LedgerRead c) ;;
  outputs <- lift (functionOutputs abi (functionName (read_call c))) ;;
  count <- match readFault w c with
           | Some reason => throw (TransportFailed reason)
           | None => ret (Ledger.getMemoryCount (sets w address user key))
           end ;;
  lift (decodeCount outputs count).

(** [await walletClient.writeContract({ address, abi, functionName:
    "storeMemoryFor", args })]; the call is encoded from the ABI before the
    transaction is sent. *)
Definition writeContract (w : World) (abi : list AbiItem) (c : ContractWrite)
  : M JSString :=
  emit (LedgerWrite c) ;;
  lift (functionOutputs abi (lit "storeMemoryFor")) ;;
  lift (writeContract_result w c).

(** [await generateText(...)], of which the sources keep [text]. *)
Definition generateText (w : World) (r : LlmRequest) : M JSString :=
  emit (ModelCall r) ;;
  fun st => (generateText_result w r, st).

(** [privateKeyToAccount(key)], which throws on a malformed key. *)
Definition privateKeyToAccount (w : World) (key : JSString) : M JSString :=
  fun st => (privateKeyToAccount_result w key, st).

(** How many ledger writes a trace holds. *)
Definition isWrite (e : Event) : bool :=
  match e with LedgerWrite _ => true | _ => false end.

Definition countWrites (t : list Event) : nat := length (filter isWrite t).

End Runtime.
Import Runtime.

(* ================================================================== *)
(** * agent-app/src/index.ts *)
(* ================================================================== *)

Module AgentApp.

(** [interface Env]: every variable a string or unset. *)
Record Env : Type := {
  ANTHROPIC_API_KEY : option JSString;
  OPENAI_API_KEY : option JSString;
  RPC_URL : option JSString;
  MEMORY_VAULT_ADDRESS : option JSString;
  USER_ADDRESS : option JSString;
  AGENT_PRIVATE_KEY : option JSString;
  AI_PROVIDER : option JSString;
  MODEL_ID : option JSString
}.

(** The object [getEnv] returns; the two addresses stay undefined when no
    source provides them. *)
Record Config : Type := {
  cfg_ANTHROPIC_API_KEY : JSString;
  cfg_RPC_URL : JSString;
  cfg_MEMORY_VAULT_ADDRESS : option JSString;
  cfg_USER_ADDRESS : option JSString;
  cfg_AGENT_PRIVATE_KEY : JSString;
  cfg_MODEL_ID : JSString
}.

(** [env?.X] *)
Definition opt (env : option Env) (X : Env -> option JSString) : option JSString :=
  match env with
  | Some e => X e
  | None => None
  end.

(** [const safe = (v?: string) => (v?.trim() ? v.trim() : undefined)] *)
Definition safe (v : option JSString) : option JSString :=
  match v with
  | Some s => if truthy (trim s) then Some (trim s) else None
  | None => None
  end.

(** [a || fallback] with a string fallback. *)
Definition or_string (a : option JSString) (fallback : JSString) : JSString :=
  match a with
  | Some s => if truthy s then s else fallback
  | None => fallback
  end.

Definition defaultModel : JSString := lit "claude-3-5-sonnet-20241022".

(** [getEnv(env?)]; [vars] is what [loadWranglerVars()] returned and
    [processEnv] is [process.env]. *)
Definition getEnv (vars processEnv : Env) (env : option Env) : Config :=
  {| cfg_ANTHROPIC_API_KEY :=
       or_string
         (or_else (or_else (safe (opt env ANTHROPIC_API_KEY))
                           (safe (ANTHROPIC_API_KEY vars)))
                  (safe (ANTHROPIC_API_KEY processEnv)))
         [];
     cfg_RPC_URL :=
       or_string
         (or_else (or_else (safe (opt env RPC_URL)) (safe (RPC_URL vars)))
                  (safe (RPC_URL processEnv)))
         [];
     cfg_MEMORY_VAULT_ADDRESS :=
       or_else (or_else (safe (opt env MEMORY_VAULT_ADDRESS))
                        (safe (MEMORY_VAULT_ADDRESS vars)))
               (safe (MEMORY_VAULT_ADDRESS processEnv));
     cfg_USER_ADDRESS :=
       or_else (or_else (safe (opt env USER_ADDRESS)) (safe (USER_ADDRESS vars)))
               (safe (USER_ADDRESS processEnv));
     cfg_AGENT_PRIVATE_KEY :=
       or_string
         (or_else (or_else (safe (opt env AGENT_PRIVATE_KEY))
                           (safe (AGENT_PRIVATE_KEY vars)))
                  (safe (AGENT_PRIVATE_KEY processEnv)))
         [];
     cfg_MODEL_ID :=
       or_string
         (or_else (or_else (safe (opt env MODEL_ID)) (safe (MODEL_ID vars)))
                  (safe (MODEL_ID processEnv)))
         defaultModel |}.

(** How start-up ends: [process.exit(code)], or the configuration and the
    account the rest of the module uses. *)
Inductive Startup : Type :=
| Exited (code : Z)
| Started (config : Config) (account : JSString).

(** [initialize(env?)] *)
Definition initialize (w : World) (vars processEnv : Env) (env : option Env)
  : M Startup :=
  let config := getEnv vars processEnv env in
  if negb (truthy (cfg_ANTHROPIC_API_KEY config))
     || negb (truthy (cfg_RPC_URL config))
     || negb (truthy_opt (cfg_MEMORY_VAULT_ADDRESS config))
     || negb (truthy_opt (cfg_USER_ADDRESS config))
     || negb (truthy (cfg_AGENT_PRIVATE_KEY config))
  then
    console_error [PStr ([10060] ++ lit " Missing critical environment variables")] ;;
    ret (Exited 1)
  else
    account <- privateKeyToAccount w (lit "0x" ++ cfg_AGENT_PRIVATE_KEY config) ;;
    ret (Started config account).

(** [topicHash(topic)] *)
Definition topicHash (topic : JSString) : JSString :=
  keccak256 (stringToBytes topic).

(** [const abi = [...]]: the event and the four functions, the type of
    every parameter as the file writes it. *)
Definition abi : list AbiItem :=
  [AbiEvent (lit "MemoryStored")
     [Param (lit "address") (lit "user") [];
      Param (lit "bytes32") (lit "topic") [];
      Param (lit "uint256") (lit "index") [];
      Param (lit "address") (lit "writer") [];
      Param (lit "uint256") (lit "timestamp") []];
   AbiFunction (lit "getLatestMemory")
     [Param (lit "address") (lit "user") [];
      Param (lit "bytes32") (lit "topic") []]
     [Param (lit "tuple") []
        [Param (lit "uintuint256") (lit "timestamp") [];
         Param (lit "address") (lit "writer") [];
         Param (lit "string") (lit "content") []]];
   AbiFunction (lit "getMemory")
     [Param (lit "address") (lit "user") [];
      Param (lit "bytes32") (lit "topic") [];
      Param (lit "uint256") (lit "index") []]
     [Param (lit "tuple") []
        [Param (lit "uint256") (lit "timestamp") [];
         Param (lit "address") (lit "writer") [];
         Param (lit "string") (lit "content") []]];
   AbiFunction (lit "getMemoryCount")
     [Param (lit "address") (lit "user") [];
      Param (lit "bytes32") (lit "topic") []]
     [Param (lit "uint256") [] []];
   AbiFunction (lit "storeMemoryFor")
     [Param (lit "address") (lit "user") [];
      Param (lit "bytes32") (lit "topic") [];
      Param (lit "string") (lit "content") []]
     []].

(** [getLatestMemory(topic)] *)
Definition getLatestMemory (config : Config) (w : World) (topic : JSString)
  : M (option Memory) :=
  try_catch
    (let hash := topicHash topic in
     result <- readContract_record w abi
                 {| read_address := cfg_MEMORY_VAULT_ADDRESS config;
                    read_call := CallGetLatestMemory (cfg_USER_ADDRESS config) hash |} ;;
     ret (Some {| topic := topic;
                  content := d_content result;
                  timestamp := Number_of (d_timestamp result);
                  writer := d_writer result |}))
    (fun _ => ret None).

(** [storeMemory(topic, content)] *)
Definition storeMemory (config : Config) (w : World) (topic content : JSString)
  : M JSString :=
  let hash := topicHash topic in
  txHash <- writeContract w abi
              {| write_address := cfg_MEMORY_VAULT_ADDRESS config;
                 write_user := cfg_USER_ADDRESS config;
                 write_topic := hash;
                 write_content := content |} ;;
  ret txHash.

(** The value [MemoryDecisionSchema.parse] returns. *)
Record Decision : Type := {
  should_store : bool;
  decision_topic : option JSString;
  summary : option JSString
}.

(** [const MemoryDecisionSchema = z.object({ should_store: z.boolean(),
    topic: z.string().optional(), summary: z.string().optional() })] *)
Definition MemoryDecisionSchema : Schema Decision :=
  z_object (fun members =>
    match z_boolean (lookup (lit "should_store") members),
          z_optional z_string (lookup (lit "topic") members),
          z_optional z_string (lookup (lit "summary") members) with
    | Some b, Some t, Some s =>
        Some {| should_store := b; decision_topic := t; summary := s |}
    | _, _, _ => None
    end).

(** [memories.map((m) => `- [${m.topic}] ${m.content}`).join("\n")] *)
Definition memoryLines (memories : list Memory) : JSString :=
  join nl (map (fun m => lit "- [" ++ topic m ++ lit "] " ++ content m) memories).

Definition decideSystemPrompt : JSString :=
  nl ++ lit "Decide whether the user's message contains long-term info." ++ nl
  ++ nl ++ lit "Return ONLY JSON:" ++ nl
  ++ lit "{" ++ nl
  ++ lit "  " ++ dq ++ lit "should_store" ++ dq ++ lit ": boolean," ++ nl
  ++ lit "  " ++ dq ++ lit "topic" ++ dq ++ lit ": string | null," ++ nl
  ++ lit "  " ++ dq ++ lit "summary" ++ dq ++ lit ": string | null" ++ nl
  ++ lit "}" ++ nl.

(** The prompt template both completions share. *)
Definition turnPrompt (memoriesText userMessage : JSString) : JSString :=
  nl ++ lit "Memories:" ++ nl ++ memoriesText ++ nl ++ nl
  ++ lit "User: " ++ dq ++ userMessage ++ dq ++ nl.

Definition decideRequest (config : Config) (userMessage : JSString)
    (memories : list Memory) : LlmRequest :=
  let memoriesText :=
    match memories with
    | [] => lit "No existing memories."
    | _ => memoryLines memories
    end in
  {| model := cfg_MODEL_ID config;
     system := decideSystemPrompt;
     prompt := turnPrompt memoriesText userMessage;
     temperature := lit "0.2" |}.

(** The fail-safe answer [{ should_store: false }]. *)
Definition doNotStore : Decision :=
  {| should_store := false; decision_topic := None; summary := None |}.

(** [JSON.parse(text)] and [schema.parse(value)] as steps that throw. *)
Definition JSON_parse_or_throw (text : JSString) : M Json :=
  match JSON_parse text with
  | Some v => ret v
  | None => throw SyntaxError
  end.

Definition parse_or_throw {A : Type} (schema : Schema A) (v : Json) : M A :=
  match schema (Value v) with
  | Some a => ret a
  | None => throw ZodError
  end.

(** [decideMemory(userMessage, memories)] *)
Definition decideMemory (config : Config) (w : World) (userMessage : JSString)
    (memories : list Memory) : M Decision :=
  text <- generateText w (decideRequest config userMessage memories) ;;
  try_catch
    (v <- JSON_parse_or_throw text ;;
     parse_or_throw MemoryDecisionSchema v)
    (fun _ =>
       console_log [PStr ([9888] ++ lit " Parse error in memory decision JSON.")] ;;
       ret doNotStore).

Definition answerSystemPrompt : JSString :=
  nl ++ lit "You are a memory-aware assistant." ++ nl
  ++ lit "Use on-chain long-term memories to provide helpful responses." ++ nl.

Definition answerRequest (config : Config) (userMessage : JSString)
    (memories : list Memory) : LlmRequest :=
  let memoriesContext :=
    match memories with
    | [] => lit "No memories stored."
    | _ => memoryLines memories
    end in
  {| model := cfg_MODEL_ID config;
     system := answerSystemPrompt;
     prompt := turnPrompt memoriesContext userMessage;
     temperature := lit "0.5" |}.

(** [answerUser(userMessage, memories)] *)
Definition answerUser (config : Config) (w : World) (userMessage : JSString)
    (memories : list Memory) : M JSString :=
  text <- generateText w (answerRequest config userMessage memories) ;;
  ret text.

Definition topics : list JSString :=
  [lit "identity_profile"; lit "preferences"; lit "risk_profile"].

(** A string known to be there: [decision.topic] once it tested truthy. *)
Definition the (v : option JSString) : JSString :=
  match v with Some s => s | None => [] end.

(** One iteration of the loop of [main], from the message [rl.question]
    resolved with to the end of the iteration's body. *)
Definition turn (config : Config) (w : World) (msg : JSString) : M unit :=
  newArray ;;
  forOf topics (fun t =>
    m <- getLatestMemory config w t ;;
    console_log [PStr (lit "Memory:"); PMemory m] ;;
    match m with
    | Some x => push x
    | None => ret tt
    end) ;;
  memories <- getArray ;;
  console_log [PStr (lit "Memories:"); PMemories memories] ;;
  reply <- answerUser config w msg memories ;;
  console_log [PStr (nl ++ [55358; 56598] ++ lit " Agent: " ++ reply ++ nl)] ;;
  decision <- decideMemory config w msg memories ;;
  if should_store decision
     && truthy_opt (decision_topic decision)
     && truthy_opt (summary decision)
  then
    console_log [PStr ([55357; 56524] ++ lit " Storing memory ("
                       ++ the (decision_topic decision) ++ lit ")...")] ;;
    try_catch
      (tx <- storeMemory config w (the (decision_topic decision))
                         (the (summary decision)) ;;
       console_log [PStr ([9989] ++ lit " Stored on-chain. Tx: " ++ tx ++ nl)])
      (fun err =>
         console_error [PStr ([10060] ++ lit " Failed to store memory:"); PError err])
  else
    console_log [PStr ([55357; 56541] ++ lit " No memory stored." ++ nl)].

(** The [while (true)] loop over the utterances the input delivers, each
    with the world as it answers during that turn; when they are used up the
    loop is waiting in [rl.question]. *)
Fixpoint loop (config : Config) (inputs : list (JSString * World)) : M unit :=
  match inputs with
  | [] => emit (Question ([55357; 56420] ++ lit " You: "))
  | (msg, w) :: rest =>
      emit (Question ([55357; 56420] ++ lit " You: ")) ;;
      turn config w msg ;;
      loop config rest
  end.

(** [main()] *)
Definition main (config : Config) (inputs : list (JSString * World)) : M unit :=
  console_log [PStr ([55358; 56800] ++ lit " Memory Agent " ++ [8211] ++ lit " Sepolia")] ;;
  console_log [PStr (lit "Type a message:" ++ nl)] ;;
  loop config inputs.

End AgentApp.

(* ================================================================== *)
(** * agent-2/src/index.ts *)
(* ================================================================== *)

Module Agent2.

(** [interface Env] *)
Record Env : Type := {
  ANTHROPIC_API_KEY : option JSString;
  RPC_URL : option JSString;
  MEMORY_VAULT_ADDRESS : option JSString;
  USER_ADDRESS : option JSString;
  MODEL_ID : option JSString
}.

Record Config : Type := {
  cfg_ANTHROPIC_API_KEY : JSString;
  cfg_RPC_URL : JSString;
  cfg_MEMORY_VAULT_ADDRESS : option JSString;
  cfg_USER_ADDRESS : option JSString;
  cfg_MODEL_ID : JSString
}.

Definition opt (env : option Env) (X : Env -> option JSString) : option JSString :=
  match env with
  | Some e => X e
  | None => None
  end.

(** [const safe = (v?: string) => (v?.trim() ? v.trim() : undefined)] *)
Definition safe (v : option JSString) : option JSString :=
  match v with
  | Some s => if truthy (trim s) then Some (trim s) else None
  | None => None
  end.

Definition or_string (a : option JSString) (fallback : JSString) : JSString :=
  match a with
  | Some s => if truthy s then s else fallback
  | None => fallback
  end.

Definition defaultModel : JSString := lit "claude-sonnet-4-20250514".

(** [getEnv(env?)]; [vars] is what [loadWranglerVars()] returned and
    [processEnv] is [process.env]. *)
Definition getEnv (vars processEnv : Env) (env : option Env) : Config :=
  {| cfg_ANTHROPIC_API_KEY :=
       or_string
         (or_else (or_else (safe (opt env ANTHROPIC_API_KEY))
                           (safe (ANTHROPIC_API_KEY vars)))
                  (safe (ANTHROPIC_API_KEY processEnv)))
         [];
     cfg_RPC_URL :=
       or_string
         (or_else (or_else (safe (opt env RPC_URL)) (safe (RPC_URL vars)))
                  (safe (RPC_URL processEnv)))
         [];
     cfg_MEMORY_VAULT_ADDRESS :=
       or_else (or_else (safe (opt env MEMORY_VAULT_ADDRESS))
                        (safe (MEMORY_VAULT_ADDRESS vars)))
               (safe (MEMORY_VAULT_ADDRESS processEnv));
     cfg_USER_ADDRESS :=
       or_else (or_else (safe (opt env USER_ADDRESS)) (safe (USER_ADDRESS vars)))
               (safe (USER_ADDRESS processEnv));
     cfg_MODEL_ID :=
       or_string
         (or_else (or_else (safe (opt env MODEL_ID)) (safe (MODEL_ID vars)))
                  (safe (MODEL_ID processEnv)))
         defaultModel |}.

Inductive Startup : Type :=
| Exited (code : Z)
| Started (config : Config).

(** The module's start-up statements: [const config = getEnv()] and the
    check that follows it. *)
Definition startup (vars processEnv : Env) : M Startup :=
  let config := getEnv vars processEnv None in
  if negb (truthy (cfg_ANTHROPIC_API_KEY config))
     || negb (truthy (cfg_RPC_URL config))
     || negb (truthy_opt (cfg_MEMORY_VAULT_ADDRESS config))
     || negb (truthy_opt (cfg_USER_ADDRESS config))
  then
    console_error
      [PStr ([10060] ++ lit " Missing environment variables. Check wrangler.jsonc vars or .env")] ;;
    ret (Exited 1)
  else ret (Started config).

(** [topicHash(topic)] *)
Definition topicHash (topic : JSString) : JSString :=
  keccak256 (stringToBytes topic).

Definition knownTopics : list JSString :=
  [lit "identity_profile";
   lit "preferences";
   lit "risk_profile";
   lit "user_identity";
   lit "personal_identity";
   lit "wallet_profile";
   lit "goals"].

(** [const abi = [...]]: the three functions the agent reads with. *)
Definition abi : list AbiItem :=
  [AbiFunction (lit "getLatestMemory")
     [Param (lit "address") (lit "user") [];
      Param (lit "bytes32") (lit "topic") []]
     [Param (lit "tuple") []
        [Param (lit "uint256") (lit "timestamp") [];
         Param (lit "address") (lit "writer") [];
         Param (lit "string") (lit "content") []]];
   AbiFunction (lit "getMemoryCount")
     [Param (lit "address") (lit "user") [];
      Param (lit "bytes32") (lit "topic") []]
     [Param (lit "uint256") [] []];
   AbiFunction (lit "getMemory")
     [Param (lit "address") (lit "user") [];
      Param (lit "bytes32") (lit "topic") [];
      Param (lit "uint256") (lit "index") []]
     [Param (lit "tuple") []
        [Param (lit "uint256") (lit "timestamp") [];
         Param (lit "address") (lit "writer") [];
         Param (lit "string") (lit "content") []]]].

(** The body of the loop of [fetchUserMemories] for one topic, the
    try statement included. *)
Definition fetchTopic (config : Config) (w : World) (topic : JSString) : M unit :=
  try_catch
    (let hash := topicHash topic in
     count <- readContract_count w abi (cfg_MEMORY_VAULT_ADDRESS config)
                (cfg_USER_ADDRESS config) hash ;;
     forRange (Z.to_nat (Number_of count)) 0 (fun i =>
       mem <- readContract_record w abi
                {| read_address := cfg_MEMORY_VAULT_ADDRESS config;
                   read_call := CallGetMemory (cfg_USER_ADDRESS config) hash i |} ;;
       push {| topic := topic;
               content := d_content mem;
               timestamp := Number_of (d_timestamp mem);
               writer := d_writer mem |}))
    (fun _ => ret tt).

(** The scan over a catalog of topics; the source runs it over
    [knownTopics]. *)
Definition scan (config : Config) (w : World) (catalog : list JSString)
  : M (list Memory) :=
  newArray ;;
  forOf catalog (fetchTopic config w) ;;
  getArray.

(** [fetchUserMemories()] *)
Definition fetchUserMemories (config : Config) (w : World) : M (list Memory) :=
  scan config w knownTopics.

End Agent2.

(* ================================================================== *)
(** * mcp-memory-vault/src/server.ts *)
(* ================================================================== *)

Module McpServer.

(** The bindings the worker reads from [env]. *)
Record Env : Type := {
  RPC_URL : option JSString;
  PRIVATE_KEY : option JSString;
  MEMORY_VAULT_ADDRESS : option JSString
}.

(** What the handler reads of a request: its method, the path name of its
    URL and the text of its body. *)
Record Request : Type := {
  method : JSString;
  pathname : JSString;
  body : JSString
}.

(** The body of a response: none, [JSON.stringify] of a value, or
    [JSON.stringify({ success: false, error })] with the message of a
    caught error. *)
Inductive ResponseBody : Type :=
| NoBody
| JsonBody (v : Json)
| FailureBody (e : JSError).

Record Response : Type := {
  status : Z;
  headers : list (JSString * JSString);
  responseBody : ResponseBody
}.

Definition str (s : string) : Json := JString (lit s).
Arguments str s%_string.

Definition jsonHeaders : list (JSString * JSString) :=
  [(lit "Content-Type", lit "application/json")].

(** The service descriptor the GET branch serialises. *)
Definition descriptor : Json :=
  JObject
    [(lit "name", str "memory-vault-mcp");
     (lit "version", str "1.0.0");
     (lit "description", str "On-chain memory vault MCP server for Nullshot agents");
     (lit "tools",
      JArray
        [JObject
           [(lit "name", str "store_memory");
            (lit "description",
             str "Store a memory string on-chain under a topic for a user");
            (lit "parameters",
             JObject
               [(lit "user_address", str "string - Ethereum address of the user");
                (lit "topic", str "string - Topic/category for the memory");
                (lit "content", str "string - Memory content to store")])];
         JObject
           [(lit "name", str "get_latest_memory");
            (lit "description",
             str "Retrieve the latest memory for a user and topic from the blockchain");
            (lit "parameters",
             JObject
               [(lit "user_address", str "string - Ethereum address of the user");
                (lit "topic", str "string - Topic/category to retrieve memory from")])]]);
     (lit "endpoints",
      JObject
        [(lit "store_memory", str "/store-memory");
         (lit "get_latest_memory", str "/get-memory")])].

Definition descriptorResponse : Response :=
  {| status := 200;
     headers := [(lit "Content-Type", lit "application/json");
                 (lit "Access-Control-Allow-Origin", lit "*")];
     responseBody := JsonBody descriptor |}.

Definition missingFields (fields : string) : Response :=
  {| status := 400;
     headers := jsonHeaders;
     responseBody :=
       JsonBody (JObject
         [(lit "success", JBool false);
          (lit "error", JString (lit "Missing required fields: " ++ lit fields))]) |}.
Arguments missingFields fields%_string.

Definition preflightResponse : Response :=
  {| status := 204;
     headers := [(lit "Access-Control-Allow-Origin", lit "*");
                 (lit "Access-Control-Allow-Methods", lit "GET, POST, OPTIONS");
                 (lit "Access-Control-Allow-Headers", lit "Content-Type")];
     responseBody := NoBody |}.

Definition notFoundResponse : Response :=
  {| status := 404;
     headers := jsonHeaders;
     responseBody := JsonBody (JObject [(lit "error", str "Not found")]) |}.

Definition storedResponse (user_address topic tx : JSString) : Response :=
  {| status := 200;
     headers := jsonHeaders;
     responseBody :=
       JsonBody (JObject
         [(lit "success", JBool true);
          (lit "message",
           JString (lit "Successfully stored memory for user " ++ user_address
                    ++ lit " under topic '" ++ topic ++ lit "'"));
          (lit "tx_hash", JString tx)]) |}.

(** The answer to a read that returned, from the members [timestamp],
    [writer] and [content] of its result. *)
Definition memoryResponse (result : DecodedMemory) : Response :=
  {| status := 200;
     headers := jsonHeaders;
     responseBody :=
       JsonBody (JObject
         [(lit "success", JBool true);
          (lit "timestamp", JNumber (Number_of (d_timestamp result)) 0);
          (lit "writer", JString (d_writer result));
          (lit "content", JString (d_content result))]) |}.

Definition failureResponse (error : JSError) : Response :=
  {| status := 500;
     headers := jsonHeaders;
     responseBody := FailureBody error |}.

(** [await request.json()] *)
Definition request_json (request : Request) : M Json :=
  match JSON_parse (body request) with
  | Some v => ret v
  | None => throw SyntaxError
  end.

(** [const { a, b, c } = body]: reading properties of null throws. *)
Definition destructure (v : Json) (keys : list JSString) : M (list JsValue) :=
  match v with
  | JNull => throw TypeError
  | _ => ret (map (property v) keys)
  end.

(** A value the handler's cast declares to be a string. *)
Definition asString (v : JsValue) : option JSString :=
  match v with
  | Value (JString s) => Some s
  | _ => None
  end.

(** [`0x${PRIVATE_KEY}`] *)
Definition keyLiteral (env : Env) : JSString :=
  lit "0x" ++ match PRIVATE_KEY env with
              | Some k => k
              | None => lit "undefined"
              end.

Definition topicHash (topic : JSString) : JSString :=
  keccak256 (stringToBytes topic).

(** [const abi = [...]]: three signatures, each a string.  The file imports
    [parseAbi] and does not apply it. *)
Definition abi : list AbiItem :=
  [AbiText (lit "function storeMemoryFor(address user, bytes32 topic, string content)");
   AbiText (lit "function getLatestMemory(address user, bytes32 topic) view returns (uint256 timestamp, address writer, string content)");
   AbiText (lit "function getMemoryCount(address user, bytes32 topic) view returns (uint256)")].

(** [fetch(request, env, ctx)].  The result is [None] where a field of the
    body passes the truthiness test without being a string, which the type
    the handler casts the body to excludes. *)
Definition fetch (w : World) (request : Request) (env : Env) : M (option Response) :=
  try_catch
    (account <- privateKeyToAccount w (keyLiteral env) ;;
     if str_eqb (method request) (lit "GET") then
       ret (Some descriptorResponse)
     else if str_eqb (method request) (lit "POST")
             && str_eqb (pathname request) (lit "/store-memory") then
       parsed <- request_json request ;;
       fields <- destructure parsed [lit "user_address"; lit "topic"; lit "content"] ;;
       let user_address := nth 0 fields Undefined in
       let topic := nth 1 fields Undefined in
       let content := nth 2 fields Undefined in
       if negb (truthyValue user_address) || negb (truthyValue topic)
          || negb (truthyValue content)
       then ret (Some (missingFields "user_address, topic, content"))
       else
         match asString user_address, asString topic, asString content with
         | Some user, Some t, Some c =>
             let hash := topicHash t in
             tx <- writeContract w abi
                     {| write_address := MEMORY_VAULT_ADDRESS env;
                        write_user := Some user;
                        write_topic := hash;
                        write_content := c |} ;;
             ret (Some (storedResponse user t tx))
         | _, _, _ => ret None
         end
     else if str_eqb (method request) (lit "POST")
             && str_eqb (pathname request) (lit "/get-memory") then
       parsed <- request_json request ;;
       fields <- destructure parsed [lit "user_address"; lit "topic"] ;;
       let user_address := nth 0 fields Undefined in
       let topic := nth 1 fields Undefined in
       if negb (truthyValue user_address) || negb (truthyValue topic)
       then ret (Some (missingFields "user_address, topic"))
       else
         match asString user_address, asString topic with
         | Some user, Some t =>
             let hash := topicHash t in
             result <- readContract_record w abi
                         {| read_address := MEMORY_VAULT_ADDRESS env;
                            read_call := CallGetLatestMemory (Some user) hash |} ;;
             ret (Some (memoryResponse result))
         | _, _ => ret None
         end
     else if str_eqb (method request) (lit "OPTIONS") then
       ret (Some preflightResponse)
     else ret (Some notFoundResponse))
    (fun error =>
       console_error [PStr (lit "Worker error:"); PError error] ;;
       ret (Some (failureResponse error))).

End McpServer.

(* ================================================================== *)
(** * Notions the properties are stated with *)
(* ================================================================== *)

Module Notions.

(** A byte sequence read as one number, little endian. *)
Definition digestValue (bs : list Z) : Z :=
  fold_right (fun b acc => b + 256 * acc) 0 bs.

Definition isByte (b : Z) : Prop := 0 <= b < 256.

(** A label of [width] characters 0 and 1: the binary digits of [n], the
    least significant first. *)
Fixpoint binaryLabel (width : nat) (n : Z) : JSString :=
  match width with
  | O => []
  | S k => (48 + n mod 2) :: binaryLabel k (n / 2)
  end.

(** The object an agent makes of a record read under a topic. *)
Definition toMemory (t : JSString) (r : Ledger.MemoryRecord) : Memory :=
  {| topic := t;
     content := Ledger.content r;
     timestamp := Number_of_bigint (Ledger.timestamp r);
     writer := Ledger.writer r |}.

Section FirstAgent.

Variable config : AgentApp.Config.
Variable w : World.

(** The read of the latest record of a topic. *)
Definition latestCall (t : JSString) : ContractRead :=
  {| read_address := AgentApp.cfg_MEMORY_VAULT_ADDRESS config;
     read_call := CallGetLatestMemory (AgentApp.cfg_USER_ADDRESS config)
                                      (AgentApp.topicHash t) |}.

(** The MemorySet of a topic of the configured owner. *)
Definition memorySet (t : JSString) : list Ledger.MemoryRecord :=
  sets w (AgentApp.cfg_MEMORY_VAULT_ADDRESS config)
         (AgentApp.cfg_USER_ADDRESS config) (AgentApp.topicHash t).

(** What the read of a topic hands to the agent: nothing when the
    transport fails the call, when the ledger has no record to give, or when
    the record does not decode.  The ABI of this agent declares the timestamp
    with the type uintuint256, which viem decodes as a Number, and a Number
    is handed over for a safe integer only. *)
Definition delivered (t : JSString) : option Memory :=
  match readFault w (latestCall t) with
  | Some _ => None
  | None =>
      match Ledger.getLatestMemory (memorySet t) with
      | Some r =>
          if isSafeInteger (Ledger.timestamp r) then Some (toMemory t r) else None
      | None => None
      end
  end.

(** The memories of the topics whose read delivered one, in topic order. *)
Definition retrieved (ts : list JSString) : list Memory :=
  flat_map (fun t => match delivered t with Some m => [m] | None => [] end) ts.

Definition readingEvents (ts : list JSString) : list Event :=
  flat_map (fun t => [LedgerRead (latestCall t);
                      ConsoleLog [PStr (lit "Memory:"); PMemory (delivered t)]]) ts.

(** The decision a completion text stands for. *)
Definition decisionOf (text : JSString) : AgentApp.Decision :=
  match JSON_parse text with
  | Some v =>
      match AgentApp.MemoryDecisionSchema (Value v) with
      | Some d => d
      | None => AgentApp.doNotStore
      end
  | None => AgentApp.doNotStore
  end.

Definition parseErrorLog : Event :=
  ConsoleLog [PStr ([9888] ++ lit " Parse error in memory decision JSON.")].

Definition parseEvents (text : JSString) : list Event :=
  match JSON_parse text with
  | Some v =>
      match AgentApp.MemoryDecisionSchema (Value v) with
      | Some _ => []
      | None => [parseErrorLog]
      end
  | None => [parseErrorLog]
  end.

(** A decision that asks for a write, in the words of the specification:
    [should_store] is true and both [topic] and [summary] are present and
    not empty. *)
Definition Actionable (d : AgentApp.Decision) : Prop :=
  AgentApp.should_store d = true
  /\ (exists t, AgentApp.decision_topic d = Some t /\ t <> [])
  /\ (exists s, AgentApp.summary d = Some s /\ s <> []).

(** The write a decision asks for. *)
Definition writeCall (d : AgentApp.Decision) : ContractWrite :=
  {| write_address := AgentApp.cfg_MEMORY_VAULT_ADDRESS config;
     write_user := AgentApp.cfg_USER_ADDRESS config;
     write_topic := AgentApp.topicHash (AgentApp.the (AgentApp.decision_topic d));
     write_content := AgentApp.the (AgentApp.summary d) |}.

Definition storingLog (d : AgentApp.Decision) : Event :=
  ConsoleLog [PStr ([55357; 56524] ++ lit " Storing memory ("
                    ++ AgentApp.the (AgentApp.decision_topic d) ++ lit ")...")].

Definition storedLog (tx : JSString) : Event :=
  ConsoleLog [PStr ([9989] ++ lit " Stored on-chain. Tx: " ++ tx ++ nl)].

Definition failedLog (e : JSError) : Event :=
  ConsoleError [PStr ([10060] ++ lit " Failed to store memory:"); PError e].

Definition skippedLog : Event :=
  ConsoleLog [PStr ([55357; 56541] ++ lit " No memory stored." ++ nl)].

Definition replyLog (reply : JSString) : Event :=
  ConsoleLog [PStr (nl ++ [55358; 56598] ++ lit " Agent: " ++ reply ++ nl)].

Definition questionEvent : Event := Question ([55357; 56420] ++ lit " You: ").

(** What the last step of a turn does with a decision. *)
Definition writingEvents (d : AgentApp.Decision) : list Event :=
  if AgentApp.should_store d
     && truthy_opt (AgentApp.decision_topic d)
     && truthy_opt (AgentApp.summary d)
  then
    storingLog d :: LedgerWrite (writeCall d)
      :: match writeContract_result w (writeCall d) with
         | Returned tx => [storedLog tx]
         | Threw e => [failedLog e]
         end
  else [skippedLog].

(** The events of a turn up to the decision, for a reply and a decision
    text the model returned. *)
Definition replyingEvents (msg reply : JSString) (memories : list Memory)
  : list Event :=
  [ConsoleLog [PStr (lit "Memories:"); PMemories memories];
   ModelCall (AgentApp.answerRequest config msg memories);
   replyLog reply;
   ModelCall (AgentApp.decideRequest config msg memories)].

End FirstAgent.

Section SecondAgent.

Variable config : Agent2.Config.
Variable w : World.

Definition countCall (t : JSString) : ContractRead :=
  {| read_address := Agent2.cfg_MEMORY_VAULT_ADDRESS config;
     read_call := CallGetMemoryCount (Agent2.cfg_USER_ADDRESS config)
                                     (Agent2.topicHash t) |}.

Definition recordCall (t : JSString) (i : Z) : ContractRead :=
  {| read_address := Agent2.cfg_MEMORY_VAULT_ADDRESS config;
     read_call := CallGetMemory (Agent2.cfg_USER_ADDRESS config)
                                (Agent2.topicHash t) i |}.

(** The MemorySet of a topic of the configured owner. *)
Definition topicSet (t : JSString) : list Ledger.MemoryRecord :=
  sets w (Agent2.cfg_MEMORY_VAULT_ADDRESS config)
         (Agent2.cfg_USER_ADDRESS config) (Agent2.topicHash t).

(** All records of a topic, in write order, as the scan presents them. *)
Definition allRecords (t : JSString) : list Memory :=
  map (toMemory t) (topicSet t).

(** The records [n] reads from index [i] on deliver before the first read
    that fails. *)
Fixpoint readableFrom (t : JSString) (n : nat) (i : Z) : list Memory :=
  match n with
  | O => []
  | S k =>
      match readFault w (recordCall t i) with
      | Some _ => []
      | None =>
          match Ledger.getMemory (topicSet t) i with
          | Some r => toMemory t r :: readableFrom t k (i + 1)
          | None => []
          end
      end
  end.

(** The records of a topic the scan gets hold of. *)
Definition readable (t : JSString) : list Memory :=
  match readFault w (countCall t) with
  | Some _ => []
  | None =>
      readableFrom t
        (Z.to_nat (Number_of_bigint (Ledger.getMemoryCount (topicSet t)))) 0
  end.

(** No read the scan makes of the topic fails: neither the read of the
    count nor the read of a record at an index below it. *)
Definition Clean (t : JSString) : Prop :=
  readFault w (countCall t) = None
  /\ (forall i, 0 <= i < Ledger.getMemoryCount (topicSet t) ->
                readFault w (recordCall t i) = None).

(** Some read of the topic fails. *)
Definition Failing (t : JSString) : Prop :=
  readFault w (countCall t) <> None
  \/ exists i, 0 <= i < Ledger.getMemoryCount (topicSet t)
               /\ readFault w (recordCall t i) <> None.

End SecondAgent.

Section Configuration.

(** A value no source can resolve a variable from: missing, or made of
    white space only. *)
Definition Blank (v : option JSString) : Prop :=
  match v with
  | Some s => forallb isWhiteSpace s = true
  | None => True
  end.

(** A candidate value as the resolution sees it: trimmed, and absent when
    it is missing or white space only. *)
Definition candidate (v : option JSString) : option JSString :=
  match v with
  | Some s => if forallb isWhiteSpace s then None else Some (trim s)
  | None => None
  end.

(** The fixed precedence: the explicit argument, then the wrangler vars,
    then the process environment. *)
Definition resolve (explicit wrangler process : option JSString) : option JSString :=
  match candidate explicit, candidate wrangler with
  | Some x, _ => Some x
  | None, Some y => Some y
  | None, None => candidate process
  end.

Definition orDefault (v : option JSString) (default : JSString) : JSString :=
  match v with Some s => s | None => default end.

End Configuration.

End Notions.
Import Notions.

(* ================================================================== *)
(** * Sample configurations and worlds *)
(* ================================================================== *)

Module Samples.

Definition config : AgentApp.Config :=
  {| AgentApp.cfg_ANTHROPIC_API_KEY := lit "sk-ant-test";
     AgentApp.cfg_RPC_URL := lit "https://rpc.example";
     AgentApp.cfg_MEMORY_VAULT_ADDRESS := Some (lit "0xvault");
     AgentApp.cfg_USER_ADDRESS := Some (lit "0xuser");
     AgentApp.cfg_AGENT_PRIVATE_KEY := lit "11";
     AgentApp.cfg_MODEL_ID := AgentApp.defaultModel |}.

Definition record (text : string) : Ledger.MemoryRecord :=
  {| Ledger.timestamp := 1700000000;
     Ledger.writer := lit "0xagent";
     Ledger.content := lit text |}.
Arguments record text%_string.

(** The completions of a world: [decision] to the request at temperature
    0.2, which is the decision step's, and [reply] to any other. *)
Definition completions (reply decision : JSString) (r : LlmRequest) : Outcome JSString :=
  if str_eqb (temperature r) (lit "0.2") then Returned decision else Returned reply.

(** A JSON text written with single quotes for the double ones. *)
Definition json (s : string) : JSString :=
  map (fun c => if c =? 39 then 34 else c) (lit s).
Arguments json s%_string.

(** Every MemorySet holds one record; the transport fails every read. *)
Definition offline : World :=
  {| sets := fun _ _ _ => [record "likes tea"];
     readFault := fun _ => Some (lit "fetch failed");
     writeContract_result := fun _ => Returned (lit "0xtx");
     generateText_result := completions (lit "Hello.") (lit "no");
     privateKeyToAccount_result := fun _ => Returned (lit "0xagent") |}.

(** Every MemorySet holds one record, reads succeed, writes are rejected,
    and the decision step asks to store the user's name. *)
Definition writesFail : World :=
  {| sets := fun _ _ _ => [record "likes tea"];
     readFault := fun _ => None;
     writeContract_result := fun _ => Threw (TransportFailed (lit "nonce too low"));
     generateText_result :=
       completions (lit "Nice to meet you, Alex.")
         (json "{'should_store': true, 'topic': 'identity_profile', 'summary': 'Name is Alex'}");
     privateKeyToAccount_result := fun _ => Returned (lit "0xagent") |}.

(** As [writesFail] with writes that succeed and the read of the second
    topic failing. *)
Definition oneReadFails : World :=
  {| sets := fun _ _ _ => [record "likes tea"];
     readFault := fun c =>
       match read_call c with
       | CallGetLatestMemory _ key =>
           if str_eqb key (AgentApp.topicHash (lit "preferences"))
           then Some (lit "fetch failed") else None
       | _ => None
       end;
     writeContract_result := fun _ => Returned (lit "0xtx");
     generateText_result :=
       completions (lit "Nice to meet you, Alex.")
         (json "{'should_store': true, 'topic': 'identity_profile', 'summary': 'Name is Alex'}");
     privateKeyToAccount_result := fun _ => Returned (lit "0xagent") |}.

Definition config2 : Agent2.Config :=
  {| Agent2.cfg_ANTHROPIC_API_KEY := lit "sk-ant-test";
     Agent2.cfg_RPC_URL := lit "https://rpc.example";
     Agent2.cfg_MEMORY_VAULT_ADDRESS := Some (lit "0xvault");
     Agent2.cfg_USER_ADDRESS := Some (lit "0xuser");
     Agent2.cfg_MODEL_ID := Agent2.defaultModel |}.

(** Only the topic goals has records, two of them, and the transport
    fails the read of the second. *)
Definition secondReadFails : World :=
  {| sets := fun _ _ key =>
       if str_eqb key (Agent2.topicHash (lit "goals"))
       then [record "run a marathon"; record "learn the cello"]
       else [];
     readFault := fun c =>
       match read_call c with
       | CallGetMemory _ _ 1 => Some (lit "fetch failed")
       | _ => None
       end;
     writeContract_result := fun _ => Returned (lit "0xtx");
     generateText_result := completions (lit "Hello.") (lit "no");
     privateKeyToAccount_result := fun _ => Returned (lit "0xagent") |}.

Definition serverEnv : McpServer.Env :=
  {| McpServer.RPC_URL := Some (lit "https://rpc.example");
     McpServer.PRIVATE_KEY := Some (lit "11");
     McpServer.MEMORY_VAULT_ADDRESS := Some (lit "0xvault") |}.

(** A world whose reads and writes all succeed. *)
Definition online : World :=
  {| sets := fun _ _ _ => [record "likes tea"];
     readFault := fun _ => None;
     writeContract_result := fun _ => Returned (lit "0xtx");
     generateText_result := completions (lit "Hello.") (lit "no");
     privateKeyToAccount_result := fun _ => Returned (lit "0xagent") |}.

Definition post (path : string) (text : JSString) : McpServer.Request :=
  {| McpServer.method := lit "POST";
     McpServer.pathname := lit path;
     McpServer.body := text |}.
Arguments post path%_string text.

Definition noVars : AgentApp.Env :=
  {| AgentApp.ANTHROPIC_API_KEY := None;
     AgentApp.OPENAI_API_KEY := None;
     AgentApp.RPC_URL := None;
     AgentApp.MEMORY_VAULT_ADDRESS := None;
     AgentApp.USER_ADDRESS := None;
     AgentApp.AGENT_PRIVATE_KEY := None;
     AgentApp.AI_PROVIDER := None;
     AgentApp.MODEL_ID := None |}.

(** A process environment complete but for an endpoint of blanks. *)
Definition blankEndpoint : AgentApp.Env :=
  {| AgentApp.ANTHROPIC_API_KEY := Some (lit "sk-ant-test");
     AgentApp.OPENAI_API_KEY := None;
     AgentApp.RPC_URL := Some (lit "   ");
     AgentApp.MEMORY_VAULT_ADDRESS := Some (lit "0xvault");
     AgentApp.USER_ADDRESS := Some (lit " 0xuser ");
     AgentApp.AGENT_PRIVATE_KEY := Some (lit "11");
     AgentApp.AI_PROVIDER := None;
     AgentApp.MODEL_ID := None |}.

End Samples.

(* ================================================================== *)
(** * [loadWranglerVars], the same function in both agents *)
(* ================================================================== *)

Module Wrangler.

(** [content[i] === ch] for an index that may lie past the end. *)
Definition charIs (content : JSString) (i : nat) (ch : Z) : bool :=
  match nth_error content i with
  | Some c => c =? ch
  | None => false
  end.

(** [while (i < content.length && content[i] !== "\n") i++]: the index the
    loop ends at. *)
Fixpoint lineEnd (fuel : nat) (content : JSString) (i : nat) : nat :=
  match fuel with
  | O => i
  | S fuel' =>
      match nth_error content i with
      | Some c => if c =? 10 then i else lineEnd fuel' content (S i)
      | None => i
      end
  end.

(** [while (i < content.length - 1) { if (content[i] === "*" &&
    content[i + 1] === "/") { i += 2; break; } i++; }]: the index the loop
    ends at. *)
Fixpoint blockEnd (fuel : nat) (content : JSString) (i : nat) : nat :=
  match fuel with
  | O => i
  | S fuel' =>
      if (i <? length content - 1)%nat then
        if charIs content i 42 && charIs content (S i) 47
        then (i + 2)%nat
        else blockEnd fuel' content (S i)
      else i
  end.

(** The [for] loop over [content], from index [i] with the flags and the
    text built so far; every [continue] and the end of the body are followed
    by the loop's [i++]. *)
Fixpoint stripLoop (fuel : nat) (content : JSString) (i : nat)
    (inString escape : bool) (jsonContent : JSString) : JSString :=
  match fuel with
  | O => jsonContent
  | S fuel' =>
      match nth_error content i with
      | None => jsonContent
      | Some c =>
          if escape then
            stripLoop fuel' content (S i) inString false (jsonContent ++ [c])
          else if (c =? 92) && inString then
            stripLoop fuel' content (S i) inString true (jsonContent ++ [c])
          else if c =? 34 then
            stripLoop fuel' content (S i) (negb inString) escape (jsonContent ++ [c])
          else if negb inString && (c =? 47) && charIs content (S i) 47 then
            stripLoop fuel' content (S (lineEnd (length content) content i))
                      inString escape jsonContent
          else if negb inString && (c =? 47) && charIs content (S i) 42 then
            stripLoop fuel' content
                      (S (blockEnd (length content) content (i + 2)))
                      inString escape jsonContent
          else
            stripLoop fuel' content (S i) inString escape (jsonContent ++ [c])
      end
  end.

(** The comment-stripping loop of [loadWranglerVars]; the index grows in
    every iteration, so [length content] iterations reach the end. *)
Definition stripComments (content : JSString) : JSString :=
  stripLoop (length content) content 0 false false [].

(** Whether [\s*[}\]]] matches at the start of [s]. *)
Fixpoint closerAhead (s : JSString) : bool :=
  match s with
  | c :: rest =>
      if isWhiteSpace c then closerAhead rest
      else (c =? 125) || (c =? 93)
  | [] => false
  end.

(** [jsonContent.replace(/,(\s*[}\]])/g, "$1")]: a comma the pattern
    matches at is dropped; the white space and the bracket of the match are
    copied, and as they hold no comma the search goes on behind them
    unchanged. *)
Fixpoint removeTrailingCommas (s : JSString) : JSString :=
  match s with
  | [] => []
  | c :: rest =>
      if (c =? 44) && closerAhead rest
      then removeTrailingCommas rest
      else c :: removeTrailingCommas rest
  end.

(** What the function prints: the success line of [console.log], or the
    warning of [console.warn] with the error caught. *)
Inductive Notice : Type :=
| Loaded
| CouldNotLoad (e : JSError).

(** [loadWranglerVars()], given what [readFileSync] came back with: the
    value returned and the lines printed.  The success line is printed before
    [config.vars] is read, which throws for a [config] that is null. *)
Definition loadWranglerVars (file : Outcome JSString) : Json * list Notice :=
  match file with
  | Threw e => (JObject [], [CouldNotLoad e])
  | Returned content =>
      let jsonContent := removeTrailingCommas (stripComments content) in
      match JSON_parse jsonContent with
      | None => (JObject [], [CouldNotLoad SyntaxError])
      | Some JNull => (JObject [], [Loaded; CouldNotLoad TypeError])
      | Some config =>
          match property config (lit "vars") with
          | Value v => if truthyValue (Value v) then (v, [Loaded])
                       else (JObject [], [Loaded])
          | Undefined => (JObject [], [Loaded])
          end
      end
  end.

(** [vars.X] as [safe] takes it: a string, or unset for a key that is
    missing or null; [None] for a value of another type, which [interface
    Env] excludes (its [trim] is not a function). *)
Definition variable (vars : Json) (name : JSString) : option (option JSString) :=
  match property vars name with
  | Undefined => Some None
  | Value JNull => Some None
  | Value (JString s) => Some (Some s)
  | Value _ => None
  end.

(** The variables of the first agent read off [vars]. *)
Definition envOfVars (vars : Json) : option AgentApp.Env :=
  match variable vars (lit "ANTHROPIC_API_KEY"), variable vars (lit "RPC_URL"),
        variable vars (lit "MEMORY_VAULT_ADDRESS"), variable vars (lit "USER_ADDRESS"),
        variable vars (lit "AGENT_PRIVATE_KEY"), variable vars (lit "MODEL_ID") with
  | Some k, Some r, Some v, Some u, Some p, Some m =>
      Some {| AgentApp.ANTHROPIC_API_KEY := k;
              AgentApp.OPENAI_API_KEY := None;
              AgentApp.RPC_URL := r;
              AgentApp.MEMORY_VAULT_ADDRESS := v;
              AgentApp.USER_ADDRESS := u;
              AgentApp.AGENT_PRIVATE_KEY := p;
              AgentApp.AI_PROVIDER := None;
              AgentApp.MODEL_ID := m |}
  | _, _, _, _, _, _ => None
  end.

(** [getEnv(env)] of the first agent with its call of [loadWranglerVars]
    included. *)
Definition getEnvFromFile (file : Outcome JSString) (processEnv : AgentApp.Env)
    (env : option AgentApp.Env) : option AgentApp.Config :=
  option_map (fun vars => AgentApp.getEnv vars processEnv env)
             (envOfVars (fst (loadWranglerVars file))).

(** The states of the loop, for reading it character by character: in
    code, in a string, behind a backslash in a string, in a line comment,
    on the star that opens a block comment, in a block comment, on the slash
    that closes one, and on the character behind it, which the loop's [i++]
    steps over. *)
Inductive Mode : Type :=
| Code | InString | Escaped | Line | BlockOpen | Block | BlockSlash | BlockAfter.

Definition headIs (s : JSString) (ch : Z) : bool :=
  match s with
  | c :: _ => c =? ch
  | [] => false
  end.

Fixpoint machine (m : Mode) (s : JSString) : JSString :=
  match s with
  | [] => []
  | c :: rest =>
      match m with
      | Code =>
          if c =? 34 then c :: machine InString rest
          else if (c =? 47) && headIs rest 47 then machine Line rest
          else if (c =? 47) && headIs rest 42 then machine BlockOpen rest
          else c :: machine Code rest
      | InString =>
          if c =? 92 then c :: machine Escaped rest
          else if c =? 34 then c :: machine Code rest
          else c :: machine InString rest
      | Escaped => c :: machine InString rest
      | Line => if c =? 10 then machine Code rest else machine Line rest
      | BlockOpen => machine Block rest
      | Block =>
          match rest with
          | [] => []
          | _ :: _ =>
              if (c =? 42) && headIs rest 47 then machine BlockSlash rest
              else machine Block rest
          end
      | BlockSlash => machine BlockAfter rest
      | BlockAfter => machine Code rest
      end
  end.

End Wrangler.

(* ================================================================== *)
(** * agent-2/src/index.ts: the reply and the loop *)
(* ================================================================== *)

Module Agent2Cli.

(** [memories.map(m => `- (${m.topic}) ${m.content}`).join("\n")] *)
Definition memoryLines (memories : list Memory) : JSString :=
  join nl (map (fun m => lit "- (" ++ topic m ++ lit ") " ++ content m) memories).

Definition systemPrompt : JSString :=
  nl ++ lit "You are Agent 2 " ++ [8212] ++ lit " a read-only memory agent." ++ nl
  ++ lit "You analyze the user's on-chain long-term memories and answer questions based on them."
  ++ nl
  ++ lit "NEVER invent new memories. Only use what is stored." ++ nl.

Definition replyRequest (config : Agent2.Config) (userMessage : JSString)
    (memories : list Memory) : LlmRequest :=
  let memoryText :=
    match memories with
    | [] => lit "No on-chain memories found."
    | _ => memoryLines memories
    end in
  {| model := Agent2.cfg_MODEL_ID config;
     system := systemPrompt;
     prompt := nl ++ lit "Retrieved on-chain memories:" ++ nl ++ memoryText ++ nl ++ nl
               ++ lit "User: " ++ dq ++ userMessage ++ dq ++ nl;
     temperature := lit "0.4" |}.

(** [replyWithMemories(userMessage, memories)] *)
Definition replyWithMemories (config : Agent2.Config) (w : World)
    (userMessage : JSString) (memories : list Memory) : M JSString :=
  text <- generateText w (replyRequest config userMessage memories) ;;
  ret text.

(** One iteration of the loop of [main], from the message on. *)
Definition turn (config : Agent2.Config) (w : World) (userMessage : JSString)
  : M unit :=
  memories <- Agent2.fetchUserMemories config w ;;
  reply <- replyWithMemories config w userMessage memories ;;
  console_log [PStr (nl ++ [55358; 56598] ++ lit " Agent 2: " ++ reply ++ nl)].

Definition question : Event := Question ([55357; 56420] ++ lit " You: ").

(** The [while (true)] loop over the utterances the input delivers, each
    with the world as it answers during that turn. *)
Fixpoint loop (config : Agent2.Config) (inputs : list (JSString * World)) : M unit :=
  match inputs with
  | [] => emit question
  | (userMessage, w) :: rest =>
      emit question ;;
      turn config w userMessage ;;
      loop config rest
  end.

(** [main()] *)
Definition main (config : Agent2.Config) (inputs : list (JSString * World)) : M unit :=
  console_log [PStr ([55358; 56598] ++ lit " Agent 2 " ++ [8212]
                     ++ lit " On-chain Memory Reader (Sepolia)")] ;;
  console_log [PStr (lit "Ask anything. Example:")] ;;
  console_log [PStr (lit "- What is my name?")] ;;
  console_log [PStr (lit "- What preferences do you have stored?")] ;;
  console_log [PStr (lit "- Summarize my identity." ++ nl)] ;;
  loop config inputs.

End Agent2Cli.

(* ================================================================== *)
(** * mcp-memory-vault/src/tools.ts *)
(* ================================================================== *)

Module Tools.

(** The object [getLatestMemoryHandler] returns. *)
Record LatestMemory : Type := {
  lm_timestamp : Z;
  lm_writer : JSString;
  lm_content : JSString
}.

(** [const abi = [...]] of [createTools]: the three signatures of the
    worker, each a string. *)
Definition abi : list AbiItem :=
  [AbiText (lit "function storeMemoryFor(address user, bytes32 topic, string content)");
   AbiText (lit "function getLatestMemory(address user, bytes32 topic) view returns (uint256 timestamp, address writer, string content)");
   AbiText (lit "function getMemoryCount(address user, bytes32 topic) view returns (uint256)")].

Definition topicHash (topic : JSString) : JSString :=
  keccak256 (stringToBytes topic).

(** [storeMemoryHandler({ user_address, topic, content })], of whose result
    [{ tx_hash: tx }] the member is kept. *)
Definition storeMemoryHandler (w : World) (env : McpServer.Env)
    (user_address topic content : JSString) : M JSString :=
  let hash := topicHash topic in
  tx <- writeContract w abi
          {| write_address := McpServer.MEMORY_VAULT_ADDRESS env;
             write_user := Some user_address;
             write_topic := hash;
             write_content := content |} ;;
  ret tx.

(** [getLatestMemoryHandler({ user_address, topic })].  The source takes
    [timestamp], [writer] and [content] out of the result by position
    ([const [timestamp, writer, content] = ...]); they are written here as the
    members of the decoded record. *)
Definition getLatestMemoryHandler (w : World) (env : McpServer.Env)
    (user_address topic : JSString) : M LatestMemory :=
  let hash := topicHash topic in
  result <- readContract_record w abi
              {| read_address := McpServer.MEMORY_VAULT_ADDRESS env;
                 read_call := CallGetLatestMemory (Some user_address) hash |} ;;
  ret {| lm_timestamp := Number_of (d_timestamp result);
         lm_writer := d_writer result;
         lm_content := d_content result |}.

End Tools.

(* ================================================================== *)
(** * Further notions *)
(* ================================================================== *)

Module Counting.

Definition isRead (e : Event) : bool :=
  match e with LedgerRead _ => true | _ => false end.

Definition isModelCall (e : Event) : bool :=
  match e with ModelCall _ => true | _ => false end.

(** How many ledger reads and model calls a trace holds. *)
Definition countReads (t : list Event) : nat := length (filter isRead t).
Definition countModelCalls (t : list Event) : nat := length (filter isModelCall t).

(** A text in which no comment and no string starts. *)
Definition Plain (s : JSString) : Prop := ~ In 34 s /\ ~ In 47 s.

(** Whether a variable resolved to a value. *)
Definition resolved (v : option JSString) : bool :=
  match v with Some _ => true | None => false end.

(** The line the worker prints for an error it caught. *)
Definition workerError (e : JSError) : Event :=
  ConsoleError [PStr (lit "Worker error:"); PError e].

(** The read the worker's get-memory route makes. *)
Definition workerRead (env : McpServer.Env) (user t : JSString) : ContractRead :=
  {| read_address := McpServer.MEMORY_VAULT_ADDRESS env;
     read_call := CallGetLatestMemory (Some user) (McpServer.topicHash t) |}.

(** The write the worker's store-memory route makes. *)
Definition workerWrite (env : McpServer.Env) (user t c : JSString) : ContractWrite :=
  {| write_address := McpServer.MEMORY_VAULT_ADDRESS env;
     write_user := Some user;
     write_topic := McpServer.topicHash t;
     write_content := c |}.

(** Whether a comment opens in [s]: a slash outside a string literal that
    a slash or a star follows, the flags being those of the loop of
    [loadWranglerVars]. *)
Fixpoint commentOpens (inString escape : bool) (s : JSString) : bool :=
  match s with
  | [] => false
  | c :: rest =>
      if escape then commentOpens inString false rest
      else if (c =? 92) && inString then commentOpens inString true rest
      else if c =? 34 then commentOpens (negb inString) false rest
      else (negb inString && (c =? 47)
            && (Wrangler.headIs rest 47 || Wrangler.headIs rest 42))
           || commentOpens inString false rest
  end.

(** Whether [s] holds a comma that only white space parts from a closing
    brace or bracket. *)
Fixpoint trailingComma (s : JSString) : bool :=
  match s with
  | [] => false
  | c :: rest => ((c =? 44) && Wrangler.closerAhead rest) || trailingComma rest
  end.

(** A digit of a hexadecimal literal as viem writes it: 0 to 9, a to f. *)
Definition isHexDigit (c : Z) : bool :=
  ((48 <=? c) && (c <=? 57)) || ((97 <=? c) && (c <=? 102)).

(** A computation that, from every state, writes nothing to the ledger and
    asks the model at most [k] times. *)
Definition ReadOnly {A : Type} (k : nat) (m : M A) : Prop :=
  forall st : Store,
    countWrites (trace (snd (m st))) = countWrites (trace st)
    /\ (countModelCalls (trace (snd (m st))) <= countModelCalls (trace st) + k)%nat.

(** The body of a request is of the type the handler casts it to: a field
    that passes the truthiness test is a string. *)
Definition WellTyped (request : McpServer.Request) : Prop :=
  forall (parsed : Json) (key : JSString),
    JSON_parse (McpServer.body request) = Some parsed ->
    In key [lit "user_address"; lit "topic"; lit "content"] ->
    truthyValue (property parsed key) = true ->
    McpServer.asString (property parsed key) <> None.

(** The status codes of the handler. *)
Definition statuses : list Z := [200; 204; 400; 404; 500].

(** The line the second agent prints its reply with. *)
Definition reply2Log (reply : JSString) : Event :=
  ConsoleLog [PStr (nl ++ [55358; 56598] ++ lit " Agent 2: " ++ reply ++ nl)].

End Counting.
Import Counting.

(* ================================================================== *)
(** * Worlds in which something fails, and a sample file *)
(* ================================================================== *)

Module Faults.

Definition overloaded : JSError := ModelCallFailed (lit "overloaded").

(** Reads deliver a record and every completion is rejected. *)
Definition modelDown : World :=
  {| sets := fun _ _ _ => [Samples.record "likes tea"];
     readFault := fun _ => None;
     writeContract_result := fun _ => Returned (lit "0xtx");
     generateText_result := fun _ => Threw overloaded;
     privateKeyToAccount_result := fun _ => Returned (lit "0xagent") |}.

(** The reply is delivered and the request of the decision step, the one at
    temperature 0.2, is rejected. *)
Definition decisionDown : World :=
  {| sets := fun _ _ _ => [Samples.record "likes tea"];
     readFault := fun _ => None;
     writeContract_result := fun _ => Returned (lit "0xtx");
     generateText_result := fun r =>
       if str_eqb (temperature r) (lit "0.2")
       then Threw overloaded else Returned (lit "Hello.");
     privateKeyToAccount_result := fun _ => Returned (lit "0xagent") |}.


(** The private key is one the derivation of the account rejects. *)
Definition badKey : World :=
  {| sets := fun _ _ _ => [Samples.record "likes tea"];
     readFault := fun _ => None;
     writeContract_result := fun _ => Returned (lit "0xtx");
     generateText_result := Samples.completions (lit "Hello.") (lit "no");
     privateKeyToAccount_result := fun _ => Threw InvalidPrivateKey |}.

(** No MemorySet holds a record. *)
Definition emptyLedger : World :=
  {| sets := fun _ _ _ => [];
     readFault := fun _ => None;
     writeContract_result := fun _ => Returned (lit "0xtx");
     generateText_result := Samples.completions (lit "Hello.") (lit "no");
     privateKeyToAccount_result := fun _ => Returned (lit "0xagent") |}.

(** Every MemorySet holds one record, stamped 2^53. *)
Definition lateStamp : World :=
  {| sets := fun _ _ _ =>
       [{| Ledger.timestamp := 2 ^ 53;
           Ledger.writer := lit "0xagent";
           Ledger.content := lit "likes tea" |}];
     readFault := fun _ => None;
     writeContract_result := fun _ => Returned (lit "0xtx");
     generateText_result := Samples.completions (lit "Hello.") (lit "no");
     privateKeyToAccount_result := fun _ => Returned (lit "0xagent") |}.

(** A wrangler.jsonc without comments or trailing commas. *)
Definition plainFile : JSString :=
  Samples.json "{'vars': {'RPC_URL': 'https://rpc.example', 'USER_ADDRESS': '0xuser'}}".

End Faults.

(* ================================================================== *)
(** * The definitions at work *)
(* ================================================================== *)


Example keccak_empty :
  keccak256 [] =
  lit "0xc5d2460186f7233c927e7db2dcc703c0e500b653ca82273b7bfad8045d85a470".
Proof. vm_compute. reflexivity. Qed.

Example keccak_abc :
  keccak256 (stringToBytes (lit "abc")) =
  lit "0x4e03657aea45a94fc7d47ba826c8d667c0d1e6e33a64a036ec44f58fa12d6c45".
Proof. vm_compute. reflexivity. Qed.

Example keccak_two_blocks :
  keccak256 (repeat 97 136) =
  lit "0xa6c4d403279fe3e0af03729caada8374b5ca54d8065329a3ebcaeb4b60aa386e".
Proof. vm_compute. reflexivity. Qed.

Example utf8_lone_surrogate :
  stringToBytes [55357] = [239; 191; 189].
Proof. reflexivity. Qed.

Example utf8_surrogate_pair :
  stringToBytes [55357; 56832] = [240; 159; 152; 128].
Proof. reflexivity. Qed.

Example trim_blanks :
  trim (lit "  a b  ") = lit "a b" /\ trim (lit "   ") = [] /\ trim [160; 97; 8232] = [97].
Proof. repeat split. Qed.

Example number_rounds_to_even :
  Number_of_bigint (2 ^ 53 + 1) = 2 ^ 53 /\ Number_of_bigint (2 ^ 53 + 3) = 2 ^ 53 + 4.
Proof. split; reflexivity. Qed.

Example parse_decision :
  JSON_parse (Samples.json "{'should_store': true, 'topic': 'goals', 'summary': 'Run'}")
  = Some (JObject [(lit "should_store", JBool true);
                   (lit "topic", JString (lit "goals"));
                   (lit "summary", JString (lit "Run"))]).
Proof. vm_compute. reflexivity. Qed.

Example parse_rejects_trailing_comma :
  JSON_parse (Samples.json "{'should_store': true,}") = None.
Proof. vm_compute. reflexivity. Qed.

Example parse_rejects_prose :
  JSON_parse (lit "Sure, here is the JSON you asked for.") = None.
Proof. vm_compute. reflexivity. Qed.

Example schema_accepts_flag_alone :
  option_map (fun v => AgentApp.MemoryDecisionSchema (Value v))
             (JSON_parse (Samples.json "{'should_store': false}"))
  = Some (Some AgentApp.doNotStore).
Proof. vm_compute. reflexivity. Qed.

Example schema_rejects_missing_flag :
  option_map (fun v => AgentApp.MemoryDecisionSchema (Value v))
             (JSON_parse (Samples.json "{'topic': 'goals', 'summary': 'Run'}"))
  = Some None.
Proof. vm_compute. reflexivity. Qed.

Example schema_rejects_null_topic :
  option_map (fun v => AgentApp.MemoryDecisionSchema (Value v))
             (JSON_parse (Samples.json "{'should_store': true, 'topic': null, 'summary': null}"))
  = Some None.
Proof. vm_compute. reflexivity. Qed.

Example blank_endpoint_exits :
  fst (AgentApp.initialize Samples.online Samples.noVars Samples.blankEndpoint None emptyStore)
  = Returned (AgentApp.Exited 1).
Proof. vm_compute. reflexivity. Qed.

Example user_address_is_trimmed :
  AgentApp.cfg_USER_ADDRESS (AgentApp.getEnv Samples.noVars Samples.blankEndpoint None)
  = Some (lit "0xuser").
Proof. vm_compute. reflexivity. Qed.

Example scan_of_full_ledger :
  option_map (map topic)
    (match fst (Agent2.fetchUserMemories Samples.config2 Samples.online emptyStore) with
     | Returned l => Some l
     | Threw _ => None
     end)
  = Some Agent2.knownTopics.
Proof. vm_compute. reflexivity. Qed.

Example split_type :
  split (lit "int") (lit "uintuint256") = [lit "u"; lit "u"; lit "256"]
  /\ split (lit "int") (lit "uint256") = [lit "u"; lit "256"]
  /\ split (lit "int") (lit "int") = [[]; []]
  /\ split (lit "int") [] = [[]].
Proof. repeat split. Qed.

Example parseInt_sizes :
  parseInt (lit "256") = Some 256 /\ parseInt (lit "u") = None
  /\ parseInt (lit " -12px") = Some (-12) /\ parseInt (lit "0x1f") = Some 31.
Proof. repeat split. Qed.

Example decode_by_type :
  decodeInteger (lit "uint256") (2 ^ 53 + 1) = Returned (BigInt (2 ^ 53 + 1))
  /\ decodeInteger (lit "uint32") 1700000000 = Returned (Num 1700000000)
  /\ decodeInteger (lit "uintuint256") 1700000000 = Returned (Num 1700000000)
  /\ decodeInteger (lit "uintuint256") (2 ^ 53 + 1) = Threw IntegerOutOfRange
  /\ decodeInteger (lit "string") 0 = Threw InvalidAbiType.
Proof. repeat split. Qed.

Example abi_lookup :
  functionOutputs AgentApp.abi (lit "storeMemoryFor") = Returned []
  /\ functionOutputs AgentApp.abi (lit "MemoryStored") = Threw AbiFunctionNotFound
  /\ functionOutputs Agent2.abi (lit "storeMemoryFor") = Threw AbiFunctionNotFound
  /\ functionOutputs McpServer.abi (lit "storeMemoryFor") = Threw TypeError
  /\ timestampType
       match functionOutputs AgentApp.abi (lit "getLatestMemory") with
       | Returned outputs => outputs
       | Threw _ => []
       end = Some (lit "uintuint256").
Proof. repeat split. Qed.

Example store_memory_round :
  McpServer.fetch Samples.online
    (Samples.post "/store-memory"
       (Samples.json "{'user_address': '0xabc', 'topic': 'goals', 'content': 'Run'}"))
    Samples.serverEnv emptyStore
  = (Returned (Some (McpServer.failureResponse TypeError)),
     {| trace := [LedgerWrite {| write_address := Some (lit "0xvault");
                                 write_user := Some (lit "0xabc");
                                 write_topic := McpServer.topicHash (lit "goals");
                                 write_content := lit "Run" |};
                  ConsoleError [PStr (lit "Worker error:"); PError TypeError]];
        array := [] |}).
Proof. vm_compute. reflexivity. Qed.

Example store_memory_null_body :
  option_map McpServer.status
    (match fst (McpServer.fetch Samples.online (Samples.post "/store-memory" (lit "null"))
                  Samples.serverEnv emptyStore) with
     | Returned r => r
     | Threw _ => None
     end)
  = Some 500.
Proof. vm_compute. reflexivity. Qed.

Example keccak_non_ascii :
  keccak256 (stringToBytes [233; 55357; 56832; 56832]) =
  lit "0xd425455dd9fd5b1be218176073dd28c9c67b7e6edae82683ba1c736848e74530".
Proof. vm_compute. reflexivity. Qed.

(* ================================================================== *)
(** * Topic keys *)
(* ================================================================== *)

Section KeccakShape.

Lemma lanes_length (f : nat -> nat -> Z) : length (lanes f) = 25%nat.
Proof. unfold lanes. now rewrite length_map, length_seq. Qed.

Lemma keccakRound_length (A : list Z) (rc : Z) :
  length (keccakRound A rc) = 25%nat.
Proof.
  unfold keccakRound, chi.
  remember (lanes _) as B eqn:HB.
  assert (HL : length B = 25%nat) by (subst B; apply lanes_length).
  destruct B as [|b B']; [discriminate HL | exact HL].
Qed.

Lemma keccakF_length (A : list Z) : length (keccakF A) = 25%nat.
Proof.
  unfold keccakF, roundConstants. cbn [fold_left].
  apply keccakRound_length.
Qed.

Lemma absorb_length (n : nat) :
  forall msg A, length A = 25%nat -> length (absorb n msg A) = 25%nat.
Proof.
  induction n as [|n IH]; intros msg A HA; cbn [absorb].
  - exact HA.
  - apply IH, keccakF_length.
Qed.

Lemma bytesOfLane_bytes (l : Z) : Forall isByte (bytesOfLane l).
Proof.
  unfold bytesOfLane. apply Forall_forall. intros b Hb.
  apply in_map_iff in Hb. destruct Hb as [i [<- _]].
  unfold isByte. change 255 with (Z.ones 8). rewrite Z.land_ones by lia.
  apply Z.mod_pos_bound. lia.
Qed.

Lemma keccak256_bytes_length (msg : list Z) :
  length (keccak256_bytes msg) = 32%nat.
Proof.
  unfold keccak256_bytes.
  remember (absorb _ _ _) as A eqn:HA.
  assert (HL : length A = 25%nat).
  { subst A. apply absorb_length. apply repeat_length. }
  do 4 (destruct A as [|? A]; [discriminate HL|]).
  reflexivity.
Qed.

Lemma keccak256_bytes_range (msg : list Z) :
  Forall isByte (keccak256_bytes msg).
Proof.
  unfold keccak256_bytes.
  remember (firstn 4 _) as ls eqn:Hls. clear Hls.
  induction ls as [|l ls IH]; cbn [flat_map].
  - constructor.
  - apply Forall_app. split; [apply bytesOfLane_bytes | exact IH].
Qed.

End KeccakShape.

Section DigestValue.

Lemma digestValue_bound (bs : list Z) :
  Forall isByte bs -> 0 <= digestValue bs < 256 ^ Z.of_nat (length bs).
Proof.
  induction 1 as [|b bs Hb _ IH].
  - cbn. lia.
  - cbn [digestValue fold_right length].
    fold (digestValue bs).
    rewrite Nat2Z.inj_succ, Z.pow_succ_r by lia.
    unfold isByte in Hb. lia.
Qed.

Lemma digestValue_inj (xs : list Z) :
  forall ys, length xs = length ys -> Forall isByte xs -> Forall isByte ys ->
             digestValue xs = digestValue ys -> xs = ys.
Proof.
  induction xs as [|x xs IH]; intros [|y ys] HL Hx Hy HV;
    try discriminate HL; [reflexivity|].
  inversion Hx as [|? ? Hx1 Hx2]; subst.
  inversion Hy as [|? ? Hy1 Hy2]; subst.
  cbn [digestValue fold_right] in HV.
  fold (digestValue xs) in HV. fold (digestValue ys) in HV.
  unfold isByte in Hx1, Hy1.
  assert (x = y /\ digestValue xs = digestValue ys) as [-> HV'] by lia.
  f_equal. apply IH; auto.
Qed.

End DigestValue.

Section Pigeonhole.

Lemma bounded_search (f : nat -> nat) (v : nat) (n : nat) :
  (exists i, (i <= n)%nat /\ f i = v) \/ (forall i, (i <= n)%nat -> f i <> v).
Proof.
  induction n as [|n [[i [Hi He]]|Hn]].
  - destruct (Nat.eq_dec (f 0%nat) v) as [He|Hne].
    + left. exists 0%nat. split; [lia | exact He].
    + right. intros i Hi. assert (i = 0%nat) as -> by lia. exact Hne.
  - left. exists i. split; [lia | exact He].
  - destruct (Nat.eq_dec (f (S n)) v) as [He|Hne].
    + left. exists (S n). split; [lia | exact He].
    + right. intros i Hi.
      destruct (Nat.eq_dec i (S n)) as [->|Hd]; [exact Hne | apply Hn; lia].
Qed.

(** More inputs than values: two inputs share a value. *)
Lemma pigeonhole (N : nat) :
  forall f : nat -> nat,
    (forall i, (i <= N)%nat -> (f i < N)%nat) ->
    exists i j, (i < j <= N)%nat /\ f i = f j.
Proof.
  induction N as [|n IH]; intros f Hf.
  - specialize (Hf 0%nat (Nat.le_refl _)). lia.
  - destruct (bounded_search f (f (S n)) n) as [[i [Hi He]]|Hfresh].
    + exists i, (S n). split; [lia | exact He].
    + set (g := fun i => if (f i <? f (S n))%nat then f i else (f i - 1)%nat).
      destruct (IH g) as [i [j [Hij Hg]]].
      * intros i Hi. unfold g.
        pose proof (Hf i ltac:(lia)). pose proof (Hf (S n) ltac:(lia)).
        pose proof (Hfresh i Hi).
        destruct (Nat.ltb_spec (f i) (f (S n))); lia.
      * exists i, j. split; [lia|].
        unfold g in Hg.
        pose proof (Hfresh i ltac:(lia)). pose proof (Hfresh j ltac:(lia)).
        destruct (Nat.ltb_spec (f i) (f (S n)));
          destruct (Nat.ltb_spec (f j) (f (S n))); lia.
Qed.

End Pigeonhole.

Section TopicKeys.

Lemma stringToBytes_ascii (t : JSString) :
  Forall (fun c => c < 128) t -> stringToBytes t = t.
Proof.
  induction 1 as [|c t Hc _ IH]; cbn [stringToBytes].
  - reflexivity.
  - destruct (Z.ltb_spec c 128); [now rewrite IH | lia].
Qed.

Lemma binaryLabel_length (width : nat) :
  forall n, length (binaryLabel width n) = width.
Proof.
  induction width as [|k IH]; intros n; [reflexivity|].
  cbn [binaryLabel length]. now rewrite IH.
Qed.

Lemma binaryLabel_digits (width : nat) :
  forall n, Forall (fun c => c = 48 \/ c = 49) (binaryLabel width n).
Proof.
  induction width as [|k IH]; intros n; cbn [binaryLabel]; constructor.
  - pose proof (Z.mod_pos_bound n 2). lia.
  - apply IH.
Qed.

Lemma binaryLabel_inj (width : nat) :
  forall n m,
    0 <= n < 2 ^ Z.of_nat width -> 0 <= m < 2 ^ Z.of_nat width ->
    binaryLabel width n = binaryLabel width m -> n = m.
Proof.
  induction width as [|k IH]; intros n m Hn Hm Heq.
  - cbn in Hn, Hm. lia.
  - rewrite Nat2Z.inj_succ, Z.pow_succ_r in Hn, Hm by lia.
    cbn [binaryLabel] in Heq.
    pose proof (f_equal (hd 0) Heq) as Hhead. cbn [hd] in Hhead.
    pose proof (f_equal (@tl Z) Heq) as Htail. cbn [tl] in Htail.
    apply IH in Htail.
    + pose proof (Z.div_mod n 2 ltac:(lia)) as Hdn.
      pose proof (Z.div_mod m 2 ltac:(lia)) as Hdm.
      rewrite Htail in Hdn. lia.
    + split; [apply Z.div_pos; lia | apply Z.div_lt_upper_bound; lia].
    + split; [apply Z.div_pos; lia | apply Z.div_lt_upper_bound; lia].
Qed.

Lemma stringToBytes_binaryLabel (width : nat) (n : Z) :
  stringToBytes (binaryLabel width n) = binaryLabel width n.
Proof.
  apply stringToBytes_ascii.
  eapply Forall_impl; [|apply binaryLabel_digits]. cbn. lia.
Qed.

(** C1, as stated, fails: the keys are 32 bytes, and there are more labels
    of 257 characters 0 and 1 than keys, so two such labels differ and share
    a key. *)
Lemma topicHash_collision_exists :
  exists t1 t2 : JSString,
    length t1 = 257%nat /\ length t2 = 257%nat
    /\ Forall (fun c => c = 48 \/ c = 49) t1
    /\ Forall (fun c => c = 48 \/ c = 49) t2
    /\ stringToBytes t1 <> stringToBytes t2
    /\ AgentApp.topicHash t1 = AgentApp.topicHash t2.
Proof.
  set (N := Z.to_nat (256 ^ 32)).
  set (label := fun n : nat => binaryLabel 257 (Z.of_nat n)).
  set (f := fun n : nat =>
              Z.to_nat (digestValue (keccak256_bytes (stringToBytes (label n))))).
  destruct (pigeonhole N f) as [i [j [Hij Hf]]].
  - intros i _. unfold f, N.
    pose proof (digestValue_bound _ (keccak256_bytes_range (stringToBytes (label i))))
      as HB.
    rewrite keccak256_bytes_length in HB.
    apply Z2Nat.inj_lt; lia.
  - exists (label i), (label j). unfold label.
    split; [apply binaryLabel_length|]. split; [apply binaryLabel_length|].
    split; [apply binaryLabel_digits|]. split; [apply binaryLabel_digits|].
    split.
    + rewrite !stringToBytes_binaryLabel. intros He.
      apply binaryLabel_inj in He.
      * lia.
      * unfold N in Hij. change (Z.of_nat 257) with 257.
        assert (Z.of_nat i <= 256 ^ 32) by lia.
        change (256 ^ 32) with (2 ^ 256) in *.
        assert (2 ^ 256 < 2 ^ 257) by (apply Z.pow_lt_mono_r; lia). lia.
      * unfold N in Hij. change (Z.of_nat 257) with 257.
        assert (Z.of_nat j <= 256 ^ 32) by lia.
        change (256 ^ 32) with (2 ^ 256) in *.
        assert (2 ^ 256 < 2 ^ 257) by (apply Z.pow_lt_mono_r; lia). lia.
    + unfold AgentApp.topicHash, keccak256. f_equal.
      apply digestValue_inj.
      * now rewrite !keccak256_bytes_length.
      * apply keccak256_bytes_range.
      * apply keccak256_bytes_range.
      * unfold f in Hf. apply Z2Nat.inj in Hf; [exact Hf | |];
          apply digestValue_bound, keccak256_bytes_range.
Qed.

Lemma catalog_keys :
  map Agent2.topicHash Agent2.knownTopics =
  [lit "0x934372dfd06c3fbee3eee0c59d27376298eec94247b0b86dd71cf487647b8976";
   lit "0x0a4bd37f56f1152fc0b1f9438234f9b16fa91d420212cf6205d112d163ac852c";
   lit "0xbc3f040884b93fdae3347242854b05eafd621f5306d29256db7ba8d282c304f4";
   lit "0x21957a3b6936d983d1812be93c14ca86bf37f4bdb2c5cb1a25bab94beebafeea";
   lit "0xbbf157a89bdb41be3207a7916df2d5b4e1230652a514f4fae410ce92bbe6352a";
   lit "0x35a5cedbbd9d74a2bf03752cf68a1c45ec203d63c3c39390b37c80b15caa01c9";
   lit "0xac427edfbf6caaec5095153cae23e49a300d6441d1ece8a8e312211eb374048f"].
Proof. vm_compute. reflexivity. Qed.

(** C1 (amended): [topicHash] is a function of the exact UTF-8 bytes of
    the topic: the key is the hexadecimal form of the 32-byte Keccak-256
    digest of [stringToBytes topic], the same in both agents and the worker;
    topics with the
    same bytes get the same key; the bytes are not normalised (an ASCII label
    is hashed as it is written, a leading blank is hashed too), so that the
    keys of goals, Goals and goals after a blank differ; and the seven
    catalog labels have pairwise distinct keys.  Distinct keys for all
    byte-distinct topics are not part of it. *)
Theorem topicHash_byte_exact (t : JSString) :
  AgentApp.topicHash t = keccak256 (stringToBytes t)
  /\ Agent2.topicHash t = AgentApp.topicHash t
  /\ McpServer.topicHash t = AgentApp.topicHash t
  /\ (exists digest : list Z,
        length digest = 32%nat /\ Forall isByte digest
        /\ digest = keccak256_bytes (stringToBytes t)
        /\ AgentApp.topicHash t = bytesToHex digest)
  /\ (forall t', stringToBytes t' = stringToBytes t ->
                 AgentApp.topicHash t' = AgentApp.topicHash t)
  /\ (Forall (fun c => c < 128) t -> stringToBytes t = t)
  /\ stringToBytes (32 :: t) = 32 :: stringToBytes t
  /\ NoDup (map AgentApp.topicHash Agent2.knownTopics)
  /\ AgentApp.topicHash (lit " goals") <> AgentApp.topicHash (lit "goals")
  /\ AgentApp.topicHash (lit "Goals") <> AgentApp.topicHash (lit "goals").
Proof.
  split; [reflexivity|]. split; [reflexivity|]. split; [reflexivity|]. split.
  { exists (keccak256_bytes (stringToBytes t)).
    split; [apply keccak256_bytes_length|].
    split; [apply keccak256_bytes_range|]. split; reflexivity. }
  split.
  { intros t' Hbytes. unfold AgentApp.topicHash. now rewrite Hbytes. }
  split; [apply stringToBytes_ascii|].
  split; [reflexivity|].
  split.
  { change (map AgentApp.topicHash Agent2.knownTopics)
      with (map Agent2.topicHash Agent2.knownTopics).
    rewrite catalog_keys. vm_compute.
    repeat (constructor; [cbn [In]; intuition discriminate|]). constructor. }
  split; intros H; vm_compute in H; discriminate H.
Qed.

End TopicKeys.

(* ================================================================== *)
(** * The first agent: reading, deciding, writing *)
(* ================================================================== *)

Section MonadSteps.

Context {A B : Type}.

Lemma bind_run (m : M A) (k : A -> M B) (st st' : Store) (a : A) :
  m st = (Returned a, st') -> bind m k st = k a st'.
Proof. intros H. unfold bind. now rewrite H. Qed.

Lemma try_catch_returned (body : M A) (handler : JSError -> M A)
    (st st' : Store) (a : A) :
  body st = (Returned a, st') -> try_catch body handler st = (Returned a, st').
Proof. intros H. unfold try_catch. now rewrite H. Qed.

Lemma bind_threw (m : M A) (k : A -> M B) (st st' : Store) (e : JSError) :
  m st = (Threw e, st') -> bind m k st = (Threw e, st').
Proof. intros H. unfold bind. now rewrite H. Qed.

End MonadSteps.

Section ContractCalls.

Variable w : World.

Lemma safe_Number (v : Z) : isSafeInteger v = true -> Number_of_bigint v = v.
Proof.
  unfold isSafeInteger, Number_of_bigint. intros H.
  apply andb_true_iff in H. destruct H as [_ H]. apply Z.leb_le in H.
  destruct (Z.ltb_spec v (2 ^ 53)); [reflexivity | lia].
Qed.

Lemma decodeInteger_uintuint256 (word : Z) :
  decodeInteger (lit "uintuint256") word
  = if isSafeInteger word then Returned (Num word) else Threw IntegerOutOfRange.
Proof. reflexivity. Qed.

Lemma decodeInteger_uint256 (word : Z) :
  decodeInteger (lit "uint256") word = Returned (BigInt word).
Proof. reflexivity. Qed.

Lemma readContract_record_run (abi : list AbiItem) (c : ContractRead)
    (outputs : list AbiParameter) (st : Store) :
  functionOutputs abi (functionName (read_call c)) = Returned outputs ->
  readContract_record w abi c st
  = (match readFault w c with
     | Some reason => Threw (TransportFailed reason)
     | None =>
         match contractRecord w c with
         | Some r => decodeMemory outputs r
         | None => Threw ContractReverted
         end
     end,
     {| trace := trace st ++ [LedgerRead c]; array := array st |}).
Proof.
  intros Habi. unfold readContract_record, requestRecord, bind, emit, lift, throw, ret.
  rewrite Habi. destruct (readFault w c); [reflexivity|].
  destruct (contractRecord w c) as [r|]; [|reflexivity].
  destruct (decodeMemory outputs r); reflexivity.
Qed.

Lemma readContract_record_refused (abi : list AbiItem) (c : ContractRead)
    (e : JSError) (st : Store) :
  functionOutputs abi (functionName (read_call c)) = Threw e ->
  readContract_record w abi c st
  = (Threw e, {| trace := trace st ++ [LedgerRead c]; array := array st |}).
Proof.
  intros Habi. unfold readContract_record, bind, emit, lift. now rewrite Habi.
Qed.

Lemma writeContract_run (abi : list AbiItem) (c : ContractWrite)
    (outputs : list AbiParameter) (st : Store) :
  functionOutputs abi (lit "storeMemoryFor") = Returned outputs ->
  writeContract w abi c st
  = (writeContract_result w c,
     {| trace := trace st ++ [LedgerWrite c]; array := array st |}).
Proof.
  intros Habi. unfold writeContract, bind, emit, lift. rewrite Habi. reflexivity.
Qed.

Lemma writeContract_refused (abi : list AbiItem) (c : ContractWrite)
    (e : JSError) (st : Store) :
  functionOutputs abi (lit "storeMemoryFor") = Threw e ->
  writeContract w abi c st
  = (Threw e, {| trace := trace st ++ [LedgerWrite c]; array := array st |}).
Proof.
  intros Habi. unfold writeContract, bind, emit, lift. now rewrite Habi.
Qed.

End ContractCalls.

Section FirstAgentRuns.

Variable config : AgentApp.Config.
Variable w : World.

(** The outputs the first agent decodes its read by, and how a record
    decodes by them. *)
Lemma latest_outputs :
  exists outputs : list AbiParameter,
    functionOutputs AgentApp.abi (lit "getLatestMemory") = Returned outputs
    /\ forall r : Ledger.MemoryRecord,
         decodeMemory outputs r
         = if isSafeInteger (Ledger.timestamp r)
           then Returned {| d_timestamp := Num (Ledger.timestamp r);
                            d_writer := Ledger.writer r;
                            d_content := Ledger.content r |}
           else Threw IntegerOutOfRange.
Proof.
  eexists. split; [reflexivity|]. intros r. unfold decodeMemory.
  match goal with
  | |- context [timestampType ?o] =>
      change (timestampType o) with (Some (lit "uintuint256"))
  end.
  cbv beta iota. rewrite decodeInteger_uintuint256.
  destruct (isSafeInteger (Ledger.timestamp r)); reflexivity.
Qed.

Lemma getLatestMemory_run (t : JSString) (st : Store) :
  AgentApp.getLatestMemory config w t st =
  (Returned (delivered config w t),
   {| trace := trace st ++ [LedgerRead (latestCall config t)];
      array := array st |}).
Proof.
  destruct latest_outputs as [outputs [Habi Hdecode]].
  unfold AgentApp.getLatestMemory, try_catch, bind.
  fold (latestCall config t).
  rewrite (readContract_record_run w AgentApp.abi (latestCall config t) outputs st Habi).
  unfold delivered, contractRecord, memorySet.
  cbn [read_call read_address latestCall].
  destruct (readFault w (latestCall config t)) as [reason|]; [reflexivity|].
  destruct (Ledger.getLatestMemory _) as [r|]; [|reflexivity].
  rewrite Hdecode.
  destruct (isSafeInteger (Ledger.timestamp r)) eqn:Hsafe; [|reflexivity].
  unfold ret, toMemory. cbn [d_content d_timestamp d_writer Number_of].
  now rewrite (safe_Number _ Hsafe).
Qed.

Lemma reading_run (ts : list JSString) :
  forall st,
    forOf ts (fun t =>
      m <- AgentApp.getLatestMemory config w t ;;
      console_log [PStr (lit "Memory:"); PMemory m] ;;
      match m with
      | Some x => push x
      | None => ret tt
      end) st =
    (Returned tt,
     {| trace := trace st ++ readingEvents config w ts;
        array := array st ++ retrieved config w ts |}).
Proof.
  induction ts as [|t ts IH]; intros st; cbn [forOf readingEvents retrieved flat_map].
  - unfold ret. rewrite !app_nil_r. now destruct st.
  - unfold bind at 1. unfold bind at 1. rewrite getLatestMemory_run.
    unfold console_log, emit, bind at 1. cbn [trace array].
    destruct (delivered config w t) as [m|]; unfold push, ret;
      rewrite IH; cbn [trace array]; rewrite <- !app_assoc; reflexivity.
Qed.

Lemma decideMemory_run (msg text : JSString) (memories : list Memory) (st : Store) :
  generateText_result w (AgentApp.decideRequest config msg memories) = Returned text ->
  AgentApp.decideMemory config w msg memories st =
  (Returned (decisionOf text),
   {| trace := (trace st ++ [ModelCall (AgentApp.decideRequest config msg memories)])
               ++ parseEvents text;
      array := array st |}).
Proof.
  intros Htext.
  unfold AgentApp.decideMemory, generateText, bind at 1, bind at 1, emit.
  rewrite Htext.
  unfold try_catch, bind, AgentApp.JSON_parse_or_throw, AgentApp.parse_or_throw,
    decisionOf, parseEvents, console_log, emit, ret, throw, parseErrorLog.
  destruct (JSON_parse text) as [v|]; cbn [trace array].
  - destruct (AgentApp.MemoryDecisionSchema (Value v)) as [d|]; cbn [trace array];
      rewrite ?app_nil_r; reflexivity.
  - reflexivity.
Qed.

Lemma writing_run (d : AgentApp.Decision) (st : Store) :
  (if AgentApp.should_store d
      && truthy_opt (AgentApp.decision_topic d)
      && truthy_opt (AgentApp.summary d)
   then
     console_log [PStr ([55357; 56524] ++ lit " Storing memory ("
                        ++ AgentApp.the (AgentApp.decision_topic d) ++ lit ")...")] ;;
     try_catch
       (tx <- AgentApp.storeMemory config w (AgentApp.the (AgentApp.decision_topic d))
                (AgentApp.the (AgentApp.summary d)) ;;
        console_log [PStr ([9989] ++ lit " Stored on-chain. Tx: " ++ tx ++ nl)])
       (fun err =>
          console_error [PStr ([10060] ++ lit " Failed to store memory:"); PError err])
   else
     console_log [PStr ([55357; 56541] ++ lit " No memory stored." ++ nl)]) st =
  (Returned tt,
   {| trace := trace st ++ writingEvents config w d; array := array st |}).
Proof.
  unfold writingEvents.
  destruct (AgentApp.should_store d && truthy_opt (AgentApp.decision_topic d)
            && truthy_opt (AgentApp.summary d)).
  - unfold bind at 1, console_log, emit, try_catch, AgentApp.storeMemory.
    fold (writeCall config d). unfold bind.
    erewrite writeContract_run by reflexivity.
    unfold console_error, emit, ret. cbn [trace array].
    destruct (writeContract_result w (writeCall config d)) as [tx|e];
      cbn [trace array]; rewrite <- !app_assoc; reflexivity.
  - reflexivity.
Qed.

(** A turn whose two completions return runs to its end. *)
Lemma turn_run (msg reply dtext : JSString) (st : Store) :
  let memories := retrieved config w AgentApp.topics in
  generateText_result w (AgentApp.answerRequest config msg memories) = Returned reply ->
  generateText_result w (AgentApp.decideRequest config msg memories) = Returned dtext ->
  AgentApp.turn config w msg st =
  (Returned tt,
   {| trace := trace st ++ readingEvents config w AgentApp.topics
               ++ replyingEvents config msg reply memories
               ++ parseEvents dtext
               ++ writingEvents config w (decisionOf dtext);
      array := memories |}).
Proof.
  intros memories Hreply Hdecide.
  unfold AgentApp.turn.
  unfold bind at 1, newArray. unfold bind at 1. rewrite reading_run.
  cbn [trace array app]. fold memories.
  unfold bind at 1, getArray. cbn [trace array].
  unfold bind at 1, console_log, emit. cbn [trace array].
  unfold bind at 1, AgentApp.answerUser, generateText, bind at 1, bind at 1, emit.
  cbn [trace array]. rewrite Hreply. unfold ret at 1.
  unfold bind at 1. cbn [trace array].
  unfold bind at 1. rewrite (decideMemory_run msg dtext memories _ Hdecide).
  rewrite writing_run. cbn [trace array].
  unfold replyingEvents, replyLog. rewrite <- !app_assoc. reflexivity.
Qed.

(** The events of a turn that come before the reply is asked for. *)
Lemma turn_reading (st : Store) (k : list Memory -> M unit) :
  (newArray ;;
   forOf AgentApp.topics (fun t =>
     m <- AgentApp.getLatestMemory config w t ;;
     console_log [PStr (lit "Memory:"); PMemory m] ;;
     match m with
     | Some x => push x
     | None => ret tt
     end) ;;
   memories <- getArray ;;
   console_log [PStr (lit "Memories:"); PMemories memories] ;;
   k memories) st
  = k (retrieved config w AgentApp.topics)
      {| trace := trace st ++ readingEvents config w AgentApp.topics
                  ++ [ConsoleLog [PStr (lit "Memories:");
                                  PMemories (retrieved config w AgentApp.topics)]];
         array := retrieved config w AgentApp.topics |}.
Proof.
  unfold bind at 1, newArray. unfold bind at 1. rewrite reading_run.
  cbn [trace array app].
  unfold bind at 1, getArray. cbn [trace array].
  unfold bind at 1, console_log, emit. cbn [trace array].
  rewrite <- app_assoc. reflexivity.
Qed.

Lemma turn_run_reply_threw (msg : JSString) (e : JSError) (st : Store) :
  generateText_result w
    (AgentApp.answerRequest config msg (retrieved config w AgentApp.topics)) = Threw e ->
  AgentApp.turn config w msg st =
  (Threw e,
   {| trace := trace st ++ readingEvents config w AgentApp.topics
               ++ [ConsoleLog [PStr (lit "Memories:");
                               PMemories (retrieved config w AgentApp.topics)];
                   ModelCall (AgentApp.answerRequest config msg
                                (retrieved config w AgentApp.topics))];
      array := retrieved config w AgentApp.topics |}).
Proof.
  intros Hreply. unfold AgentApp.turn. rewrite turn_reading. cbv beta.
  erewrite bind_threw; [reflexivity|].
  unfold AgentApp.answerUser. apply bind_threw.
  unfold generateText, bind, emit. cbn [trace array]. rewrite Hreply.
  rewrite <- !app_assoc. reflexivity.
Qed.

Lemma turn_run_decision_threw (msg reply : JSString) (e : JSError) (st : Store) :
  generateText_result w
    (AgentApp.answerRequest config msg (retrieved config w AgentApp.topics))
    = Returned reply ->
  generateText_result w
    (AgentApp.decideRequest config msg (retrieved config w AgentApp.topics)) = Threw e ->
  AgentApp.turn config w msg st =
  (Threw e,
   {| trace := trace st ++ readingEvents config w AgentApp.topics
               ++ replyingEvents config msg reply (retrieved config w AgentApp.topics);
      array := retrieved config w AgentApp.topics |}).
Proof.
  intros Hreply Hdecide. unfold AgentApp.turn. rewrite turn_reading. cbv beta.
  erewrite bind_run
    by (unfold AgentApp.answerUser, generateText, bind, emit, ret;
        cbn [trace array]; rewrite Hreply; reflexivity).
  erewrite bind_run by (unfold console_log, emit; reflexivity).
  cbn [trace array]. erewrite bind_threw; [reflexivity|].
  unfold AgentApp.decideMemory. apply bind_threw.
  unfold generateText, bind, emit. cbn [trace array]. rewrite Hdecide.
  unfold replyingEvents, replyLog. rewrite <- !app_assoc. reflexivity.
Qed.

(** Whatever comes of it, a turn starts with the reads of the candidate
    topics. *)
Lemma turn_begins (msg : JSString) (st : Store) :
  exists (o : Outcome unit) (st2 : Store) (more : list Event),
    AgentApp.turn config w msg st = (o, st2)
    /\ trace st2 = trace st ++ readingEvents config w AgentApp.topics ++ more.
Proof.
  destruct (generateText_result w
              (AgentApp.answerRequest config msg (retrieved config w AgentApp.topics)))
    as [reply|e] eqn:Hreply.
  - destruct (generateText_result w
                (AgentApp.decideRequest config msg (retrieved config w AgentApp.topics)))
      as [dtext|e] eqn:Hdecide.
    + eexists. eexists. eexists.
      split; [apply (turn_run msg reply dtext st Hreply Hdecide)|].
      cbn [trace]. rewrite <- ?app_assoc. reflexivity.
    + eexists. eexists. eexists.
      split; [apply (turn_run_decision_threw msg reply e st Hreply Hdecide)|].
      reflexivity.
  - eexists. eexists. eexists.
    split; [apply (turn_run_reply_threw msg e st Hreply)|]. reflexivity.
Qed.

End FirstAgentRuns.

Section FirstAgentProperties.

Variable config : AgentApp.Config.
Variable w : World.

Lemma countWrites_app (a b : list Event) :
  countWrites (a ++ b) = (countWrites a + countWrites b)%nat.
Proof. unfold countWrites. now rewrite filter_app, length_app. Qed.

Lemma countWrites_reading (ts : list JSString) :
  countWrites (readingEvents config w ts) = 0%nat.
Proof. induction ts as [|t ts IH]; [reflexivity | exact IH]. Qed.

Lemma countWrites_parse (text : JSString) : countWrites (parseEvents text) = 0%nat.
Proof.
  unfold parseEvents. destruct (JSON_parse text) as [v|]; [|reflexivity].
  destruct (AgentApp.MemoryDecisionSchema (Value v)); reflexivity.
Qed.

Lemma truthy_iff (s : JSString) : truthy s = true <-> s <> [].
Proof. destruct s; cbn; split; congruence. Qed.

(** The guard of the writing step says what the specification calls an
    actionable decision. *)
Lemma guard_iff_actionable (d : AgentApp.Decision) :
  AgentApp.should_store d && truthy_opt (AgentApp.decision_topic d)
    && truthy_opt (AgentApp.summary d) = true
  <-> Actionable d.
Proof.
  unfold Actionable. rewrite !andb_true_iff. split.
  - intros [[Hs Ht] Hm]. split; [exact Hs|]. split.
    + destruct (AgentApp.decision_topic d) as [t|]; [|discriminate Ht].
      exists t. split; [reflexivity | now apply truthy_iff].
    + destruct (AgentApp.summary d) as [m|]; [|discriminate Hm].
      exists m. split; [reflexivity | now apply truthy_iff].
  - intros [Hs [[t [Ht Hne]] [m [Hm Hme]]]]. rewrite Ht, Hm. cbn.
    repeat split; [exact Hs | now apply truthy_iff | now apply truthy_iff].
Qed.

Lemma countWrites_writing (d : AgentApp.Decision) :
  countWrites (writingEvents config w d) =
  if AgentApp.should_store d && truthy_opt (AgentApp.decision_topic d)
     && truthy_opt (AgentApp.summary d)
  then 1%nat else 0%nat.
Proof.
  unfold writingEvents.
  destruct (AgentApp.should_store d && _ && _); [|reflexivity].
  destruct (writeContract_result w (writeCall config d)); reflexivity.
Qed.

Lemma countWrites_turn (msg reply dtext : JSString) (pre : list Event) :
  countWrites (pre ++ readingEvents config w AgentApp.topics
               ++ replyingEvents config msg reply (retrieved config w AgentApp.topics)
               ++ parseEvents dtext
               ++ writingEvents config w (decisionOf dtext)) =
  (countWrites pre + countWrites (writingEvents config w (decisionOf dtext)))%nat.
Proof.
  rewrite !countWrites_app, countWrites_reading, countWrites_parse.
  reflexivity.
Qed.

Lemma retrieved_In (ts : list JSString) (m : Memory) :
  In m (retrieved config w ts) <->
  exists t, In t ts /\ delivered config w t = Some m.
Proof.
  unfold retrieved. rewrite in_flat_map. split.
  - intros [t [Ht Hm]]. exists t. split; [exact Ht|].
    destruct (delivered config w t) as [m'|]; [|contradiction].
    destruct Hm as [<-|[]]. reflexivity.
  - intros [t [Ht Hd]]. exists t. split; [exact Ht|]. rewrite Hd. now left.
Qed.

Lemma delivered_topic (t : JSString) (m : Memory) :
  delivered config w t = Some m -> topic m = t.
Proof.
  unfold delivered. destruct (readFault w _); [discriminate|].
  destruct (Ledger.getLatestMemory _) as [r|]; [|discriminate].
  destruct (isSafeInteger _); [|discriminate].
  intros [= <-]. reflexivity.
Qed.

Lemma below_2_53_safe (v : Z) : 0 <= v < 2 ^ 53 -> isSafeInteger v = true.
Proof.
  intros H. unfold isSafeInteger. apply andb_true_iff.
  split; apply Z.leb_le; lia.
Qed.

Lemma delivered_record (t : JSString) (r : Ledger.MemoryRecord) :
  readFault w (latestCall config t) = None ->
  Ledger.getLatestMemory (memorySet config w t) = Some r ->
  0 <= Ledger.timestamp r < 2 ^ 53 ->
  delivered config w t
  = Some {| topic := t;
            content := Ledger.content r;
            timestamp := Ledger.timestamp r;
            writer := Ledger.writer r |}.
Proof.
  intros Hfault Hlatest Hsafe. apply below_2_53_safe in Hsafe.
  unfold delivered. rewrite Hfault, Hlatest, Hsafe.
  unfold toMemory. now rewrite (safe_Number _ Hsafe).
Qed.

Lemma delivered_failed (t : JSString) :
  readFault w (latestCall config t) <> None \/ memorySet config w t = [] ->
  delivered config w t = None.
Proof.
  unfold delivered. intros [Hfault|Hempty].
  - destruct (readFault w (latestCall config t)); [reflexivity | now elim Hfault].
  - rewrite Hempty. destruct (readFault w (latestCall config t)); reflexivity.
Qed.

(** C2 (amended): [getLatestMemory] never raises.  It makes one ledger read
    and returns null when that read fails, be it because the transport fails
    the call or because the MemorySet is empty; a read that delivers a record
    whose timestamp is below 2^53 returns it under its topic, its fields as
    the ledger holds them; so where the latest record has such a timestamp,
    null is returned exactly when the read fails. *)
Theorem getLatestMemory_null_iff_read_fails (t : JSString) (st : Store) :
  exists m : option Memory,
    AgentApp.getLatestMemory config w t st =
      (Returned m,
       {| trace := trace st ++ [LedgerRead (latestCall config t)];
          array := array st |})
    /\ (readFault w (latestCall config t) <> None \/ memorySet config w t = [] ->
        m = None)
    /\ (forall r,
          readFault w (latestCall config t) = None ->
          Ledger.getLatestMemory (memorySet config w t) = Some r ->
          0 <= Ledger.timestamp r < 2 ^ 53 ->
          m = Some {| topic := t;
                      content := Ledger.content r;
                      timestamp := Ledger.timestamp r;
                      writer := Ledger.writer r |})
    /\ ((forall r, Ledger.getLatestMemory (memorySet config w t) = Some r ->
                   0 <= Ledger.timestamp r < 2 ^ 53) ->
        (m = None <->
         readFault w (latestCall config t) <> None \/ memorySet config w t = [])).
Proof.
  exists (delivered config w t). split; [apply getLatestMemory_run|].
  split; [apply delivered_failed|]. split; [apply delivered_record|].
  intros Hsafe. split; [|apply delivered_failed].
  intros Hnone.
  destruct (readFault w (latestCall config t)) as [reason|] eqn:Hfault;
    [left; discriminate|].
  destruct (Ledger.getLatestMemory (memorySet config w t)) as [r|] eqn:Hlatest.
  - rewrite (delivered_record t r Hfault Hlatest (Hsafe r eq_refl)) in Hnone.
    discriminate Hnone.
  - right. destruct (memorySet config w t); [reflexivity | discriminate Hlatest].
Qed.


(** C4: in a turn whose completions return, [storeMemory] issues exactly one
    ledger write, the one the decision names, when the decision has
    [should_store] true and both [topic] and [summary] present and not empty,
    and no write at all for every other decision. *)
Theorem store_once_iff_actionable (msg reply dtext : JSString) (st : Store) :
  generateText_result w
    (AgentApp.answerRequest config msg (retrieved config w AgentApp.topics))
    = Returned reply ->
  generateText_result w
    (AgentApp.decideRequest config msg (retrieved config w AgentApp.topics))
    = Returned dtext ->
  exists (d : AgentApp.Decision) (st' : Store),
    fst (AgentApp.decideMemory config w msg (retrieved config w AgentApp.topics) st)
      = Returned d
    /\ AgentApp.turn config w msg st = (Returned tt, st')
    /\ (Actionable d ->
        countWrites (trace st') = S (countWrites (trace st))
        /\ In (LedgerWrite (writeCall config d)) (trace st'))
    /\ (~ Actionable d -> countWrites (trace st') = countWrites (trace st)).
Proof.
  intros Hreply Hdecide.
  exists (decisionOf dtext). eexists.
  split; [now rewrite (decideMemory_run config w msg dtext _ st Hdecide)|].
  split; [apply (turn_run config w msg reply dtext st Hreply Hdecide)|].
  cbn [trace]. rewrite countWrites_turn, countWrites_writing.
  split.
  - intros Hact. pose proof (proj2 (guard_iff_actionable _) Hact) as Hg.
    rewrite Hg. split; [lia|].
    rewrite !in_app_iff. do 4 right.
    unfold writingEvents. rewrite Hg. right. now left.
  - intros Hnot.
    destruct (AgentApp.should_store (decisionOf dtext) && _ && _) eqn:Hg; [|lia].
    elim Hnot. now apply guard_iff_actionable.
Qed.

Lemma memoryLines_text (memories : list Memory) :
  AgentApp.memoryLines memories
  = join nl (map (fun m => lit "- [" ++ topic m ++ lit "] " ++ content m) memories).
Proof. reflexivity. Qed.

(** C5: whatever reads of the candidate topics fail, a turn whose
    completions return runs to its end: the memories passed on are those of
    the topics whose read delivered a record, a topic whose read failed
    contributes none, the reply and the decision are asked for with prompts
    that list exactly these memories, one line a memory, before the user's
    message, and the turn ends by writing or by skipping. *)
Theorem reading_failures_omit_topics (msg reply dtext : JSString) (st : Store) :
  generateText_result w
    (AgentApp.answerRequest config msg (retrieved config w AgentApp.topics))
    = Returned reply ->
  generateText_result w
    (AgentApp.decideRequest config msg (retrieved config w AgentApp.topics))
    = Returned dtext ->
  exists st' : Store,
    AgentApp.turn config w msg st = (Returned tt, st')
    /\ array st' = retrieved config w AgentApp.topics
    /\ (forall m, In m (array st') <->
                  exists t, In t AgentApp.topics /\ delivered config w t = Some m)
    /\ (forall t, readFault w (latestCall config t) <> None
                  \/ memorySet config w t = [] ->
                  forall m, In m (array st') -> topic m <> t)
    /\ (forall t r,
          In t [lit "identity_profile"; lit "preferences"; lit "risk_profile"] ->
          readFault w (latestCall config t) = None ->
          Ledger.getLatestMemory (memorySet config w t) = Some r ->
          0 <= Ledger.timestamp r < 2 ^ 53 ->
          In {| topic := t;
                content := Ledger.content r;
                timestamp := Ledger.timestamp r;
                writer := Ledger.writer r |} (array st'))
    /\ (let listed (none : JSString) :=
          match array st' with
          | [] => none
          | _ => join nl (map (fun m => lit "- [" ++ topic m ++ lit "] " ++ content m)
                              (array st'))
          end in
        In (ModelCall (AgentApp.answerRequest config msg (array st'))) (trace st')
        /\ prompt (AgentApp.answerRequest config msg (array st'))
           = nl ++ lit "Memories:" ++ nl ++ listed (lit "No memories stored.")
             ++ nl ++ nl ++ lit "User: " ++ dq ++ msg ++ dq ++ nl
        /\ In (replyLog reply) (trace st')
        /\ In (ModelCall (AgentApp.decideRequest config msg (array st'))) (trace st')
        /\ prompt (AgentApp.decideRequest config msg (array st'))
           = nl ++ lit "Memories:" ++ nl ++ listed (lit "No existing memories.")
             ++ nl ++ nl ++ lit "User: " ++ dq ++ msg ++ dq ++ nl)
    /\ (In (LedgerWrite (writeCall config (decisionOf dtext))) (trace st')
        \/ In skippedLog (trace st')).
Proof.
  intros Hreply Hdecide. eexists.
  split; [apply (turn_run config w msg reply dtext st Hreply Hdecide)|].
  cbn [trace array].
  split; [reflexivity|]. split; [apply retrieved_In|]. split; [|split; [|split]].
  - intros t Hfailed m Hm Ht.
    apply retrieved_In in Hm. destruct Hm as [t' [_ Hd]].
    pose proof (delivered_topic _ _ Hd) as Hmt.
    assert (t' = t) as -> by congruence.
    rewrite (delivered_failed t Hfailed) in Hd. discriminate Hd.
  - intros t r Ht Hfault Hlatest Hsafe. apply retrieved_In. exists t.
    split; [exact Ht | now apply delivered_record].
  - cbv zeta. rewrite !in_app_iff. unfold replyingEvents. cbn [In].
    split; [auto 8|]. split.
    { unfold AgentApp.answerRequest, AgentApp.turnPrompt. cbn [prompt].
      rewrite memoryLines_text. reflexivity. }
    split; [auto 8|]. split; [auto 8|].
    unfold AgentApp.decideRequest, AgentApp.turnPrompt. cbn [prompt].
    rewrite memoryLines_text. reflexivity.
  - rewrite !in_app_iff. unfold writingEvents.
    destruct (AgentApp.should_store (decisionOf dtext) && _ && _).
    + left. do 4 right. right. now left.
    + right. do 4 right. now left.
Qed.

(** The state after [rl.question] was asked. *)
Lemma loop_step (msg : JSString) (rest : list (JSString * World)) (st st' : Store) :
  AgentApp.turn config w msg
    {| trace := trace st ++ [questionEvent]; array := array st |} = (Returned tt, st') ->
  AgentApp.loop config ((msg, w) :: rest) st = AgentApp.loop config rest st'.
Proof.
  intros Hturn. cbn [AgentApp.loop].
  unfold bind at 1, emit. fold questionEvent.
  unfold bind at 1. rewrite Hturn. reflexivity.
Qed.

Lemma loop_next (msg : JSString) (w' : World) (rest : list (JSString * World))
    (st : Store) :
  AgentApp.loop config ((msg, w') :: rest) st
  = match AgentApp.turn config w' msg
            {| trace := trace st ++ [questionEvent]; array := array st |} with
    | (Returned _, st') => AgentApp.loop config rest st'
    | (Threw e, st') => (Threw e, st')
    end.
Proof.
  cbn [AgentApp.loop]. unfold bind at 1, emit. fold questionEvent.
  unfold bind at 1. destruct (AgentApp.turn config w' msg _) as [[[]|e] st']; reflexivity.
Qed.

(** C6: a write that fails is attempted once and reported on the error
    channel; the turn ends normally, and the loop goes on: it asks for the next
    utterance and runs its turn, which starts with the reads of the candidate
    topics, from the state the failed turn left. *)
Theorem write_failure_is_reported (msg reply dtext : JSString) (e : JSError)
    (next : JSString) (w2 : World) (rest : list (JSString * World)) (st : Store) :
  generateText_result w
    (AgentApp.answerRequest config msg (retrieved config w AgentApp.topics))
    = Returned reply ->
  generateText_result w
    (AgentApp.decideRequest config msg (retrieved config w AgentApp.topics))
    = Returned dtext ->
  Actionable (decisionOf dtext) ->
  writeContract_result w (writeCall config (decisionOf dtext)) = Threw e ->
  exists (st' : Store) (before : list Event),
    AgentApp.turn config w msg
      {| trace := trace st ++ [questionEvent]; array := array st |} = (Returned tt, st')
    /\ trace st' = before ++ [LedgerWrite (writeCall config (decisionOf dtext)); failedLog e]
    /\ countWrites (trace st') = S (countWrites (trace st))
    /\ AgentApp.loop config ((msg, w) :: rest) st = AgentApp.loop config rest st'
    /\ exists (o : Outcome unit) (st2 : Store) (more : list Event),
         AgentApp.turn config w2 next
           {| trace := trace st' ++ [questionEvent]; array := array st' |} = (o, st2)
         /\ trace st2
            = trace st' ++ [questionEvent]
              ++ map (fun t => LedgerRead (latestCall config t))
                     [lit "identity_profile"]
              ++ more
         /\ AgentApp.loop config ((msg, w) :: (next, w2) :: rest) st
            = match o with
              | Returned _ => AgentApp.loop config rest st2
              | Threw e2 => (Threw e2, st2)
              end.
Proof.
  intros Hreply Hdecide Hact Hwrite.
  pose proof (turn_run config w msg reply dtext
                {| trace := trace st ++ [questionEvent]; array := array st |}
                Hreply Hdecide) as Hturn.
  cbv zeta in Hturn. cbn [trace array] in Hturn.
  pose proof (proj2 (guard_iff_actionable _) Hact) as Hg.
  assert (Hw : writingEvents config w (decisionOf dtext) =
               [storingLog (decisionOf dtext)]
               ++ [LedgerWrite (writeCall config (decisionOf dtext)); failedLog e]).
  { unfold writingEvents. rewrite Hg, Hwrite. reflexivity. }
  eexists. eexists. split; [exact Hturn|]. cbn [trace].
  split; [|split; [|split]].
  - rewrite Hw, !app_assoc. reflexivity.
  - rewrite countWrites_turn, countWrites_writing, Hg, countWrites_app.
    cbn. lia.
  - apply loop_step. exact Hturn.
  - match goal with
    | |- context [AgentApp.turn config w2 next ?s] =>
        destruct (turn_begins config w2 next s) as [o [st2 [more [Hnext Htrace]]]]
    end.
    exists o, st2. eexists. split; [exact Hnext|]. split.
    + rewrite Htrace. cbn [trace readingEvents AgentApp.topics flat_map map app].
      rewrite <- !app_assoc. cbn [app]. reflexivity.
    + rewrite (loop_step msg _ _ _ Hturn), loop_next. cbn [trace].
      rewrite Hnext. destruct o as [[]|e2]; reflexivity.
Qed.

End FirstAgentProperties.

Section FirstAgentOnSamples.

(** C2, as stated, fails: with a record stored under the topic and the
    transport failing the read, [getLatestMemory] returns null, the answer it
    gives for a record that is absent. *)
Lemma transport_failure_reads_as_absent :
  memorySet Samples.config Samples.offline (lit "preferences")
    = [Samples.record "likes tea"]
  /\ readFault Samples.offline (latestCall Samples.config (lit "preferences"))
     = Some (lit "fetch failed")
  /\ fst (AgentApp.getLatestMemory Samples.config Samples.offline
            (lit "preferences") emptyStore) = Returned None.
Proof. repeat split; vm_compute; reflexivity. Qed.


(** C4 at work: a decision naming a topic and a summary leads to one
    write. *)
Lemma store_once_iff_actionable_witness :
  generateText_result Samples.oneReadFails
    (AgentApp.answerRequest Samples.config (lit "My name is Alex, remember that.")
       (retrieved Samples.config Samples.oneReadFails AgentApp.topics))
    = Returned (lit "Nice to meet you, Alex.")
  /\ countWrites
       (trace (snd (AgentApp.turn Samples.config Samples.oneReadFails
                      (lit "My name is Alex, remember that.") emptyStore))) = 1%nat.
Proof.
  split; [reflexivity|].
  destruct (store_once_iff_actionable Samples.config Samples.oneReadFails
              (lit "My name is Alex, remember that.")
              (lit "Nice to meet you, Alex.")
              (Samples.json "{'should_store': true, 'topic': 'identity_profile', 'summary': 'Name is Alex'}")
              emptyStore eq_refl eq_refl)
    as [d [st' [Hd [Hturn [Hyes _]]]]].
  rewrite Hturn. cbn [snd].
  vm_compute in Hd. injection Hd as <-.
  apply Hyes. unfold Actionable. cbn.
  repeat split; eexists; (split; [reflexivity | discriminate]).
Defined.

(** C5 at work: with the read of preferences failing, the turn goes on
    with the memories of the two other topics. *)
Lemma reading_failures_omit_topics_witness :
  generateText_result Samples.oneReadFails
    (AgentApp.answerRequest Samples.config (lit "My name is Alex, remember that.")
       (retrieved Samples.config Samples.oneReadFails AgentApp.topics))
    = Returned (lit "Nice to meet you, Alex.")
  /\ fst (AgentApp.turn Samples.config Samples.oneReadFails
            (lit "My name is Alex, remember that.") emptyStore) = Returned tt
  /\ map topic
       (array (snd (AgentApp.turn Samples.config Samples.oneReadFails
                      (lit "My name is Alex, remember that.") emptyStore)))
     = [lit "identity_profile"; lit "risk_profile"].
Proof.
  split; [reflexivity|].
  destruct (reading_failures_omit_topics Samples.config Samples.oneReadFails
              (lit "My name is Alex, remember that.")
              (lit "Nice to meet you, Alex.")
              (Samples.json "{'should_store': true, 'topic': 'identity_profile', 'summary': 'Name is Alex'}")
              emptyStore eq_refl eq_refl)
    as [st' [Hturn [Harr _]]].
  rewrite Hturn. cbn [fst snd]. split; [reflexivity|].
  rewrite Harr. vm_compute. reflexivity.
Defined.

(** C6 at work: the write is rejected, the turn ends and the loop takes the
    next utterance, whose turn starts with the read of the first topic. *)
Lemma write_failure_is_reported_witness :
  writeContract_result Samples.writesFail
    (writeCall Samples.config
       (decisionOf (Samples.json "{'should_store': true, 'topic': 'identity_profile', 'summary': 'Name is Alex'}")))
    = Threw (TransportFailed (lit "nonce too low"))
  /\ exists (st' st2 : Store) (o : Outcome unit) (more : list Event),
       AgentApp.turn Samples.config Samples.writesFail
         (lit "My name is Alex, remember that.")
         {| trace := [questionEvent]; array := [] |} = (Returned tt, st')
       /\ countWrites (trace st') = 1%nat
       /\ AgentApp.turn Samples.config Samples.online (lit "What is my name?")
            {| trace := trace st' ++ [questionEvent]; array := array st' |} = (o, st2)
       /\ trace st2
          = trace st' ++ [questionEvent]
            ++ [LedgerRead (latestCall Samples.config (lit "identity_profile"))]
            ++ more
       /\ AgentApp.loop Samples.config
            [(lit "My name is Alex, remember that.", Samples.writesFail);
             (lit "What is my name?", Samples.online)] emptyStore
          = match o with
            | Returned _ => AgentApp.loop Samples.config [] st2
            | Threw e2 => (Threw e2, st2)
            end.
Proof.
  split; [reflexivity|].
  destruct (write_failure_is_reported Samples.config Samples.writesFail
              (lit "My name is Alex, remember that.")
              (lit "Nice to meet you, Alex.")
              (Samples.json "{'should_store': true, 'topic': 'identity_profile', 'summary': 'Name is Alex'}")
              (TransportFailed (lit "nonce too low"))
              (lit "What is my name?") Samples.online []
              emptyStore eq_refl eq_refl)
    as [st' [before [Hturn [_ [Hcount [_ [o [st2 [more [Hnext [Htrace Hloop]]]]]]]]]]].
  - unfold Actionable. vm_compute.
    repeat split; eexists; (split; [reflexivity | discriminate]).
  - reflexivity.
  - exists st', st2, o, more.
    split; [exact Hturn|]. split; [exact Hcount|]. split; [exact Hnext|].
    split; [exact Htrace | exact Hloop].
Defined.

End FirstAgentOnSamples.

(* ================================================================== *)
(** * The second agent: the scan over the catalog *)
(* ================================================================== *)

Section SecondAgentProperties.

Variable config : Agent2.Config.
Variable w : World.

(** The outputs the second agent decodes its reads by: bigints
    throughout. *)
Lemma scan_outputs :
  exists counted recorded : list AbiParameter,
    functionOutputs Agent2.abi (lit "getMemoryCount") = Returned counted
    /\ functionOutputs Agent2.abi (lit "getMemory") = Returned recorded
    /\ (forall count : Z, decodeCount counted count = Returned (BigInt count))
    /\ (forall r : Ledger.MemoryRecord,
          decodeMemory recorded r
          = Returned {| d_timestamp := BigInt (Ledger.timestamp r);
                        d_writer := Ledger.writer r;
                        d_content := Ledger.content r |}).
Proof. eexists. eexists. repeat split; reflexivity. Qed.

Lemma records_run (t : JSString) (n : nat) :
  forall (i : Z) (st : Store),
  exists (o : Outcome unit) (st' : Store),
    forRange n i (fun i =>
      mem <- readContract_record w Agent2.abi
               {| read_address := Agent2.cfg_MEMORY_VAULT_ADDRESS config;
                  read_call := CallGetMemory (Agent2.cfg_USER_ADDRESS config)
                                             (Agent2.topicHash t) i |} ;;
      push {| topic := t;
              content := d_content mem;
              timestamp := Number_of (d_timestamp mem);
              writer := d_writer mem |}) st = (o, st')
    /\ array st' = array st ++ readableFrom config w t n i.
Proof.
  destruct scan_outputs as [counted [recorded [_ [Habi [_ Hdecode]]]]].
  induction n as [|n IH]; intros i st; cbn [forRange readableFrom].
  - exists (Returned tt), st. split; [reflexivity | now rewrite app_nil_r].
  - unfold bind at 1. unfold bind at 1. fold (recordCall config t i).
    rewrite (readContract_record_run w Agent2.abi (recordCall config t i)
               recorded st Habi).
    destruct (readFault w (recordCall config t i)) as [reason|].
    + eexists. eexists. split; [reflexivity|]. cbn. now rewrite app_nil_r.
    + unfold contractRecord. cbn [read_call recordCall read_address].
      fold (topicSet config w t).
      destruct (Ledger.getMemory (topicSet config w t) i) as [r|].
      * rewrite Hdecode. unfold push at 1.
        match goal with
        | |- context [forRange n (i + 1) ?body ?s] =>
            destruct (IH (i + 1) s) as [o [st' [Hrun Harr]]]
        end.
        exists o, st'. split; [exact Hrun|].
        rewrite Harr. cbn [array]. rewrite <- app_assoc. reflexivity.
      * eexists. eexists. split; [reflexivity|]. cbn. now rewrite app_nil_r.
Qed.

Lemma fetchTopic_run (t : JSString) (st : Store) :
  exists st' : Store,
    Agent2.fetchTopic config w t st = (Returned tt, st')
    /\ array st' = array st ++ readable config w t.
Proof.
  destruct scan_outputs as [counted [recorded [Habi [_ [Hdecode _]]]]].
  unfold Agent2.fetchTopic, try_catch, readable.
  unfold bind at 1, readContract_count, bind at 1, emit.
  fold (countCall config t). cbn [trace array].
  unfold bind at 1, lift at 1. cbn [read_call countCall functionName].
  rewrite Habi. unfold bind at 1.
  destruct (readFault w (countCall config t)) as [reason|].
  - eexists. split; [reflexivity|]. cbn. now rewrite app_nil_r.
  - unfold ret at 1, lift at 1. rewrite Hdecode. cbn [Number_of].
    fold (topicSet config w t).
    match goal with
    | |- context [forRange ?n 0 ?body ?s] =>
        destruct (records_run t n 0 s) as [o [st' [Hrun Harr]]]
    end.
    rewrite Hrun. cbn [array] in Harr.
    destruct o as [[]|e]; eexists; (split; [reflexivity | exact Harr]).
Qed.

Lemma catalog_run (catalog : list JSString) :
  forall st : Store,
  exists st' : Store,
    forOf catalog (Agent2.fetchTopic config w) st = (Returned tt, st')
    /\ array st' = array st ++ flat_map (readable config w) catalog.
Proof.
  induction catalog as [|t ts IH]; intros st; cbn [forOf flat_map].
  - exists st. split; [reflexivity | now rewrite app_nil_r].
  - destruct (fetchTopic_run t st) as [st1 [Hrun1 Harr1]].
    destruct (IH st1) as [st2 [Hrun2 Harr2]].
    exists st2. unfold bind. rewrite Hrun1, Hrun2.
    split; [reflexivity|]. rewrite Harr2, Harr1, app_assoc. reflexivity.
Qed.

Lemma scan_run (catalog : list JSString) (st : Store) :
  exists st' : Store,
    Agent2.scan config w catalog st =
    (Returned (flat_map (readable config w) catalog), st').
Proof.
  unfold Agent2.scan. unfold bind at 1, newArray.
  destruct (catalog_run catalog {| trace := trace st; array := [] |})
    as [st' [Hrun Harr]].
  unfold bind at 1. rewrite Hrun. unfold getArray.
  exists st'. cbn [array app] in Harr. now rewrite Harr.
Qed.

Lemma getMemory_nth (set : list Ledger.MemoryRecord) (i : nat) (r : Ledger.MemoryRecord) :
  nth_error set i = Some r -> Ledger.getMemory set (Z.of_nat i) = Some r.
Proof.
  intros Hnth. unfold Ledger.getMemory, Ledger.getMemoryCount.
  assert (i < length set)%nat by (apply nth_error_Some; congruence).
  destruct (Z.leb_spec 0 (Z.of_nat i)); [|lia].
  destruct (Z.ltb_spec (Z.of_nat i) (Z.of_nat (length set))); [|lia].
  cbn. now rewrite Nat2Z.id.
Qed.

Lemma readableFrom_clean (t : JSString) :
  (forall i, 0 <= i < Ledger.getMemoryCount (topicSet config w t) ->
             readFault w (recordCall config t i) = None) ->
  forall (n i : nat),
    (i + n = length (topicSet config w t))%nat ->
    readableFrom config w t n (Z.of_nat i)
    = map (toMemory t) (skipn i (topicSet config w t)).
Proof.
  intros Hok n. induction n as [|n IH]; intros i Hlen; cbn [readableFrom].
  - rewrite skipn_all2 by lia. reflexivity.
  - rewrite Hok by (unfold Ledger.getMemoryCount; lia).
    destruct (nth_error (topicSet config w t) i) as [r|] eqn:Hnth.
    + rewrite (getMemory_nth _ _ _ Hnth).
      replace (Z.of_nat i + 1) with (Z.of_nat (S i)) by lia.
      rewrite IH by lia.
      clear - Hnth. revert i Hnth.
      induction (topicSet config w t) as [|x xs IHx]; intros [|i] Hnth;
        try discriminate Hnth.
      * injection Hnth as ->. reflexivity.
      * cbn [skipn]. now apply IHx.
    + apply nth_error_None in Hnth. lia.
Qed.

Lemma readable_clean (t : JSString) :
  Clean config w t ->
  Ledger.getMemoryCount (topicSet config w t) < 2 ^ 53 ->
  readable config w t = allRecords config w t.
Proof.
  intros [Hcount Hrecords] Hsmall. unfold readable, allRecords.
  rewrite Hcount.
  unfold Number_of_bigint.
  destruct (Z.ltb_spec (Ledger.getMemoryCount (topicSet config w t)) (2 ^ 53)); [|lia].
  unfold Ledger.getMemoryCount. rewrite Nat2Z.id.
  apply (readableFrom_clean t Hrecords _ 0%nat). reflexivity.
Qed.

Lemma readable_skipped (t : JSString) :
  readFault w (countCall config t) <> None \/ topicSet config w t = [] ->
  readable config w t = [].
Proof.
  unfold readable. intros [Hfault|Hempty].
  - destruct (readFault w (countCall config t)); [reflexivity | now elim Hfault].
  - rewrite Hempty. destruct (readFault w (countCall config t)); reflexivity.
Qed.

Lemma firstn_skipn_cons (set : list Ledger.MemoryRecord) (i k : nat)
    (r : Ledger.MemoryRecord) :
  nth_error set i = Some r ->
  firstn (S k) (skipn i set) = r :: firstn k (skipn (S i) set).
Proof.
  revert i. induction set as [|x xs IH]; intros [|i] Hnth; try discriminate Hnth.
  - injection Hnth as ->. reflexivity.
  - cbn [skipn]. now apply IH.
Qed.

Lemma readableFrom_prefix (t : JSString) (k : nat) :
  forall (n i : nat),
    (forall j, (i <= j < i + k)%nat -> readFault w (recordCall config t (Z.of_nat j)) = None) ->
    readFault w (recordCall config t (Z.of_nat (i + k))) <> None ->
    (i + k < length (topicSet config w t))%nat ->
    (k < n)%nat ->
    readableFrom config w t n (Z.of_nat i)
    = map (toMemory t) (firstn k (skipn i (topicSet config w t))).
Proof.
  induction k as [|k IH]; intros n i Hok Hfault Hlen Hn;
    (destruct n as [|n]; [lia|]); cbn [readableFrom].
  - rewrite Nat.add_0_r in Hfault.
    destruct (readFault w (recordCall config t (Z.of_nat i))); [reflexivity | now elim Hfault].
  - rewrite Hok by lia.
    destruct (nth_error (topicSet config w t) i) as [r|] eqn:Hnth.
    + rewrite (getMemory_nth _ _ _ Hnth), (firstn_skipn_cons _ _ _ _ Hnth).
      replace (Z.of_nat i + 1) with (Z.of_nat (S i)) by lia.
      rewrite IH; [reflexivity | | | lia | lia].
      * intros j Hj. apply Hok. lia.
      * replace (S i + k)%nat with (i + S k)%nat by lia. exact Hfault.
    + apply nth_error_None in Hnth. lia.
Qed.

Lemma readable_prefix (t : JSString) (i : nat) :
  readFault w (countCall config t) = None ->
  Ledger.getMemoryCount (topicSet config w t) < 2 ^ 53 ->
  (i < length (topicSet config w t))%nat ->
  (forall j, (j < i)%nat -> readFault w (recordCall config t (Z.of_nat j)) = None) ->
  readFault w (recordCall config t (Z.of_nat i)) <> None ->
  readable config w t = firstn i (allRecords config w t).
Proof.
  intros Hcount Hsmall Hlen Hok Hfault. unfold readable, allRecords.
  rewrite Hcount. unfold Number_of_bigint.
  destruct (Z.ltb_spec (Ledger.getMemoryCount (topicSet config w t)) (2 ^ 53)); [|lia].
  unfold Ledger.getMemoryCount. rewrite Nat2Z.id.
  rewrite (readableFrom_prefix t i _ 0%nat); cbn [Nat.add skipn]; auto.
  - symmetry. apply firstn_map.
  - intros j Hj. apply Hok. lia.
Qed.

(** C7 (amended): the scan always completes with a result and never
    raises.  The result holds, in catalog order, for every topic the records
    read before the first read of that topic that failed, in write order: for
    a topic of fewer than 2^53 records, all of its records when none of the
    reads the scan makes of it fails, and the records before index [i] when
    the read of index [i] is the first to fail; none when the count cannot be
    read or is zero.  [fetchUserMemories] is this scan over [knownTopics]. *)
Theorem scan_reads_until_failure (catalog : list JSString) (st : Store) :
  exists st' : Store,
    Agent2.scan config w catalog st =
      (Returned (flat_map (readable config w) catalog), st')
    /\ (forall t, Clean config w t ->
                  Ledger.getMemoryCount (topicSet config w t) < 2 ^ 53 ->
                  readable config w t = allRecords config w t)
    /\ (forall t, readFault w (countCall config t) <> None
                  \/ topicSet config w t = [] ->
                  readable config w t = [])
    /\ (forall t (i : nat),
          readFault w (countCall config t) = None ->
          Ledger.getMemoryCount (topicSet config w t) < 2 ^ 53 ->
          (i < length (topicSet config w t))%nat ->
          (forall j, (j < i)%nat ->
                     readFault w (recordCall config t (Z.of_nat j)) = None) ->
          readFault w (recordCall config t (Z.of_nat i)) <> None ->
          readable config w t = firstn i (allRecords config w t))
    /\ Agent2.fetchUserMemories config w st
       = Agent2.scan config w Agent2.knownTopics st.
Proof.
  destruct (scan_run catalog st) as [st' Hrun].
  exists st'. split; [exact Hrun|].
  split; [apply readable_clean|].
  split; [apply readable_skipped|].
  split; [apply readable_prefix | reflexivity].
Qed.

End SecondAgentProperties.

Section SecondAgentOnSamples.

(** C7, as stated, fails: the only topic with records is one whose second
    read fails, every other topic of the catalog is empty, and the result
    still holds the first record of the failing topic. *)
Lemma scan_keeps_records_of_failing_topic :
  Failing Samples.config2 Samples.secondReadFails (lit "goals")
  /\ Forall (fun t => t = lit "goals"
                      \/ topicSet Samples.config2 Samples.secondReadFails t = [])
            Agent2.knownTopics
  /\ fst (Agent2.fetchUserMemories Samples.config2 Samples.secondReadFails emptyStore)
     = Returned [toMemory (lit "goals") (Samples.record "run a marathon")].
Proof.
  split; [|split].
  - right. exists 1. split; [vm_compute; split; [discriminate | reflexivity]|].
    cbn. discriminate.
  - unfold Agent2.knownTopics.
    repeat (constructor; [first [left; reflexivity | right; vm_compute; reflexivity]|]).
    constructor.
  - vm_compute. reflexivity.
Qed.

End SecondAgentOnSamples.

(* ================================================================== *)
(** * The HTTP worker *)
(* ================================================================== *)

Section WorkerProperties.

Variable w : World.
Variable env : McpServer.Env.

Lemma str_eqb_eq (a b : JSString) : str_eqb a b = true <-> a = b.
Proof. unfold str_eqb. destruct (list_eq_dec Z.eq_dec a b); split; congruence. Qed.


(** Runs the handler up to the test of the three fields of a POST to
    /store-memory. *)
Ltac enter_store_route Hkey Hmethod Hpath Hjson Hfields :=
  unfold McpServer.fetch; apply try_catch_returned;
  erewrite bind_run by (unfold privateKeyToAccount; rewrite Hkey; reflexivity);
  rewrite Hmethod, Hpath;
  replace (str_eqb (lit "POST") (lit "GET")) with false by reflexivity;
  replace (str_eqb (lit "POST") (lit "POST")) with true by reflexivity;
  replace (str_eqb (lit "/store-memory") (lit "/store-memory")) with true
    by reflexivity;
  cbn [andb];
  erewrite bind_run by exact Hjson;
  erewrite bind_run by exact Hfields;
  cbn [map nth].

Lemma worker_abi_refuses (name : JSString) :
  functionOutputs McpServer.abi name = Threw TypeError.
Proof. reflexivity. Qed.

(** C8 (amended): with the worker's key accepted, a POST to /store-memory
    whose body is a JSON value other than null in which user_address, topic or
    content is missing (or otherwise falsy) is answered 400 with
    [{ success: false, error }], the error naming the three fields, and
    touches neither the ledger nor the log; when the three are non-empty
    strings, [writeContract] is called once, for the user, the key of the
    topic and the content, and a response is returned.  A body that is not
    JSON, or is null, is answered 500. *)
Theorem store_memory_validates (request : McpServer.Request) (account : JSString)
    (st : Store) :
  privateKeyToAccount_result w (McpServer.keyLiteral env) = Returned account ->
  McpServer.method request = lit "POST" ->
  McpServer.pathname request = lit "/store-memory" ->
  (forall parsed,
     JSON_parse (McpServer.body request) = Some parsed ->
     parsed <> JNull ->
     ((exists key, In key [lit "user_address"; lit "topic"; lit "content"]
                   /\ truthyValue (property parsed key) = false) ->
      exists response : McpServer.Response,
        McpServer.fetch w request env st = (Returned (Some response), st)
        /\ McpServer.status response = 400
        /\ McpServer.responseBody response
           = McpServer.JsonBody
               (JObject
                  [(lit "success", JBool false);
                   (lit "error",
                    JString (lit "Missing required fields: user_address, topic, content"))]))
     /\ (forall user t c,
           property parsed (lit "user_address") = Value (JString user) -> user <> [] ->
           property parsed (lit "topic") = Value (JString t) -> t <> [] ->
           property parsed (lit "content") = Value (JString c) -> c <> [] ->
           exists (response : McpServer.Response) (st' : Store),
             McpServer.fetch w request env st = (Returned (Some response), st')
             /\ filter isWrite (trace st')
                = filter isWrite (trace st)
                  ++ [LedgerWrite
                        {| write_address := McpServer.MEMORY_VAULT_ADDRESS env;
                           write_user := Some user;
                           write_topic := keccak256 (stringToBytes t);
                           write_content := c |}]))
  /\ (JSON_parse (McpServer.body request) = None
      \/ JSON_parse (McpServer.body request) = Some JNull ->
      exists (response : McpServer.Response) (st' : Store),
        McpServer.fetch w request env st = (Returned (Some response), st')
        /\ McpServer.status response = 500
        /\ filter isWrite (trace st') = filter isWrite (trace st)).
Proof.
  intros Hkey Hmethod Hpath. split.
  - intros parsed Hbody Hnonnull.
    assert (Hfields :
      McpServer.destructure parsed [lit "user_address"; lit "topic"; lit "content"] st =
      (Returned (map (property parsed) [lit "user_address"; lit "topic"; lit "content"]),
       st)).
    { unfold McpServer.destructure. destruct parsed; try reflexivity. now elim Hnonnull. }
    assert (Hjson : McpServer.request_json request st = (Returned parsed, st)).
    { unfold McpServer.request_json. now rewrite Hbody. }
    split.
    + intros [key [Hin Hfalsy]].
      assert (Hguard :
        negb (truthyValue (property parsed (lit "user_address")))
        || negb (truthyValue (property parsed (lit "topic")))
        || negb (truthyValue (property parsed (lit "content"))) = true).
      { rewrite !orb_true_iff, !negb_true_iff.
        destruct Hin as [<-|[<-|[<-|[]]]]; auto. }
      eexists. split.
      { enter_store_route Hkey Hmethod Hpath Hjson Hfields.
        rewrite Hguard. reflexivity. }
      split; reflexivity.
    + intros user t c Hu Hune Ht Htne Hc Hcne.
      apply truthy_iff in Hune, Htne, Hcne.
      eexists. eexists. split.
      * unfold McpServer.fetch, try_catch.
        erewrite bind_run by (unfold privateKeyToAccount; rewrite Hkey; reflexivity).
        idtac.
        rewrite Hmethod, Hpath.
        replace (str_eqb (lit "POST") (lit "GET")) with false by reflexivity.
        replace (str_eqb (lit "POST") (lit "POST")) with true by reflexivity.
        replace (str_eqb (lit "/store-memory") (lit "/store-memory")) with true
          by reflexivity.
        cbn [andb].
        erewrite bind_run by exact Hjson. erewrite bind_run by exact Hfields.
        cbn [map nth]. rewrite Hu, Ht, Hc. cbn [truthyValue McpServer.asString].
        rewrite Hune, Htne, Hcne. cbn [negb orb].
        erewrite bind_threw
          by (apply writeContract_refused; apply worker_abi_refuses).
        unfold bind, console_error, emit, ret. cbn [trace array]. reflexivity.
      * cbn [trace]. rewrite !filter_app. cbn [filter isWrite].
        now rewrite app_nil_r.
  - intros [Hb|Hb]; eexists; eexists; (split; [|split]);
      [ unfold McpServer.fetch, try_catch;
        erewrite bind_run by (unfold privateKeyToAccount; rewrite Hkey; reflexivity);
        rewrite Hmethod, Hpath;
        replace (str_eqb (lit "POST") (lit "GET")) with false by reflexivity;
        replace (str_eqb (lit "POST") (lit "POST")) with true by reflexivity;
        replace (str_eqb (lit "/store-memory") (lit "/store-memory")) with true
          by reflexivity;
        cbn [andb]; unfold bind at 1, McpServer.request_json; rewrite Hb;
        reflexivity
      | reflexivity
      | cbn [trace]; rewrite filter_app; cbn [filter isWrite];
        now rewrite app_nil_r
      | unfold McpServer.fetch, try_catch;
        erewrite bind_run by (unfold privateKeyToAccount; rewrite Hkey; reflexivity);
        rewrite Hmethod, Hpath;
        replace (str_eqb (lit "POST") (lit "GET")) with false by reflexivity;
        replace (str_eqb (lit "POST") (lit "POST")) with true by reflexivity;
        replace (str_eqb (lit "/store-memory") (lit "/store-memory")) with true
          by reflexivity;
        cbn [andb]; unfold bind at 1, McpServer.request_json; rewrite Hb;
        reflexivity
      | reflexivity
      | cbn [trace]; rewrite filter_app; cbn [filter isWrite];
        now rewrite app_nil_r ].
Qed.


End WorkerProperties.

Section WorkerOnSamples.

(** C8, as stated, fails: a POST to /store-memory without a body, which
    has none of the three fields, is answered 500 and not 400, and so is the
    body null. *)
Lemma body_without_fields_is_answered_500 :
  fst (McpServer.fetch Samples.online (Samples.post "/store-memory" [])
         Samples.serverEnv emptyStore)
    = Returned (Some (McpServer.failureResponse SyntaxError))
  /\ fst (McpServer.fetch Samples.online (Samples.post "/store-memory" (lit "null"))
            Samples.serverEnv emptyStore)
     = Returned (Some (McpServer.failureResponse TypeError))
  /\ (forall e, McpServer.status (McpServer.failureResponse e) = 500)
  /\ 500 <> 400.
Proof.
  split; [vm_compute; reflexivity|]. split; [vm_compute; reflexivity|].
  split; [reflexivity | discriminate].
Qed.

(** C8 (amended) at work: a body without content is answered 400 and
    nothing is written. *)
Lemma store_memory_validates_witness :
  JSON_parse (Samples.json "{'user_address': '0xabc', 'topic': 'goals'}")
    = Some (JObject [(lit "user_address", JString (lit "0xabc"));
                     (lit "topic", JString (lit "goals"))])
  /\ exists response : McpServer.Response,
       McpServer.fetch Samples.online
         (Samples.post "/store-memory"
            (Samples.json "{'user_address': '0xabc', 'topic': 'goals'}"))
         Samples.serverEnv emptyStore
       = (Returned (Some response), emptyStore)
       /\ McpServer.status response = 400.
Proof.
  assert (Hparse :
    JSON_parse (Samples.json "{'user_address': '0xabc', 'topic': 'goals'}")
    = Some (JObject [(lit "user_address", JString (lit "0xabc"));
                     (lit "topic", JString (lit "goals"))]))
    by (vm_compute; reflexivity).
  split; [exact Hparse|].
  destruct (store_memory_validates Samples.online Samples.serverEnv
              (Samples.post "/store-memory"
                 (Samples.json "{'user_address': '0xabc', 'topic': 'goals'}"))
              (lit "0xagent") emptyStore eq_refl eq_refl eq_refl)
    as [Hjson _].
  destruct (Hjson _ Hparse ltac:(discriminate)) as [Hmissing _].
  destruct Hmissing as [response [Hrun [Hstatus _]]].
  - exists (lit "content"). split; [cbn; auto | vm_compute; reflexivity].
  - exists response. split; [exact Hrun | exact Hstatus].
Defined.



End WorkerOnSamples.

(* ================================================================== *)
(** * Configuration *)
(* ================================================================== *)

Section ConfigurationProperties.

Lemma trimStart_nil (s : JSString) :
  trimStart s = [] <-> forallb isWhiteSpace s = true.
Proof.
  induction s as [|c s IH]; cbn [trimStart forallb].
  - tauto.
  - destruct (isWhiteSpace c); cbn [andb]; [exact IH | split; discriminate].
Qed.

Lemma trimStart_head (s : JSString) (c : Z) (rest : JSString) :
  trimStart s = c :: rest -> isWhiteSpace c = false.
Proof.
  induction s as [|d s IH]; cbn [trimStart]; [discriminate|].
  destruct (isWhiteSpace d) eqn:Hd; [exact IH|].
  intros [= <- _]. exact Hd.
Qed.

Lemma forallb_rev (f : Z -> bool) (s : list Z) :
  forallb f (rev s) = true <-> forallb f s = true.
Proof.
  rewrite !forallb_forall. split; intros H x Hx; apply H;
    [apply in_rev in Hx | apply in_rev]; assumption.
Qed.

Lemma trim_nil (s : JSString) :
  trim s = [] <-> forallb isWhiteSpace s = true.
Proof.
  unfold trim, trimEnd. split.
  - intros H.
    assert (H1 : trimStart (rev (trimStart s)) = []).
    { destruct (trimStart (rev (trimStart s))) as [|c0 l0]; [reflexivity|].
      exfalso. cbn [rev] in H. destruct (rev l0); discriminate H. }
    apply trimStart_nil in H1. rewrite forallb_rev in H1.
    apply trimStart_nil.
    destruct (trimStart s) as [|c rest] eqn:Hs; [reflexivity|].
    apply trimStart_head in Hs. cbn [forallb] in H1.
    apply andb_true_iff in H1. destruct H1 as [H1 _]. congruence.
  - intros H. apply trimStart_nil in H. rewrite H. reflexivity.
Qed.

Lemma truthy_trim (s : JSString) :
  truthy (trim s) = negb (forallb isWhiteSpace s).
Proof.
  destruct (forallb isWhiteSpace s) eqn:Hws.
  - apply trim_nil in Hws. now rewrite Hws.
  - destruct (trim s) eqn:Ht; [|reflexivity].
    apply trim_nil in Ht. congruence.
Qed.

Lemma safe_candidate (v : option JSString) : AgentApp.safe v = candidate v.
Proof.
  destruct v as [s|]; [|reflexivity]. cbn.
  rewrite truthy_trim. now destruct (forallb isWhiteSpace s).
Qed.

Lemma safe2_candidate (v : option JSString) : Agent2.safe v = candidate v.
Proof.
  destruct v as [s|]; [|reflexivity]. cbn.
  rewrite truthy_trim. now destruct (forallb isWhiteSpace s).
Qed.

Lemma candidate_truthy (v : option JSString) (s : JSString) :
  candidate v = Some s -> truthy s = true.
Proof.
  destruct v as [raw|]; [|discriminate]. cbn.
  destruct (forallb isWhiteSpace raw) eqn:Hws; [discriminate|].
  intros [= <-]. rewrite truthy_trim, Hws. reflexivity.
Qed.

Lemma candidate_none (v : option JSString) : candidate v = None <-> Blank v.
Proof.
  destruct v as [s|]; cbn; [|tauto].
  destruct (forallb isWhiteSpace s); split; congruence.
Qed.

Lemma chain_resolve (a b c : option JSString) :
  or_else (or_else (candidate a) (candidate b)) (candidate c) = resolve a b c.
Proof.
  unfold resolve, or_else.
  destruct (candidate a) as [x|] eqn:Ha.
  - cbn. rewrite (candidate_truthy _ _ Ha). cbn. now rewrite (candidate_truthy _ _ Ha).
  - cbn. destruct (candidate b) as [y|] eqn:Hb; [|reflexivity].
    cbn. now rewrite (candidate_truthy _ _ Hb).
Qed.

Lemma resolve_truthy (a b c : option JSString) (s : JSString) :
  resolve a b c = Some s -> truthy s = true.
Proof.
  unfold resolve.
  destruct (candidate a) as [x|] eqn:Ha.
  - intros [= <-]. exact (candidate_truthy _ _ Ha).
  - destruct (candidate b) as [y|] eqn:Hb.
    + intros [= <-]. exact (candidate_truthy _ _ Hb).
    + apply candidate_truthy.
Qed.

Lemma or_string_resolve (a b c : option JSString) (default : JSString) :
  AgentApp.or_string (resolve a b c) default = orDefault (resolve a b c) default.
Proof.
  unfold AgentApp.or_string, orDefault.
  destruct (resolve a b c) as [s|] eqn:Hr; [|reflexivity].
  now rewrite (resolve_truthy _ _ _ _ Hr).
Qed.

Lemma getEnv_resolved (vars processEnv : AgentApp.Env) (env : option AgentApp.Env) :
  AgentApp.getEnv vars processEnv env =
  let r X := resolve (AgentApp.opt env X) (X vars) (X processEnv) in
  {| AgentApp.cfg_ANTHROPIC_API_KEY := orDefault (r AgentApp.ANTHROPIC_API_KEY) [];
     AgentApp.cfg_RPC_URL := orDefault (r AgentApp.RPC_URL) [];
     AgentApp.cfg_MEMORY_VAULT_ADDRESS := r AgentApp.MEMORY_VAULT_ADDRESS;
     AgentApp.cfg_USER_ADDRESS := r AgentApp.USER_ADDRESS;
     AgentApp.cfg_AGENT_PRIVATE_KEY := orDefault (r AgentApp.AGENT_PRIVATE_KEY) [];
     AgentApp.cfg_MODEL_ID := orDefault (r AgentApp.MODEL_ID) AgentApp.defaultModel |}.
Proof.
  unfold AgentApp.getEnv. rewrite !safe_candidate, !chain_resolve, !or_string_resolve.
  reflexivity.
Qed.

Lemma getEnv2_resolved (vars processEnv : Agent2.Env) (env : option Agent2.Env) :
  Agent2.getEnv vars processEnv env =
  let r X := resolve (Agent2.opt env X) (X vars) (X processEnv) in
  {| Agent2.cfg_ANTHROPIC_API_KEY := orDefault (r Agent2.ANTHROPIC_API_KEY) [];
     Agent2.cfg_RPC_URL := orDefault (r Agent2.RPC_URL) [];
     Agent2.cfg_MEMORY_VAULT_ADDRESS := r Agent2.MEMORY_VAULT_ADDRESS;
     Agent2.cfg_USER_ADDRESS := r Agent2.USER_ADDRESS;
     Agent2.cfg_MODEL_ID := orDefault (r Agent2.MODEL_ID) Agent2.defaultModel |}.
Proof.
  unfold Agent2.getEnv. rewrite !safe2_candidate, !chain_resolve.
  change Agent2.or_string with AgentApp.or_string.
  rewrite !or_string_resolve. reflexivity.
Qed.

Lemma resolve_blank (a b c : option JSString) :
  resolve a b c = None <-> Blank a /\ Blank b /\ Blank c.
Proof.
  rewrite <- !candidate_none. unfold resolve.
  destruct (candidate a), (candidate b), (candidate c); intuition congruence.
Qed.

(** C10: [safe] trims a value and gives undefined for a missing or
    white-space-only one; every variable of [getEnv], in both agents, is the
    first such value among the explicit argument, the wrangler vars and the
    process environment, [MODEL_ID] falling back to the agent's default
    model; and start-up exits with status 1 as soon as a required variable is
    blank (missing or white space only) in all three sources. *)
Theorem getEnv_resolution (w : World) (st : Store)
    (vars processEnv : AgentApp.Env) (env : option AgentApp.Env)
    (vars2 processEnv2 : Agent2.Env) (env2 : option Agent2.Env) :
  (forall v, AgentApp.safe v = None <-> Blank v)
  /\ (forall v s, AgentApp.safe v = Some s ->
                  s <> [] /\ exists raw, v = Some raw /\ s = trim raw)
  /\ (forall v, Agent2.safe v = AgentApp.safe v)
  /\ (forall a b c,
        (forall x, candidate a = Some x -> resolve a b c = Some x)
        /\ (forall y, Blank a -> candidate b = Some y -> resolve a b c = Some y)
        /\ (Blank a -> Blank b -> resolve a b c = candidate c))
  /\ (let explicit X := match env with Some e => X e | None => None end in
      let r X := resolve (explicit X) (X vars) (X processEnv) in
      AgentApp.getEnv vars processEnv env =
      {| AgentApp.cfg_ANTHROPIC_API_KEY := orDefault (r AgentApp.ANTHROPIC_API_KEY) [];
         AgentApp.cfg_RPC_URL := orDefault (r AgentApp.RPC_URL) [];
         AgentApp.cfg_MEMORY_VAULT_ADDRESS := r AgentApp.MEMORY_VAULT_ADDRESS;
         AgentApp.cfg_USER_ADDRESS := r AgentApp.USER_ADDRESS;
         AgentApp.cfg_AGENT_PRIVATE_KEY := orDefault (r AgentApp.AGENT_PRIVATE_KEY) [];
         AgentApp.cfg_MODEL_ID := orDefault (r AgentApp.MODEL_ID) AgentApp.defaultModel |})
  /\ (let explicit X := match env2 with Some e => X e | None => None end in
      let r X := resolve (explicit X) (X vars2) (X processEnv2) in
      Agent2.getEnv vars2 processEnv2 env2 =
      {| Agent2.cfg_ANTHROPIC_API_KEY := orDefault (r Agent2.ANTHROPIC_API_KEY) [];
         Agent2.cfg_RPC_URL := orDefault (r Agent2.RPC_URL) [];
         Agent2.cfg_MEMORY_VAULT_ADDRESS := r Agent2.MEMORY_VAULT_ADDRESS;
         Agent2.cfg_USER_ADDRESS := r Agent2.USER_ADDRESS;
         Agent2.cfg_MODEL_ID := orDefault (r Agent2.MODEL_ID) Agent2.defaultModel |})
  /\ (forall X,
        In X [AgentApp.ANTHROPIC_API_KEY; AgentApp.RPC_URL;
              AgentApp.MEMORY_VAULT_ADDRESS; AgentApp.USER_ADDRESS;
              AgentApp.AGENT_PRIVATE_KEY] ->
        Blank (match env with Some e => X e | None => None end) ->
        Blank (X vars) -> Blank (X processEnv) ->
        fst (AgentApp.initialize w vars processEnv env st) = Returned (AgentApp.Exited 1))
  /\ (forall X,
        In X [Agent2.ANTHROPIC_API_KEY; Agent2.RPC_URL;
              Agent2.MEMORY_VAULT_ADDRESS; Agent2.USER_ADDRESS] ->
        Blank (X vars2) -> Blank (X processEnv2) ->
        fst (Agent2.startup vars2 processEnv2 st) = Returned (Agent2.Exited 1)).
Proof.
  split; [|split; [|split; [|split; [|split; [|split; [|split]]]]]].
  - intros v. rewrite safe_candidate. apply candidate_none.
  - intros v s Hs. rewrite safe_candidate in Hs.
    pose proof (candidate_truthy _ _ Hs) as Ht. apply truthy_iff in Ht.
    split; [exact Ht|].
    destruct v as [raw|]; [|discriminate Hs]. exists raw. split; [reflexivity|].
    cbn in Hs. destruct (forallb isWhiteSpace raw); congruence.
  - intros v. now rewrite safe_candidate, safe2_candidate.
  - intros a b c. unfold resolve. repeat split.
    + intros x ->. reflexivity.
    + intros y Ha Hb. apply candidate_none in Ha. now rewrite Ha, Hb.
    + intros Ha Hb. apply candidate_none in Ha, Hb. now rewrite Ha, Hb.
  - apply getEnv_resolved.
  - apply getEnv2_resolved.
  - intros X HX Ha Hb Hc.
    assert (Hr : resolve (AgentApp.opt env X) (X vars) (X processEnv) = None)
      by (apply resolve_blank; auto).
    unfold AgentApp.initialize. rewrite getEnv_resolved. cbv zeta.
    cbn [AgentApp.cfg_ANTHROPIC_API_KEY AgentApp.cfg_RPC_URL
         AgentApp.cfg_MEMORY_VAULT_ADDRESS AgentApp.cfg_USER_ADDRESS
         AgentApp.cfg_AGENT_PRIVATE_KEY].
    match goal with
    | |- fst ((if ?g then _ else _) st) = _ => assert (Hg : g = true)
    end.
    { rewrite !orb_true_iff, !negb_true_iff.
      destruct HX as [<-|[<-|[<-|[<-|[<-|[]]]]]]; rewrite Hr; cbn; auto 6. }
    rewrite Hg. reflexivity.
  - intros X HX Hb Hc.
    assert (Hr : resolve None (X vars2) (X processEnv2) = None)
      by (apply resolve_blank; cbn; auto).
    unfold Agent2.startup. rewrite getEnv2_resolved. cbv zeta.
    cbn [Agent2.cfg_ANTHROPIC_API_KEY Agent2.cfg_RPC_URL
         Agent2.cfg_MEMORY_VAULT_ADDRESS Agent2.cfg_USER_ADDRESS Agent2.opt].
    match goal with
    | |- fst ((if ?g then _ else _) st) = _ => assert (Hg : g = true)
    end.
    { rewrite !orb_true_iff, !negb_true_iff.
      destruct HX as [<-|[<-|[<-|[<-|[]]]]]; rewrite Hr; cbn; auto 6. }
    rewrite Hg. reflexivity.
Qed.

End ConfigurationProperties.

(* ================================================================== *)
(** * The configuration file *)
(* ================================================================== *)

Section StripComments.

Import Wrangler.

Lemma skipn_nth_error (content : JSString) (i : nat) (c : Z) :
  nth_error content i = Some c -> skipn i content = c :: skipn (S i) content.
Proof.
  revert i. induction content as [|x xs IH]; intros [|i] H; try discriminate H.
  - injection H as ->. reflexivity.
  - cbn [skipn]. apply IH. exact H.
Qed.

Lemma skipn_past (content : JSString) (i : nat) :
  nth_error content i = None -> skipn i content = [].
Proof. intros H. apply skipn_all2. now apply nth_error_None. Qed.

Lemma charIs_headIs (content : JSString) (i : nat) (ch : Z) :
  charIs content i ch = headIs (skipn i content) ch.
Proof.
  unfold charIs. destruct (nth_error content i) as [c|] eqn:H.
  - now rewrite (skipn_nth_error _ _ _ H).
  - now rewrite (skipn_past _ _ H).
Qed.

Lemma lineEnd_ge (fuel : nat) (content : JSString) :
  forall i, (i <= lineEnd fuel content i)%nat.
Proof.
  induction fuel as [|fuel IH]; intros i; cbn [lineEnd]; [lia|].
  destruct (nth_error content i) as [c|]; [|lia].
  destruct (c =? 10); [lia|]. specialize (IH (S i)). lia.
Qed.

Lemma blockEnd_ge (fuel : nat) (content : JSString) :
  forall i, (i <= blockEnd fuel content i)%nat.
Proof.
  induction fuel as [|fuel IH]; intros i; cbn [blockEnd]; [lia|].
  destruct (i <? length content - 1)%nat; [|lia].
  destruct (charIs content i 42 && charIs content (S i) 47); [lia|].
  specialize (IH (S i)). lia.
Qed.

Lemma lineEnd_machine (fuel : nat) (content : JSString) :
  forall i,
    (length content - i <= fuel)%nat ->
    machine Line (skipn i content)
    = machine Code (skipn (S (lineEnd fuel content i)) content).
Proof.
  induction fuel as [|fuel IH]; intros i Hfuel; cbn [lineEnd].
  - rewrite !skipn_all2 by lia. reflexivity.
  - destruct (nth_error content i) as [c|] eqn:Hc.
    + rewrite (skipn_nth_error _ _ _ Hc). cbn [machine].
      destruct (c =? 10); [reflexivity|]. apply IH. lia.
    + apply nth_error_None in Hc. rewrite !skipn_all2 by lia. reflexivity.
Qed.

Lemma machine_after (s : JSString) :
  machine BlockAfter s = machine Code (skipn 1 s).
Proof. destruct s; reflexivity. Qed.

Lemma machine_block_step (c d : Z) (rest : JSString) :
  machine Block (c :: d :: rest)
  = if (c =? 42) && (d =? 47) then machine BlockAfter rest
    else machine Block (d :: rest).
Proof. cbn [machine headIs]. destruct ((c =? 42) && (d =? 47)); reflexivity. Qed.

Lemma blockEnd_machine (fuel : nat) (content : JSString) :
  forall i,
    (length content - i <= fuel)%nat ->
    machine Block (skipn i content)
    = machine Code (skipn (S (blockEnd fuel content i)) content).
Proof.
  induction fuel as [|fuel IH]; intros i Hfuel; cbn [blockEnd].
  - rewrite !skipn_all2 by lia. reflexivity.
  - destruct (Nat.ltb_spec i (length content - 1)) as [Hin|Hout].
    + destruct (nth_error content i) as [c|] eqn:Hc;
        [|apply nth_error_None in Hc; lia].
      destruct (nth_error content (S i)) as [d|] eqn:Hd;
        [|apply nth_error_None in Hd; lia].
      rewrite (skipn_nth_error _ _ _ Hc), (skipn_nth_error _ _ _ Hd).
      unfold charIs. rewrite Hc, Hd, machine_block_step.
      destruct ((c =? 42) && (d =? 47)).
      * rewrite machine_after, skipn_skipn.
        replace (1 + S (S i))%nat with (S (i + 2)) by lia. reflexivity.
      * rewrite <- (skipn_nth_error _ _ _ Hd). apply IH. lia.
    + rewrite (skipn_all2 content (n := S i)) by lia.
      destruct (nth_error content i) as [c|] eqn:Hc.
      * rewrite (skipn_nth_error _ _ _ Hc), skipn_all2 by lia. reflexivity.
      * now rewrite (skipn_past _ _ Hc).
Qed.

(** The loop, from any index and in each state it can be in, writes what
    the character-by-character reading writes. *)
Lemma stripLoop_machine (fuel : nat) (content : JSString) :
  forall i out,
    (length content - i <= fuel)%nat ->
    stripLoop fuel content i false false out = out ++ machine Code (skipn i content)
    /\ stripLoop fuel content i true false out = out ++ machine InString (skipn i content)
    /\ stripLoop fuel content i true true out = out ++ machine Escaped (skipn i content).
Proof.
  induction fuel as [|fuel IH]; intros i out Hfuel.
  - cbn [stripLoop]. rewrite skipn_all2 by lia. cbn. rewrite app_nil_r. auto.
  - cbn [stripLoop].
    destruct (nth_error content i) as [c|] eqn:Hc.
    2:{ rewrite (skipn_past _ _ Hc). cbn. rewrite app_nil_r. auto. }
    rewrite (skipn_nth_error _ _ _ Hc).
    assert (Hnext : (length content - S i <= fuel)%nat) by lia.
    destruct (IH (S i) (out ++ [c]) Hnext) as [Hcode [Hstr Hesc]].
    cbn [machine negb andb].
    split; [|split].
    + rewrite andb_false_r.
      destruct (c =? 34) eqn:Hq.
      { rewrite Hstr, <- app_assoc. reflexivity. }
      rewrite !charIs_headIs.
      destruct (c =? 47) eqn:Hs; cbn [andb].
      * destruct (headIs (skipn (S i) content) 47) eqn:Hline.
        { pose proof (lineEnd_ge (length content) content i) as Hge.
          destruct (IH (S (lineEnd (length content) content i)) out ltac:(lia))
            as [-> _].
          f_equal. rewrite <- (lineEnd_machine (length content) content i) by lia.
          rewrite (skipn_nth_error _ _ _ Hc). cbn [machine].
          apply Z.eqb_eq in Hs. subst c. reflexivity. }
        destruct (headIs (skipn (S i) content) 42) eqn:Hblock.
        { pose proof (blockEnd_ge (length content) content (i + 2)) as Hge.
          destruct (IH (S (blockEnd (length content) content (i + 2))) out ltac:(lia))
            as [-> _].
          f_equal. rewrite <- (blockEnd_machine (length content) content (i + 2)) by lia.
          destruct (skipn (S i) content) as [|d rest] eqn:Hrest; [discriminate Hblock|].
          cbn [machine]. f_equal.
          replace (i + 2)%nat with (1 + S i)%nat by lia.
          rewrite <- skipn_skipn, Hrest. reflexivity. }
        rewrite Hcode, <- app_assoc. reflexivity.
      * rewrite Hcode, <- app_assoc. reflexivity.
    + rewrite andb_true_r.
      destruct (c =? 92) eqn:Hb.
      { rewrite Hesc, <- app_assoc. reflexivity. }
      destruct (c =? 34) eqn:Hq.
      { rewrite Hcode, <- app_assoc. reflexivity. }
      cbn [andb]. rewrite Hstr, <- app_assoc. reflexivity.
    + rewrite Hstr, <- app_assoc. reflexivity.
Qed.

Lemma stripComments_machine (content : JSString) :
  stripComments content = machine Code content.
Proof.
  unfold stripComments.
  destruct (stripLoop_machine (length content) content 0 [] ltac:(lia)) as [H _].
  exact H.
Qed.

End StripComments.

Section StripCommentsProperties.

Import Wrangler.

Lemma machine_plain (pre rest : JSString) :
  Plain pre -> machine Code (pre ++ rest) = pre ++ machine Code rest.
Proof.
  unfold Plain. induction pre as [|c pre IH]; intros [Hq Hs]; [reflexivity|].
  cbn [app machine].
  destruct (Z.eqb_spec c 34) as [->|_]; [elim Hq; now left|].
  destruct (Z.eqb_spec c 47) as [->|_]; [elim Hs; now left|].
  cbn [andb]. rewrite IH; [reflexivity|].
  split; intros H; [apply Hq | apply Hs]; now right.
Qed.

Lemma machine_string_body (body rest : JSString) :
  ~ In 34 body -> ~ In 92 body ->
  machine InString (body ++ rest) = body ++ machine InString rest.
Proof.
  induction body as [|c body IH]; intros Hq Hb; [reflexivity|].
  cbn [app machine].
  destruct (Z.eqb_spec c 92) as [->|_]; [elim Hb; now left|].
  destruct (Z.eqb_spec c 34) as [->|_]; [elim Hq; now left|].
  rewrite IH; [reflexivity | |]; intros H; [apply Hq | apply Hb]; now right.
Qed.

Lemma machine_line_body (text rest : JSString) :
  ~ In 10 text -> machine Line (text ++ rest) = machine Line rest.
Proof.
  induction text as [|c text IH]; intros Hn; [reflexivity|].
  cbn [app machine].
  destruct (Z.eqb_spec c 10) as [->|_]; [elim Hn; now left|].
  apply IH. intros H. apply Hn. now right.
Qed.

Lemma machine_block_body (body post : JSString) (c : Z) :
  ~ In 47 body ->
  machine Block (body ++ 42 :: 47 :: c :: post) = machine Code post.
Proof.
  induction body as [|x body IH]; intros Hs.
  - cbn [app]. rewrite machine_block_step. reflexivity.
  - assert (Hrest : ~ In 47 body) by (intros H; apply Hs; now right).
    destruct body as [|y body'].
    + cbn [app]. rewrite machine_block_step.
      replace (42 =? 47) with false by reflexivity. rewrite andb_false_r.
      apply (IH Hrest).
    + cbn [app]. rewrite machine_block_step.
      destruct (Z.eqb_spec y 47) as [->|_]; [elim Hrest; now left|].
      rewrite andb_false_r. apply (IH Hrest).
Qed.

(** X1: a string literal is copied as it stands, whatever it holds:
    slashes in it open no comment. *)
Theorem stripComments_keeps_strings (pre body post : JSString) :
  Plain pre -> ~ In 34 body -> ~ In 92 body ->
  stripComments (pre ++ [34] ++ body ++ [34] ++ post)
  = pre ++ [34] ++ body ++ [34] ++ stripComments post.
Proof.
  intros Hpre Hq Hb. rewrite !stripComments_machine, (machine_plain _ _ Hpre).
  cbn [app machine]. rewrite (machine_string_body _ _ Hq Hb).
  cbn [app machine]. reflexivity.
Qed.

(** X2: a line comment outside a string is dropped up to and with the
    line feed that ends it; one that the text ends in is dropped whole. *)
Theorem stripComments_line_comment (pre text post : JSString) :
  Plain pre -> ~ In 10 text ->
  stripComments (pre ++ [47; 47] ++ text ++ [10] ++ post) = pre ++ stripComments post
  /\ stripComments (pre ++ [47; 47] ++ text) = pre.
Proof.
  intros Hpre Hn. rewrite !stripComments_machine, !(machine_plain _ _ Hpre).
  cbn [app machine headIs]. cbn [Z.eqb Pos.eqb andb].
  split.
  - rewrite (machine_line_body _ _ Hn). reflexivity.
  - rewrite <- (app_nil_r text), (machine_line_body _ _ Hn). cbn.
    now rewrite app_nil_r.
Qed.

(** X3: a block comment outside a string is dropped, and with it the
    character that follows its closing star and slash. *)
Theorem stripComments_block_comment (pre body post : JSString) (c : Z) :
  Plain pre -> ~ In 47 body ->
  stripComments (pre ++ [47; 42] ++ body ++ [42; 47] ++ c :: post)
  = pre ++ stripComments post.
Proof.
  intros Hpre Hs. rewrite !stripComments_machine, (machine_plain _ _ Hpre).
  cbn [app machine headIs]. cbn [Z.eqb Pos.eqb andb].
  rewrite (machine_block_body _ _ _ Hs). reflexivity.
Qed.

End StripCommentsProperties.

Section TrailingCommas.

Import Wrangler.

Lemma closerAhead_space (ws rest : JSString) :
  forallb isWhiteSpace ws = true -> closerAhead (ws ++ rest) = closerAhead rest.
Proof.
  induction ws as [|c ws IH]; intros H; [reflexivity|].
  cbn [forallb] in H. apply andb_true_iff in H. destruct H as [Hc Hws].
  cbn [app closerAhead]. rewrite Hc. now apply IH.
Qed.

Lemma closerAhead_comma (s rest : JSString) :
  closerAhead (s ++ 44 :: rest) = closerAhead s.
Proof.
  induction s as [|c s IH]; [reflexivity|].
  cbn [app closerAhead]. now rewrite IH.
Qed.

Lemma removeTrailingCommas_space (ws rest : JSString) :
  forallb isWhiteSpace ws = true ->
  removeTrailingCommas (ws ++ rest) = ws ++ removeTrailingCommas rest.
Proof.
  induction ws as [|c ws IH]; intros H; [reflexivity|].
  cbn [forallb] in H. apply andb_true_iff in H. destruct H as [Hc Hws].
  cbn [app removeTrailingCommas].
  destruct (Z.eqb_spec c 44) as [->|_]; [discriminate Hc|].
  cbn [andb]. now rewrite IH.
Qed.

Lemma removeTrailingCommas_cons (c : Z) (rest : JSString) :
  removeTrailingCommas (c :: rest)
  = if (c =? 44) && closerAhead rest
    then removeTrailingCommas rest
    else c :: removeTrailingCommas rest.
Proof. reflexivity. Qed.

Lemma removeTrailingCommas_at_comma (pre rest : JSString) :
  removeTrailingCommas (pre ++ 44 :: rest)
  = removeTrailingCommas pre ++ removeTrailingCommas (44 :: rest).
Proof.
  induction pre as [|c pre IH]; [reflexivity|].
  cbn [app].
  rewrite (removeTrailingCommas_cons c (pre ++ 44 :: rest)),
    (removeTrailingCommas_cons c pre), closerAhead_comma, IH.
  destruct ((c =? 44) && closerAhead pre); reflexivity.
Qed.

(** X4: wherever it stands, in a string literal too, a comma followed by
    white space (or none) and a closing brace or bracket is dropped and the
    white space and the bracket stay; characters other than commas are never
    dropped or added. *)
Theorem removeTrailingCommas_rule (pre ws post : JSString) (closer : Z) :
  forallb isWhiteSpace ws = true ->
  closer = 125 \/ closer = 93 ->
  removeTrailingCommas (pre ++ 44 :: ws ++ closer :: post)
  = removeTrailingCommas pre ++ ws ++ closer :: removeTrailingCommas post
  /\ forall s,
       filter (fun c => negb (c =? 44)) (removeTrailingCommas s)
       = filter (fun c => negb (c =? 44)) s.
Proof.
  intros Hws Hcloser. split.
  - rewrite removeTrailingCommas_at_comma. f_equal.
    cbn [removeTrailingCommas]. rewrite (closerAhead_space _ _ Hws).
    assert (Hc : closerAhead (closer :: post) = true)
      by (destruct Hcloser as [-> | ->]; reflexivity).
    rewrite Hc. cbn [Z.eqb Pos.eqb andb].
    rewrite (removeTrailingCommas_space _ _ Hws). f_equal.
    cbn [removeTrailingCommas].
    destruct Hcloser as [-> | ->]; reflexivity.
  - induction s as [|c s IH]; [reflexivity|].
    cbn [removeTrailingCommas].
    destruct (Z.eqb_spec c 44) as [->|Hne]; cbn [andb].
    + destruct (closerAhead s); cbn [filter Z.eqb Pos.eqb negb]; exact IH.
    + cbn [filter]. rewrite IH. reflexivity.
Qed.

End TrailingCommas.

Section PlainFiles.

Import Wrangler.

Lemma machine_plain_file (s : JSString) :
  (commentOpens false false s = false -> machine Code s = s)
  /\ (commentOpens true false s = false -> machine InString s = s)
  /\ (commentOpens true true s = false -> machine Escaped s = s).
Proof.
  induction s as [|c rest [IHc [IHs IHe]]]; [repeat split|].
  cbn [commentOpens machine negb andb]. rewrite ?andb_false_r, ?andb_true_r.
  split; [|split].
  - destruct (c =? 34).
    + intros H. f_equal. now apply IHs.
    + intros H. apply orb_false_iff in H. destruct H as [Hopen Hrest].
      destruct (c =? 47); cbn [andb] in *.
      * apply orb_false_iff in Hopen. destruct Hopen as [-> ->].
        f_equal. now apply IHc.
      * f_equal. now apply IHc.
  - destruct (c =? 92).
    + intros H. f_equal. now apply IHe.
    + destruct (c =? 34); cbn [orb]; intros H; f_equal; auto.
  - intros H. f_equal. now apply IHs.
Qed.

Lemma removeTrailingCommas_plain (s : JSString) :
  trailingComma s = false -> removeTrailingCommas s = s.
Proof.
  induction s as [|c rest IH]; [reflexivity|].
  cbn [trailingComma removeTrailingCommas]. intros H.
  apply orb_false_iff in H. destruct H as [-> Hrest]. f_equal. now apply IH.
Qed.

(** X16: a file in which no comment opens outside a string literal and no
    comma stands before a closing brace or bracket reaches [JSON.parse] as it
    stands, slashes in its strings included, and the variables returned are
    those under [vars] of the value parsed, or none when the text is not JSON
    or has no [vars]. *)
Theorem plain_file_is_parsed_as_it_stands (content : JSString) :
  commentOpens false false content = false ->
  trailingComma content = false ->
  removeTrailingCommas (stripComments content) = content
  /\ fst (loadWranglerVars (Returned content))
     = match JSON_parse content with
       | Some config =>
           match property config (lit "vars") with
           | Value v => if truthyValue (Value v) then v else JObject []
           | Undefined => JObject []
           end
       | None => JObject []
       end.
Proof.
  intros Hcomments Hcommas.
  assert (Htext : removeTrailingCommas (stripComments content) = content).
  { rewrite stripComments_machine, (proj1 (machine_plain_file content) Hcomments).
    now apply removeTrailingCommas_plain. }
  split; [exact Htext|].
  unfold loadWranglerVars. rewrite Htext.
  destruct (JSON_parse content) as [config|]; [|reflexivity].
  destruct config; try reflexivity;
    (destruct (property _ (lit "vars")) as [|v]; [reflexivity|]);
    destruct (truthyValue (Value v)); reflexivity.
Qed.

End PlainFiles.

Section UnusableFiles.

Import Wrangler.

(** X24: a wrangler.jsonc that cannot be read, or that is not JSON once
    comments and trailing commas are stripped, does not stop [getEnv]: a
    warning is printed, no variable comes from the file, and every value is
    resolved from the explicit argument and the process environment alone. *)
Theorem unusable_file_defers_to_process_env (file : Outcome JSString)
    (processEnv : AgentApp.Env) (env : option AgentApp.Env) :
  match file with
  | Threw _ => True
  | Returned content =>
      JSON_parse (removeTrailingCommas (stripComments content)) = None
  end ->
  getEnvFromFile file processEnv env
  = Some (AgentApp.getEnv Samples.noVars processEnv env)
  /\ exists e : JSError, loadWranglerVars file = (JObject [], [CouldNotLoad e]).
Proof.
  intros Hfile.
  assert (Hload : exists e : JSError,
            loadWranglerVars file = (JObject [], [CouldNotLoad e])).
  { destruct file as [content|e]; cbn [loadWranglerVars].
    - rewrite Hfile. now exists SyntaxError.
    - now exists e. }
  split; [|exact Hload].
  destruct Hload as [e Hload]. unfold getEnvFromFile. rewrite Hload. reflexivity.
Qed.

End UnusableFiles.

(* ================================================================== *)
(** * The first agent: failures of the model, calls per turn, start-up *)
(* ================================================================== *)

Section FirstAgentFailures.

Variable config : AgentApp.Config.
Variable w : World.

Lemma loop_rejects (msg : JSString) (e : JSError) (rest : list (JSString * World))
    (st st' : Store) :
  AgentApp.turn config w msg
    {| trace := trace st ++ [questionEvent]; array := array st |} = (Threw e, st') ->
  AgentApp.loop config ((msg, w) :: rest) st = (Threw e, st').
Proof.
  intros Hturn. cbn [AgentApp.loop]. unfold bind at 1, emit. fold questionEvent.
  apply bind_threw. exact Hturn.
Qed.

(** X5: when the completion for the reply rejects, the turn rejects with
    the same error right after the reads: no decision is asked for, nothing
    is written, and the loop ends there, the utterances behind it never
    being taken. *)
Theorem turn_rejects_with_reply (msg : JSString) (e : JSError)
    (rest : list (JSString * World)) (st : Store) :
  generateText_result w
    (AgentApp.answerRequest config msg (retrieved config w AgentApp.topics)) = Threw e ->
  exists st' : Store,
    AgentApp.turn config w msg
      {| trace := trace st ++ [questionEvent]; array := array st |} = (Threw e, st')
    /\ trace st'
       = (trace st ++ [questionEvent]) ++ readingEvents config w AgentApp.topics
         ++ [ConsoleLog [PStr (lit "Memories:");
                         PMemories (retrieved config w AgentApp.topics)];
             ModelCall (AgentApp.answerRequest config msg
                          (retrieved config w AgentApp.topics))]
    /\ countWrites (trace st') = countWrites (trace st)
    /\ AgentApp.loop config ((msg, w) :: rest) st = (Threw e, st').
Proof.
  intros Hreply. eexists.
  split; [apply (turn_run_reply_threw config w msg e _ Hreply)|]. cbn [trace].
  split; [reflexivity|]. split.
  - rewrite !countWrites_app, countWrites_reading. cbn. lia.
  - apply loop_rejects.
    exact (turn_run_reply_threw config w msg e
             {| trace := trace st ++ [questionEvent]; array := array st |} Hreply).
Qed.

(** X6: when the completion for the decision rejects, the reply has been
    printed, the turn rejects with the same error without writing, and the
    loop ends there. *)
Theorem turn_rejects_with_decision (msg reply : JSString) (e : JSError)
    (rest : list (JSString * World)) (st : Store) :
  generateText_result w
    (AgentApp.answerRequest config msg (retrieved config w AgentApp.topics))
    = Returned reply ->
  generateText_result w
    (AgentApp.decideRequest config msg (retrieved config w AgentApp.topics)) = Threw e ->
  exists st' : Store,
    AgentApp.turn config w msg
      {| trace := trace st ++ [questionEvent]; array := array st |} = (Threw e, st')
    /\ trace st'
       = (trace st ++ [questionEvent]) ++ readingEvents config w AgentApp.topics
         ++ replyingEvents config msg reply (retrieved config w AgentApp.topics)
    /\ countWrites (trace st') = countWrites (trace st)
    /\ AgentApp.loop config ((msg, w) :: rest) st = (Threw e, st').
Proof.
  intros Hreply Hdecide. eexists.
  split; [apply (turn_run_decision_threw config w msg reply e _ Hreply Hdecide)|]. cbn [trace].
  split; [reflexivity|]. split.
  - rewrite !countWrites_app, countWrites_reading. cbn. lia.
  - apply loop_rejects.
    exact (turn_run_decision_threw config w msg reply e
             {| trace := trace st ++ [questionEvent]; array := array st |}
             Hreply Hdecide).
Qed.

Lemma reads_app (a b : list Event) :
  filter isRead (a ++ b) = filter isRead a ++ filter isRead b.
Proof. apply filter_app. Qed.

Lemma reads_reading (ts : list JSString) :
  filter isRead (readingEvents config w ts)
  = map (fun t => LedgerRead (latestCall config t)) ts.
Proof.
  induction ts as [|t ts IH]; [reflexivity|].
  cbn [readingEvents flat_map app filter isRead map]. f_equal. exact IH.
Qed.

Lemma countModelCalls_app (a b : list Event) :
  countModelCalls (a ++ b) = (countModelCalls a + countModelCalls b)%nat.
Proof. unfold countModelCalls. now rewrite filter_app, length_app. Qed.

Lemma models_reading (ts : list JSString) :
  countModelCalls (readingEvents config w ts) = 0%nat.
Proof. induction ts as [|t ts IH]; [reflexivity | exact IH]. Qed.

Lemma parseEvents_quiet (text : JSString) :
  filter isRead (parseEvents text) = [] /\ countModelCalls (parseEvents text) = 0%nat.
Proof.
  unfold parseEvents. destruct (JSON_parse text) as [v|]; [|split; reflexivity].
  destruct (AgentApp.MemoryDecisionSchema (Value v)); split; reflexivity.
Qed.

Lemma writingEvents_quiet (d : AgentApp.Decision) :
  filter isRead (writingEvents config w d) = []
  /\ countModelCalls (writingEvents config w d) = 0%nat
  /\ (countWrites (writingEvents config w d) <= 1)%nat.
Proof.
  unfold writingEvents.
  destruct (AgentApp.should_store d && _ && _); [|repeat split; cbn; lia].
  destruct (writeContract_result w (writeCall config d)); repeat split; cbn; lia.
Qed.

(** X7: whatever fails, a turn reads the ledger exactly three times, once
    per candidate topic in their order and never again, asks the model at
    most twice and writes to the ledger at most once. *)
Theorem turn_call_budget (msg : JSString) (st : Store) :
  filter isRead (trace (snd (AgentApp.turn config w msg st)))
  = filter isRead (trace st)
    ++ map (fun t => LedgerRead (latestCall config t)) AgentApp.topics
  /\ (countModelCalls (trace (snd (AgentApp.turn config w msg st)))
      <= countModelCalls (trace st) + 2)%nat
  /\ (countWrites (trace (snd (AgentApp.turn config w msg st)))
      <= countWrites (trace st) + 1)%nat.
Proof.
  destruct (generateText_result w
              (AgentApp.answerRequest config msg (retrieved config w AgentApp.topics)))
    as [reply|e] eqn:Hreply.
  - destruct (generateText_result w
                (AgentApp.decideRequest config msg (retrieved config w AgentApp.topics)))
      as [dtext|e] eqn:Hdecide.
    + rewrite (turn_run config w msg reply dtext st Hreply Hdecide). cbn [snd trace].
      destruct (parseEvents_quiet dtext) as [Hp1 Hp2].
      destruct (writingEvents_quiet (decisionOf dtext)) as [Hw1 [Hw2 Hw3]].
      rewrite !reads_app, reads_reading, Hp1, Hw1,
        !countModelCalls_app, models_reading, Hp2, Hw2,
        !countWrites_app, countWrites_reading, countWrites_parse.
      cbn. rewrite ?app_nil_r. repeat split; lia.
    + rewrite (turn_run_decision_threw config w msg reply e st Hreply Hdecide). cbn [snd trace].
      rewrite !reads_app, reads_reading, !countModelCalls_app, models_reading,
        !countWrites_app, countWrites_reading.
      cbn. rewrite ?app_nil_r. repeat split; lia.
  - rewrite (turn_run_reply_threw config w msg e st Hreply). cbn [snd trace].
    rewrite !reads_app, reads_reading, !countModelCalls_app, models_reading,
      !countWrites_app, countWrites_reading.
    cbn. rewrite ?app_nil_r. repeat split; lia.
Qed.

(** X25: the ABI of the first agent declares the timestamp of a record with
    the type uintuint256, which viem decodes as a Number and not as a bigint:
    a record the ledger delivers with a timestamp of 2^53 or more does not
    decode, and [getLatestMemory] returns null for it, as it does for a topic
    without records. *)
Theorem unsafe_timestamp_reads_as_absent (t : JSString) (r : Ledger.MemoryRecord)
    (st : Store) :
  readFault w (latestCall config t) = None ->
  Ledger.getLatestMemory (memorySet config w t) = Some r ->
  2 ^ 53 <= Ledger.timestamp r ->
  decodeInteger (lit "uintuint256") (Ledger.timestamp r) = Threw IntegerOutOfRange
  /\ AgentApp.getLatestMemory config w t st
     = (Returned None,
        {| trace := trace st ++ [LedgerRead (latestCall config t)];
           array := array st |}).
Proof.
  intros Hfault Hlatest Hlate.
  assert (Hunsafe : isSafeInteger (Ledger.timestamp r) = false).
  { unfold isSafeInteger. apply andb_false_iff. right. apply Z.leb_gt. lia. }
  split.
  - rewrite decodeInteger_uintuint256, Hunsafe. reflexivity.
  - rewrite getLatestMemory_run. unfold delivered.
    now rewrite Hfault, Hlatest, Hunsafe.
Qed.

End FirstAgentFailures.

Section StartUp.

Lemma truthy_opt_resolved (a b c : option JSString) :
  truthy_opt (resolve a b c) = resolved (resolve a b c).
Proof.
  destruct (resolve a b c) as [s|] eqn:Hr; [|reflexivity].
  cbn. exact (resolve_truthy _ _ _ _ Hr).
Qed.

Lemma truthy_orDefault_resolved (a b c : option JSString) :
  truthy (orDefault (resolve a b c) []) = resolved (resolve a b c).
Proof.
  destruct (resolve a b c) as [s|] eqn:Hr; [|reflexivity].
  cbn. exact (resolve_truthy _ _ _ _ Hr).
Qed.

Lemma initialize_guard (vars processEnv : AgentApp.Env) (env : option AgentApp.Env) :
  let config := AgentApp.getEnv vars processEnv env in
  let r X := resolve (AgentApp.opt env X) (X vars) (X processEnv) in
  negb (truthy (AgentApp.cfg_ANTHROPIC_API_KEY config))
  || negb (truthy (AgentApp.cfg_RPC_URL config))
  || negb (truthy_opt (AgentApp.cfg_MEMORY_VAULT_ADDRESS config))
  || negb (truthy_opt (AgentApp.cfg_USER_ADDRESS config))
  || negb (truthy (AgentApp.cfg_AGENT_PRIVATE_KEY config))
  = negb (resolved (r AgentApp.ANTHROPIC_API_KEY))
    || negb (resolved (r AgentApp.RPC_URL))
    || negb (resolved (r AgentApp.MEMORY_VAULT_ADDRESS))
    || negb (resolved (r AgentApp.USER_ADDRESS))
    || negb (resolved (r AgentApp.AGENT_PRIVATE_KEY)).
Proof.
  cbv zeta. rewrite getEnv_resolved. cbv zeta.
  cbn [AgentApp.cfg_ANTHROPIC_API_KEY AgentApp.cfg_RPC_URL
       AgentApp.cfg_MEMORY_VAULT_ADDRESS AgentApp.cfg_USER_ADDRESS
       AgentApp.cfg_AGENT_PRIVATE_KEY].
  now rewrite !truthy_orDefault_resolved, !truthy_opt_resolved.
Qed.

(** X8: start-up of the first agent exits with status 1 exactly when one of
    the five required variables is blank in all three sources.  With all five
    resolved it never exits: the account is derived from the private key after
    0x, and a key the derivation rejects makes start-up throw. *)
Theorem initialize_outcomes (w : World) (vars processEnv : AgentApp.Env)
    (env : option AgentApp.Env) (st : Store) :
  (fst (AgentApp.initialize w vars processEnv env st) = Returned (AgentApp.Exited 1)
   <-> exists X,
         In X [AgentApp.ANTHROPIC_API_KEY; AgentApp.RPC_URL;
               AgentApp.MEMORY_VAULT_ADDRESS; AgentApp.USER_ADDRESS;
               AgentApp.AGENT_PRIVATE_KEY]
         /\ Blank (match env with Some e => X e | None => None end)
         /\ Blank (X vars) /\ Blank (X processEnv))
  /\ ((forall X,
         In X [AgentApp.ANTHROPIC_API_KEY; AgentApp.RPC_URL;
               AgentApp.MEMORY_VAULT_ADDRESS; AgentApp.USER_ADDRESS;
               AgentApp.AGENT_PRIVATE_KEY] ->
         ~ (Blank (match env with Some e => X e | None => None end)
            /\ Blank (X vars) /\ Blank (X processEnv))) ->
      AgentApp.initialize w vars processEnv env st
      = (match privateKeyToAccount_result w
                 (lit "0x" ++ AgentApp.cfg_AGENT_PRIVATE_KEY
                                (AgentApp.getEnv vars processEnv env)) with
         | Returned account =>
             Returned (AgentApp.Started (AgentApp.getEnv vars processEnv env) account)
         | Threw e => Threw e
         end, st)).
Proof.
  pose proof (initialize_guard vars processEnv env) as Hguard. cbv zeta in Hguard.
  set (r := fun X : AgentApp.Env -> option JSString =>
              resolve (AgentApp.opt env X) (X vars) (X processEnv)) in *.
  assert (Hblank : forall X, r X = None <->
            Blank (AgentApp.opt env X) /\ Blank (X vars) /\ Blank (X processEnv))
    by (intros X; apply resolve_blank).
  assert (Hsome : forall X, resolved (r X) = false <-> r X = None)
    by (intros X; destruct (r X); cbn; split; congruence).
  assert (Hrun : forall g : bool,
    g = negb (resolved (r AgentApp.ANTHROPIC_API_KEY))
        || negb (resolved (r AgentApp.RPC_URL))
        || negb (resolved (r AgentApp.MEMORY_VAULT_ADDRESS))
        || negb (resolved (r AgentApp.USER_ADDRESS))
        || negb (resolved (r AgentApp.AGENT_PRIVATE_KEY)) ->
    (g = true <-> exists X,
        In X [AgentApp.ANTHROPIC_API_KEY; AgentApp.RPC_URL;
              AgentApp.MEMORY_VAULT_ADDRESS; AgentApp.USER_ADDRESS;
              AgentApp.AGENT_PRIVATE_KEY] /\ r X = None)).
  { intros g ->. rewrite !orb_true_iff, !negb_true_iff, !Hsome. split.
    - intros [[[[H|H]|H]|H]|H]; eexists; (split; [|exact H]); cbn; auto 6.
    - intros [X [HX Hr]].
      destruct HX as [<-|[<-|[<-|[<-|[<-|[]]]]]]; auto 6. }
  unfold AgentApp.initialize. rewrite Hguard.
  specialize (Hrun _ eq_refl).
  destruct (negb (resolved (r AgentApp.ANTHROPIC_API_KEY)) || _ || _ || _ || _) eqn:Hg.
  - split.
    + split; [|reflexivity]. intros _.
      destruct (proj1 Hrun eq_refl) as [X [HX Hr]].
      exists X. split; [exact HX | now apply Hblank].
    + intros Hall. destruct (proj1 Hrun eq_refl) as [X [HX Hr]].
      elim (Hall X HX). now apply Hblank.
  - split.
    + split.
      * unfold bind, privateKeyToAccount, ret.
        destruct (privateKeyToAccount_result w _); cbn; discriminate.
      * intros [X [HX HB]]. apply Hblank in HB.
        assert (false = true) by (apply Hrun; eauto). discriminate.
    + intros _. unfold bind, privateKeyToAccount, ret.
      destruct (privateKeyToAccount_result w _); reflexivity.
Qed.

Lemma trimStart_fixed (s : JSString) :
  (forall c rest, s = c :: rest -> isWhiteSpace c = false) -> trimStart s = s.
Proof.
  destruct s as [|c rest]; [reflexivity|]. intros H.
  cbn [trimStart]. now rewrite (H c rest eq_refl).
Qed.

Lemma trimStart_idempotent (s : JSString) : trimStart (trimStart s) = trimStart s.
Proof. apply trimStart_fixed. intros c rest. apply trimStart_head. Qed.

Lemma trimStart_split (s : JSString) :
  exists ws, s = ws ++ trimStart s.
Proof.
  induction s as [|c s [ws IH]]; [now exists []|].
  cbn [trimStart]. destruct (isWhiteSpace c).
  - exists (c :: ws). cbn. now f_equal.
  - now exists [].
Qed.

Lemma trim_idempotent (s : JSString) : trim (trim s) = trim s.
Proof.
  unfold trim, trimEnd.
  set (a := trimStart s). set (b := trimStart (rev a)).
  assert (Hhead : trimStart (rev b) = rev b).
  { apply trimStart_fixed. intros c rest Hb.
    destruct (trimStart_split (rev a)) as [ws Hws]. fold b in Hws.
    apply (f_equal (@rev Z)) in Hws. rewrite rev_involutive, rev_app_distr, Hb in Hws.
    apply (trimStart_head s c (rest ++ rev ws)). exact Hws. }
  rewrite Hhead, rev_involutive. unfold b. now rewrite trimStart_idempotent.
Qed.

Lemma candidate_trimmed (v : option JSString) (s : JSString) :
  candidate v = Some s -> trim s = s.
Proof.
  destruct v as [raw|]; [|discriminate]. cbn.
  destruct (forallb isWhiteSpace raw); [discriminate|].
  intros [= <-]. apply trim_idempotent.
Qed.

Lemma resolve_trimmed (a b c : option JSString) (s : JSString) :
  resolve a b c = Some s -> trim s = s /\ s <> [].
Proof.
  intros Hr. split.
  - unfold resolve in Hr.
    destruct (candidate a) as [x|] eqn:Ha.
    + injection Hr as <-. exact (candidate_trimmed _ _ Ha).
    + destruct (candidate b) as [y|] eqn:Hb.
      * injection Hr as <-. exact (candidate_trimmed _ _ Hb).
      * exact (candidate_trimmed _ _ Hr).
  - apply truthy_iff. exact (resolve_truthy _ _ _ _ Hr).
Qed.

Lemma orDefault_trimmed (a b c : option JSString) (default : JSString) :
  trim default = default ->
  trim (orDefault (resolve a b c) default) = orDefault (resolve a b c) default.
Proof.
  intros Hd. destruct (resolve a b c) as [s|] eqn:Hr; cbn; [|exact Hd].
  exact (proj1 (resolve_trimmed _ _ _ _ Hr)).
Qed.

(** X9: no value of the configuration [getEnv] returns carries white
    space at either end: every string in it is its own trim, and an address
    that is set is not empty. *)
Theorem config_values_are_trimmed (vars processEnv : AgentApp.Env)
    (env : option AgentApp.Env) :
  trim (AgentApp.cfg_ANTHROPIC_API_KEY (AgentApp.getEnv vars processEnv env))
    = AgentApp.cfg_ANTHROPIC_API_KEY (AgentApp.getEnv vars processEnv env)
  /\ trim (AgentApp.cfg_RPC_URL (AgentApp.getEnv vars processEnv env))
     = AgentApp.cfg_RPC_URL (AgentApp.getEnv vars processEnv env)
  /\ trim (AgentApp.cfg_AGENT_PRIVATE_KEY (AgentApp.getEnv vars processEnv env))
     = AgentApp.cfg_AGENT_PRIVATE_KEY (AgentApp.getEnv vars processEnv env)
  /\ trim (AgentApp.cfg_MODEL_ID (AgentApp.getEnv vars processEnv env))
     = AgentApp.cfg_MODEL_ID (AgentApp.getEnv vars processEnv env)
  /\ (forall s, AgentApp.cfg_MEMORY_VAULT_ADDRESS (AgentApp.getEnv vars processEnv env)
                = Some s -> trim s = s /\ s <> [])
  /\ (forall s, AgentApp.cfg_USER_ADDRESS (AgentApp.getEnv vars processEnv env)
                = Some s -> trim s = s /\ s <> []).
Proof.
  rewrite getEnv_resolved. cbv zeta.
  cbn [AgentApp.cfg_ANTHROPIC_API_KEY AgentApp.cfg_RPC_URL
       AgentApp.cfg_MEMORY_VAULT_ADDRESS AgentApp.cfg_USER_ADDRESS
       AgentApp.cfg_AGENT_PRIVATE_KEY AgentApp.cfg_MODEL_ID].
  repeat split; try (apply orDefault_trimmed; reflexivity);
    try (apply (proj1 (resolve_trimmed _ _ _ _ H)));
    try (apply (proj2 (resolve_trimmed _ _ _ _ H))).
Qed.

End StartUp.

(* ================================================================== *)
(** * The HTTP worker: failures and the ledger *)
(* ================================================================== *)

Section WorkerFailures.

Variable w : World.
Variable env : McpServer.Env.

Lemma caught (body : M (option McpServer.Response)) (e : JSError) (st st' : Store) :
  body st = (Threw e, st') ->
  try_catch body
    (fun error =>
       console_error [PStr (lit "Worker error:"); PError error] ;;
       ret (Some (McpServer.failureResponse error))) st
  = (Returned (Some (McpServer.failureResponse e)),
     {| trace := trace st' ++ [workerError e]; array := array st' |}).
Proof. intros H. unfold try_catch. rewrite H. reflexivity. Qed.

(** X10: when the account cannot be derived from the private key, every
    request, whatever its method and path, is answered 500 with the error, and
    the error is printed; the ledger is not touched. *)
Theorem setup_failure_answers_500 (request : McpServer.Request) (e : JSError)
    (st : Store) :
  privateKeyToAccount_result w (McpServer.keyLiteral env) = Threw e ->
  McpServer.fetch w request env st
  = (Returned (Some (McpServer.failureResponse e)),
     {| trace := trace st ++ [workerError e]; array := array st |})
  /\ McpServer.status (McpServer.failureResponse e) = 500.
Proof.
  intros Hkey. split; [|reflexivity].
  unfold McpServer.fetch. apply caught. apply bind_threw.
  unfold privateKeyToAccount. now rewrite Hkey.
Qed.

(** Runs the body of the handler's try statement up to the reading of the
    body of a POST to one of the two routes. *)
Ltac enter_post Hkey Hmethod Hpath :=
  erewrite bind_run by (unfold privateKeyToAccount; rewrite Hkey; reflexivity);
  rewrite Hmethod, Hpath;
  change (str_eqb (lit "POST") (lit "GET")) with false;
  change (str_eqb (lit "POST") (lit "POST")) with true;
  change (str_eqb (lit "/store-memory") (lit "/store-memory")) with true;
  change (str_eqb (lit "/get-memory") (lit "/store-memory")) with false;
  change (str_eqb (lit "/get-memory") (lit "/get-memory")) with true;
  cbn [andb].

(** X11: a POST to either route whose body is not JSON, or is the JSON
    null, is answered 500 with the SyntaxError or TypeError thrown, which is
    printed; neither a read nor a write reaches the ledger. *)
Theorem malformed_body_answers_500 (request : McpServer.Request) (account : JSString)
    (st : Store) :
  privateKeyToAccount_result w (McpServer.keyLiteral env) = Returned account ->
  McpServer.method request = lit "POST" ->
  McpServer.pathname request = lit "/store-memory"
  \/ McpServer.pathname request = lit "/get-memory" ->
  (JSON_parse (McpServer.body request) = None ->
   McpServer.fetch w request env st
   = (Returned (Some (McpServer.failureResponse SyntaxError)),
      {| trace := trace st ++ [workerError SyntaxError]; array := array st |}))
  /\ (JSON_parse (McpServer.body request) = Some JNull ->
      McpServer.fetch w request env st
      = (Returned (Some (McpServer.failureResponse TypeError)),
         {| trace := trace st ++ [workerError TypeError]; array := array st |})).
Proof.
  intros Hkey Hmethod [Hpath|Hpath]; split; intros Hbody;
    unfold McpServer.fetch; apply caught;
    enter_post Hkey Hmethod Hpath;
    unfold McpServer.request_json; rewrite Hbody;
    first [ apply bind_threw; reflexivity
          | erewrite bind_run by reflexivity; apply bind_threw; reflexivity ].
Qed.

Lemma fields_read (parsed : Json) (keys : list JSString) (st : Store) :
  parsed <> JNull ->
  McpServer.destructure parsed keys st = (Returned (map (property parsed) keys), st).
Proof.
  intros Hnonnull. unfold McpServer.destructure.
  destruct parsed; try reflexivity. now elim Hnonnull.
Qed.

(** X12: with the account set up, a POST to /get-memory whose body is a
    JSON value other than null is answered 400, the ledger untouched, when
    user_address or topic is missing or falsy.  With two non-empty strings
    [readContract] is called once, for the latest record under the key of the
    topic, and it throws before anything is sent, the [abi] being signatures
    that were never parsed: the answer is 500 with the TypeError, which is
    printed, whatever the ledger holds. *)
Theorem get_memory_route (request : McpServer.Request) (account : JSString)
    (parsed : Json) (st : Store) :
  privateKeyToAccount_result w (McpServer.keyLiteral env) = Returned account ->
  McpServer.method request = lit "POST" ->
  McpServer.pathname request = lit "/get-memory" ->
  JSON_parse (McpServer.body request) = Some parsed ->
  parsed <> JNull ->
  ((exists key, In key [lit "user_address"; lit "topic"]
                /\ truthyValue (property parsed key) = false) ->
   exists response : McpServer.Response,
     McpServer.fetch w request env st = (Returned (Some response), st)
     /\ McpServer.status response = 400
     /\ McpServer.responseBody response
        = McpServer.JsonBody
            (JObject
               [(lit "success", JBool false);
                (lit "error",
                 JString (lit "Missing required fields: user_address, topic"))]))
  /\ (forall user t,
        property parsed (lit "user_address") = Value (JString user) -> user <> [] ->
        property parsed (lit "topic") = Value (JString t) -> t <> [] ->
        exists response : McpServer.Response,
          McpServer.fetch w request env st
          = (Returned (Some response),
             {| trace := trace st ++ [LedgerRead (workerRead env user t);
                                      workerError TypeError];
                array := array st |})
          /\ McpServer.status response = 500
          /\ McpServer.responseBody response = McpServer.FailureBody TypeError).
Proof.
  intros Hkey Hmethod Hpath Hbody Hnonnull.
  assert (Hjson : McpServer.request_json request st = (Returned parsed, st))
    by (unfold McpServer.request_json; now rewrite Hbody).
  pose proof (fields_read parsed [lit "user_address"; lit "topic"] st Hnonnull)
    as Hfields.
  split.
  - intros [key [Hin Hfalsy]].
    assert (Hguard :
      negb (truthyValue (property parsed (lit "user_address")))
      || negb (truthyValue (property parsed (lit "topic"))) = true).
    { rewrite !orb_true_iff, !negb_true_iff.
      destruct Hin as [<-|[<-|[]]]; auto. }
    eexists. split.
    { unfold McpServer.fetch. apply try_catch_returned.
      enter_post Hkey Hmethod Hpath.
      erewrite bind_run by exact Hjson. erewrite bind_run by exact Hfields.
      cbn [map nth]. rewrite Hguard. reflexivity. }
    split; reflexivity.
  - intros user t Hu Hune Ht Htne.
    apply truthy_iff in Hune, Htne.
    exists (McpServer.failureResponse TypeError). split; [|split; reflexivity].
    pose proof (caught
      (fun st0 => (Threw TypeError,
         {| trace := trace st0 ++ [LedgerRead (workerRead env user t)];
            array := array st0 |})) TypeError st _ eq_refl) as Hshape.
    cbn [trace array] in Hshape. rewrite <- app_assoc in Hshape. cbn [app] in Hshape.
    rewrite <- Hshape. unfold McpServer.fetch, try_catch.
    enter_post Hkey Hmethod Hpath.
    erewrite bind_run by exact Hjson. erewrite bind_run by exact Hfields.
    cbn [map nth]. rewrite Hu, Ht. cbn [truthyValue McpServer.asString].
    rewrite Hune, Htne. cbn [negb orb].
    erewrite bind_threw; [reflexivity|].
    fold (workerRead env user t).
    apply readContract_record_refused. apply worker_abi_refuses.
Qed.

(** X13: with the account set up and three non-empty strings in the body,
    [writeContract] is called once and throws before anything is sent, the
    [abi] being signatures that were never parsed: the TypeError is printed
    and the answer is 500 with it, whatever the ledger would do; the call is
    not repeated. *)
Theorem store_write_failure_answers_500 (request : McpServer.Request)
    (account : JSString) (parsed : Json) (user t c : JSString) (st : Store) :
  privateKeyToAccount_result w (McpServer.keyLiteral env) = Returned account ->
  McpServer.method request = lit "POST" ->
  McpServer.pathname request = lit "/store-memory" ->
  JSON_parse (McpServer.body request) = Some parsed ->
  property parsed (lit "user_address") = Value (JString user) -> user <> [] ->
  property parsed (lit "topic") = Value (JString t) -> t <> [] ->
  property parsed (lit "content") = Value (JString c) -> c <> [] ->
  McpServer.fetch w request env st
  = (Returned (Some (McpServer.failureResponse TypeError)),
     {| trace := trace st ++ [LedgerWrite (workerWrite env user t c);
                              workerError TypeError];
        array := array st |})
  /\ McpServer.status (McpServer.failureResponse TypeError) = 500
  /\ McpServer.responseBody (McpServer.failureResponse TypeError)
     = McpServer.FailureBody TypeError.
Proof.
  intros Hkey Hmethod Hpath Hbody Hu Hune Ht Htne Hc Hcne.
  assert (Hnonnull : parsed <> JNull) by (intros ->; discriminate Hu).
  assert (Hjson : McpServer.request_json request st = (Returned parsed, st))
    by (unfold McpServer.request_json; now rewrite Hbody).
  pose proof (fields_read parsed [lit "user_address"; lit "topic"; lit "content"]
                st Hnonnull) as Hfields.
  apply truthy_iff in Hune, Htne, Hcne.
  split; [|split; reflexivity].
  pose proof (caught
    (fun st0 => (Threw TypeError,
       {| trace := trace st0 ++ [LedgerWrite (workerWrite env user t c)];
          array := array st0 |})) TypeError st _ eq_refl) as Hshape.
  cbn [trace array] in Hshape. rewrite <- app_assoc in Hshape. cbn [app] in Hshape.
  rewrite <- Hshape. unfold McpServer.fetch, try_catch.
  enter_post Hkey Hmethod Hpath.
  erewrite bind_run by exact Hjson. erewrite bind_run by exact Hfields.
  cbn [map nth]. rewrite Hu, Ht, Hc. cbn [truthyValue McpServer.asString].
  rewrite Hune, Htne, Hcne. cbn [negb orb].
  erewrite bind_threw; [reflexivity|].
  fold (workerWrite env user t c).
  apply writeContract_refused. apply worker_abi_refuses.
Qed.

Lemma countReads_app (a b : list Event) :
  countReads (a ++ b) = (countReads a + countReads b)%nat.
Proof. unfold countReads. now rewrite filter_app, length_app. Qed.

(** Every run of the handler on a request of the type it declares: it
    returns a response, and what it did to the ledger depends on the route. *)
Lemma fetch_runs (request : McpServer.Request) (st : Store) :
  WellTyped request ->
  exists (response : McpServer.Response) (events : list Event),
    McpServer.fetch w request env st
    = (Returned (Some response),
       {| trace := trace st ++ events; array := array st |})
    /\ In (McpServer.status response) statuses
    /\ (countReads events + countWrites events <= 1)%nat
    /\ (countWrites events <> 0%nat ->
        McpServer.method request = lit "POST"
        /\ McpServer.pathname request = lit "/store-memory")
    /\ (countReads events <> 0%nat ->
        McpServer.method request = lit "POST"
        /\ McpServer.pathname request = lit "/get-memory").
Proof.
  intros Hwell.
  assert (Hquiet : forall response : McpServer.Response,
    In (McpServer.status response) statuses ->
    exists (response' : McpServer.Response) (events : list Event),
      (Returned (Some response), st)
      = (Returned (Some response'),
         {| trace := trace st ++ events; array := array st |})
      /\ In (McpServer.status response') statuses
      /\ (countReads events + countWrites events <= 1)%nat
      /\ (countWrites events <> 0%nat ->
          McpServer.method request = lit "POST"
          /\ McpServer.pathname request = lit "/store-memory")
      /\ (countReads events <> 0%nat ->
          McpServer.method request = lit "POST"
          /\ McpServer.pathname request = lit "/get-memory")).
  { intros response Hstatus. exists response, []. rewrite app_nil_r. destruct st.
    repeat split; cbn in *; auto; try lia; try congruence. }
  assert (Hfail : forall e : JSError,
    exists (response' : McpServer.Response) (events : list Event),
      (Returned (Some (McpServer.failureResponse e)),
       {| trace := trace st ++ [workerError e]; array := array st |})
      = (Returned (Some response'),
         {| trace := trace st ++ events; array := array st |})
      /\ In (McpServer.status response') statuses
      /\ (countReads events + countWrites events <= 1)%nat
      /\ (countWrites events <> 0%nat ->
          McpServer.method request = lit "POST"
          /\ McpServer.pathname request = lit "/store-memory")
      /\ (countReads events <> 0%nat ->
          McpServer.method request = lit "POST"
          /\ McpServer.pathname request = lit "/get-memory")).
  { intros e. eexists. exists [workerError e].
    repeat split; cbn in *; auto 10; try lia; try congruence. }
  assert (Hnull : forall parsed : Json, parsed = JNull \/ parsed <> JNull)
    by (intros parsed; destruct parsed; auto; right; discriminate).
  unfold McpServer.fetch, try_catch.
  unfold bind at 1, privateKeyToAccount.
  destruct (privateKeyToAccount_result w (McpServer.keyLiteral env)) as [account|e];
    [|apply Hfail].
  destruct (str_eqb (McpServer.method request) (lit "GET"));
    [apply Hquiet; cbn; auto 10|].
  destruct (str_eqb (McpServer.method request) (lit "POST")) eqn:Hpost; cbn [andb].
  2:{ destruct (str_eqb (McpServer.method request) (lit "OPTIONS"));
        apply Hquiet; cbn; auto 10. }
  apply str_eqb_eq in Hpost.
  destruct (str_eqb (McpServer.pathname request) (lit "/store-memory")) eqn:Hstore.
  { apply str_eqb_eq in Hstore.
    unfold bind at 1, McpServer.request_json.
    destruct (JSON_parse (McpServer.body request)) as [parsed|] eqn:Hparse;
      [|apply Hfail].
    unfold ret at 1. unfold bind at 1.
    destruct (Hnull parsed) as [->|Hnonnull]; [apply Hfail|].
    rewrite (fields_read _ _ _ Hnonnull). cbn [map nth].
    match goal with
    | |- context [if ?g then _ else _] =>
        destruct g eqn:Hguard; [apply Hquiet; cbn; auto 10|]
    end.
    apply orb_false_iff in Hguard. destruct Hguard as [Hguard Hc].
    apply orb_false_iff in Hguard. destruct Hguard as [Hu Ht].
    apply negb_false_iff in Hu, Ht, Hc.
    destruct (McpServer.asString (property parsed (lit "user_address")))
      as [user|] eqn:Eu;
      [|elim (Hwell parsed _ Hparse (or_introl eq_refl) Hu Eu)].
    destruct (McpServer.asString (property parsed (lit "topic")))
      as [t|] eqn:Et;
      [|elim (Hwell parsed _ Hparse (or_intror (or_introl eq_refl)) Ht Et)].
    destruct (McpServer.asString (property parsed (lit "content")))
      as [c|] eqn:Ec;
      [|elim (Hwell parsed _ Hparse
                (or_intror (or_intror (or_introl eq_refl))) Hc Ec)].
    unfold bind at 1. erewrite writeContract_refused by apply worker_abi_refuses.
    unfold bind, console_error, emit, ret. cbn [trace array].
    eexists. eexists (cons _ (cons (workerError TypeError) nil)).
    (split; [cbn [trace array]; rewrite <- ?app_assoc; reflexivity|]).
    repeat split; cbn in *; auto 10; try lia; try congruence. }
  destruct (str_eqb (McpServer.pathname request) (lit "/get-memory")) eqn:Hget.
  { apply str_eqb_eq in Hget.
    unfold bind at 1, McpServer.request_json.
    destruct (JSON_parse (McpServer.body request)) as [parsed|] eqn:Hparse;
      [|apply Hfail].
    unfold ret at 1. unfold bind at 1.
    destruct (Hnull parsed) as [->|Hnonnull]; [apply Hfail|].
    rewrite (fields_read _ _ _ Hnonnull). cbn [map nth].
    match goal with
    | |- context [if ?g then _ else _] =>
        destruct g eqn:Hguard; [apply Hquiet; cbn; auto 10|]
    end.
    apply orb_false_iff in Hguard. destruct Hguard as [Hu Ht].
    apply negb_false_iff in Hu, Ht.
    destruct (McpServer.asString (property parsed (lit "user_address")))
      as [user|] eqn:Eu;
      [|elim (Hwell parsed _ Hparse (or_introl eq_refl) Hu Eu)].
    destruct (McpServer.asString (property parsed (lit "topic")))
      as [t|] eqn:Et;
      [|elim (Hwell parsed _ Hparse (or_intror (or_introl eq_refl)) Ht Et)].
    unfold bind at 1.
    erewrite readContract_record_refused by apply worker_abi_refuses.
    unfold bind, console_error, emit, ret. cbn [trace array].
    eexists. eexists (cons _ (cons (workerError TypeError) nil)).
    (split; [cbn [trace array]; rewrite <- ?app_assoc; reflexivity|]).
    repeat split; cbn in *; auto 10; try lia; try congruence. }
  destruct (str_eqb (McpServer.method request) (lit "OPTIONS"));
    apply Hquiet; cbn; auto 10.
Qed.

(** X14: the handler never rejects: whatever the bindings, the ledger and
    the request, of the type the handler declares, [fetch] returns a
    response, and its status is one of 200, 204, 400, 404 and 500. *)
Theorem fetch_never_rejects (request : McpServer.Request) (st : Store) :
  WellTyped request ->
  exists (response : McpServer.Response) (st' : Store),
    McpServer.fetch w request env st = (Returned (Some response), st')
    /\ In (McpServer.status response) statuses.
Proof.
  intros Hwell.
  destruct (fetch_runs request st Hwell) as [response [events [Hrun [Hstatus _]]]].
  exists response. eexists. split; [exact Hrun | exact Hstatus].
Qed.

(** X15: one request costs at most one ledger call; a write is made only
    by a POST to /store-memory and a read only by a POST to /get-memory. *)
Theorem fetch_ledger_budget (request : McpServer.Request) (st : Store) :
  WellTyped request ->
  (countReads (trace (snd (McpServer.fetch w request env st)))
   + countWrites (trace (snd (McpServer.fetch w request env st)))
   <= countReads (trace st) + countWrites (trace st) + 1)%nat
  /\ (countWrites (trace (snd (McpServer.fetch w request env st)))
      <> countWrites (trace st) ->
      McpServer.method request = lit "POST"
      /\ McpServer.pathname request = lit "/store-memory")
  /\ (countReads (trace (snd (McpServer.fetch w request env st)))
      <> countReads (trace st) ->
      McpServer.method request = lit "POST"
      /\ McpServer.pathname request = lit "/get-memory").
Proof.
  intros Hwell.
  destruct (fetch_runs request st Hwell)
    as [response [events [Hrun [_ [Hone [Hwrite Hread]]]]]].
  rewrite Hrun. cbn [snd trace]. rewrite countReads_app, countWrites_app.
  split; [lia|]. split; intros H; [apply Hwrite | apply Hread]; lia.
Qed.

(** X26: no POST is answered 200: whatever the bindings, the ledger and the
    body, of the type the handler declares, a POST is answered 400, 404 or
    500, and 404 only on a path that is neither /store-memory nor
    /get-memory.  The two success responses of the routes are never sent, the
    contract calls before them throwing on the [abi] that was never parsed. *)
Theorem post_is_never_answered_200 (request : McpServer.Request) (st : Store) :
  WellTyped request ->
  McpServer.method request = lit "POST" ->
  exists (response : McpServer.Response) (st' : Store),
    McpServer.fetch w request env st = (Returned (Some response), st')
    /\ In (McpServer.status response) [400; 404; 500]
    /\ (McpServer.status response = 404 ->
        McpServer.pathname request <> lit "/store-memory"
        /\ McpServer.pathname request <> lit "/get-memory").
Proof.
  intros Hwell Hmethod.
  assert (Hfail : forall (e : JSError) (st' : Store),
    exists (response : McpServer.Response) (st'' : Store),
      (Returned (Some (McpServer.failureResponse e)), st')
      = (Returned (Some response), st'')
      /\ In (McpServer.status response) [400; 404; 500]
      /\ (McpServer.status response = 404 ->
          McpServer.pathname request <> lit "/store-memory"
          /\ McpServer.pathname request <> lit "/get-memory")).
  { intros e st'. eexists. eexists. split; [reflexivity|].
    split; [cbn; auto|]. cbn. discriminate. }
  assert (Hmissing : forall (fields : string) (st' : Store),
    exists (response : McpServer.Response) (st'' : Store),
      (Returned (Some (McpServer.missingFields fields)), st')
      = (Returned (Some response), st'')
      /\ In (McpServer.status response) [400; 404; 500]
      /\ (McpServer.status response = 404 ->
          McpServer.pathname request <> lit "/store-memory"
          /\ McpServer.pathname request <> lit "/get-memory")).
  { intros fields st'. eexists. eexists. split; [reflexivity|].
    split; [cbn; auto|]. cbn. discriminate. }
  assert (Hnull : forall parsed : Json, parsed = JNull \/ parsed <> JNull)
    by (intros parsed; destruct parsed; auto; right; discriminate).
  unfold McpServer.fetch, try_catch.
  unfold bind at 1, privateKeyToAccount.
  destruct (privateKeyToAccount_result w (McpServer.keyLiteral env)) as [account|e];
    [|apply Hfail].
  rewrite Hmethod.
  change (str_eqb (lit "POST") (lit "GET")) with false.
  change (str_eqb (lit "POST") (lit "POST")) with true.
  change (str_eqb (lit "POST") (lit "OPTIONS")) with false.
  cbn [andb].
  destruct (str_eqb (McpServer.pathname request) (lit "/store-memory")) eqn:Hstore.
  { unfold bind at 1, McpServer.request_json.
    destruct (JSON_parse (McpServer.body request)) as [parsed|] eqn:Hparse;
      [|apply Hfail].
    unfold ret at 1. unfold bind at 1.
    destruct (Hnull parsed) as [->|Hnonnull]; [apply Hfail|].
    rewrite (fields_read _ _ _ Hnonnull). cbn [map nth].
    match goal with
    | |- context [if ?g then _ else _] =>
        destruct g eqn:Hguard; [apply Hmissing|]
    end.
    apply orb_false_iff in Hguard. destruct Hguard as [Hguard Hc].
    apply orb_false_iff in Hguard. destruct Hguard as [Hu Ht].
    apply negb_false_iff in Hu, Ht, Hc.
    destruct (McpServer.asString (property parsed (lit "user_address")))
      as [user|] eqn:Eu;
      [|elim (Hwell parsed _ Hparse (or_introl eq_refl) Hu Eu)].
    destruct (McpServer.asString (property parsed (lit "topic")))
      as [t|] eqn:Et;
      [|elim (Hwell parsed _ Hparse (or_intror (or_introl eq_refl)) Ht Et)].
    destruct (McpServer.asString (property parsed (lit "content")))
      as [c|] eqn:Ec;
      [|elim (Hwell parsed _ Hparse
                (or_intror (or_intror (or_introl eq_refl))) Hc Ec)].
    unfold bind at 1. erewrite writeContract_refused by apply worker_abi_refuses.
    unfold bind, console_error, emit, ret. apply Hfail. }
  destruct (str_eqb (McpServer.pathname request) (lit "/get-memory")) eqn:Hget.
  { unfold bind at 1, McpServer.request_json.
    destruct (JSON_parse (McpServer.body request)) as [parsed|] eqn:Hparse;
      [|apply Hfail].
    unfold ret at 1. unfold bind at 1.
    destruct (Hnull parsed) as [->|Hnonnull]; [apply Hfail|].
    rewrite (fields_read _ _ _ Hnonnull). cbn [map nth].
    match goal with
    | |- context [if ?g then _ else _] =>
        destruct g eqn:Hguard; [apply Hmissing|]
    end.
    apply orb_false_iff in Hguard. destruct Hguard as [Hu Ht].
    apply negb_false_iff in Hu, Ht.
    destruct (McpServer.asString (property parsed (lit "user_address")))
      as [user|] eqn:Eu;
      [|elim (Hwell parsed _ Hparse (or_introl eq_refl) Hu Eu)].
    destruct (McpServer.asString (property parsed (lit "topic")))
      as [t|] eqn:Et;
      [|elim (Hwell parsed _ Hparse (or_intror (or_introl eq_refl)) Ht Et)].
    unfold bind at 1.
    erewrite readContract_record_refused by apply worker_abi_refuses.
    unfold bind, console_error, emit, ret. apply Hfail. }
  eexists. eexists. split; [reflexivity|]. split; [cbn; auto|].
  intros _. split; intros Heq; rewrite Heq in *; discriminate.
Qed.

(** X22: [storeMemoryHandler] never returns a transaction hash: whatever
    its arguments and whatever the ledger would do, its one call of
    [writeContract] throws a TypeError before anything is sent, the [abi] of
    [createTools] being signatures that were never parsed, and the handler,
    which has no catch, rejects with it. *)
Theorem store_handler_always_rejects (user t c : JSString) (st : Store) :
  Tools.storeMemoryHandler w env user t c st
  = (Threw TypeError,
     {| trace := trace st
                 ++ [LedgerWrite
                       {| write_address := McpServer.MEMORY_VAULT_ADDRESS env;
                          write_user := Some user;
                          write_topic := keccak256 (stringToBytes t);
                          write_content := c |}];
        array := array st |}).
Proof.
  unfold Tools.storeMemoryHandler. apply bind_threw.
  apply writeContract_refused. reflexivity.
Qed.

(** X23: [getLatestMemoryHandler] never returns a record: whatever its
    arguments and whatever the ledger holds, its one call of [readContract]
    throws a TypeError before anything is sent, for the same reason, and the
    handler rejects with it. *)
Theorem get_handler_always_rejects (user t : JSString) (st : Store) :
  Tools.getLatestMemoryHandler w env user t st
  = (Threw TypeError,
     {| trace := trace st
                 ++ [LedgerRead
                       {| read_address := McpServer.MEMORY_VAULT_ADDRESS env;
                          read_call :=
                            CallGetLatestMemory (Some user)
                                                (keccak256 (stringToBytes t)) |}];
        array := array st |}).
Proof.
  unfold Tools.getLatestMemoryHandler. apply bind_threw.
  apply readContract_record_refused. reflexivity.
Qed.

End WorkerFailures.

(* ================================================================== *)
(** * The decision schema and null *)
(* ================================================================== *)

Section DecisionNulls.

Variable config : AgentApp.Config.
Variable w : World.



End DecisionNulls.

(* ================================================================== *)
(** * The second agent: the reply and the loop *)
(* ================================================================== *)

Section ReadOnlySteps.

Context {A B : Type}.

Lemma ReadOnly_ret (a : A) : ReadOnly 0 (ret a).
Proof. intros st. cbn. split; lia. Qed.

Lemma ReadOnly_throw (e : JSError) : ReadOnly 0 (@throw A e).
Proof. intros st. cbn. split; lia. Qed.

Lemma ReadOnly_lift (o : Outcome A) : ReadOnly 0 (lift o).
Proof. intros st. unfold lift. cbn [snd]. split; lia. Qed.

Lemma ReadOnly_bind (j k : nat) (m : M A) (f : A -> M B) :
  ReadOnly j m -> (forall a, ReadOnly k (f a)) -> ReadOnly (j + k) (bind m f).
Proof.
  intros Hm Hf st. unfold bind. specialize (Hm st).
  destruct (m st) as [[a|e] st']; cbn [snd] in *.
  - specialize (Hf a st'). split; [|lia]. destruct Hf as [-> _]. apply Hm.
  - split; [apply Hm | lia].
Qed.

Lemma ReadOnly_try (j k : nat) (body : M A) (handler : JSError -> M A) :
  ReadOnly j body -> (forall e, ReadOnly k (handler e)) ->
  ReadOnly (j + k) (try_catch body handler).
Proof.
  intros Hm Hh st. unfold try_catch. specialize (Hm st).
  destruct (body st) as [[a|e] st']; cbn [snd] in *.
  - split; [apply Hm | lia].
  - specialize (Hh e st'). split; [|lia]. destruct Hh as [-> _]. apply Hm.
Qed.

End ReadOnlySteps.

Section SecondAgentLoop.

Variable config : Agent2.Config.

Lemma ReadOnly_emit (e : Event) :
  isWrite e = false -> isModelCall e = false -> ReadOnly 0 (emit e).
Proof.
  intros Hw Hm st. unfold emit. cbn [snd trace].
  rewrite countWrites_app, countModelCalls_app.
  unfold countWrites, countModelCalls. cbn [filter]. rewrite Hw, Hm. cbn. lia.
Qed.

Lemma ReadOnly_model (w : World) (r : LlmRequest) : ReadOnly 1 (generateText w r).
Proof.
  intros st. unfold generateText, bind, emit. cbn [snd trace].
  rewrite countWrites_app, countModelCalls_app. cbn. lia.
Qed.

Lemma ReadOnly_record (w : World) (abi : list AbiItem) (c : ContractRead) :
  ReadOnly 0 (readContract_record w abi c).
Proof.
  unfold readContract_record. apply (ReadOnly_bind 0 0).
  - now apply ReadOnly_emit.
  - intros _. apply (ReadOnly_bind 0 0); [apply ReadOnly_lift|]. intros outputs.
    apply (ReadOnly_bind 0 0); [|intros r; apply ReadOnly_lift].
    unfold requestRecord. destruct (readFault w c); [apply ReadOnly_throw|].
    destruct (contractRecord w c); [apply ReadOnly_ret | apply ReadOnly_throw].
Qed.

Lemma ReadOnly_count (w : World) (abi : list AbiItem) (address user : Address)
    (key : JSString) :
  ReadOnly 0 (readContract_count w abi address user key).
Proof.
  unfold readContract_count. apply (ReadOnly_bind 0 0).
  - now apply ReadOnly_emit.
  - intros _. apply (ReadOnly_bind 0 0); [apply ReadOnly_lift|]. intros outputs.
    apply (ReadOnly_bind 0 0); [|intros count; apply ReadOnly_lift].
    destruct (readFault w _); [apply ReadOnly_throw | apply ReadOnly_ret].
Qed.

Lemma ReadOnly_push (m : Memory) : ReadOnly 0 (push m).
Proof. intros st. unfold push. cbn [snd trace]. split; lia. Qed.

Lemma ReadOnly_forRange (body : Z -> M unit) :
  (forall i, ReadOnly 0 (body i)) -> forall n i, ReadOnly 0 (forRange n i body).
Proof.
  intros Hbody n. induction n as [|n IH]; intros i; cbn [forRange].
  - apply ReadOnly_ret.
  - apply (ReadOnly_bind 0 0); [apply Hbody | intros _; apply IH].
Qed.

Lemma ReadOnly_forOf {X : Type} (body : X -> M unit) (l : list X) :
  (forall x, ReadOnly 0 (body x)) -> ReadOnly 0 (forOf l body).
Proof.
  intros Hbody. induction l as [|x l IH]; cbn [forOf].
  - apply ReadOnly_ret.
  - apply (ReadOnly_bind 0 0); [apply Hbody | intros _; exact IH].
Qed.

Lemma fetchUserMemories_read_only (w : World) :
  ReadOnly 0 (Agent2.fetchUserMemories config w).
Proof.
  unfold Agent2.fetchUserMemories, Agent2.scan.
  apply (ReadOnly_bind 0 0);
    [intros st; unfold newArray; cbn [snd trace]; split; lia|]. intros _.
  apply (ReadOnly_bind 0 0);
    [|intros _ st; unfold getArray; cbn [snd trace]; split; lia].
  apply ReadOnly_forOf. intros t. unfold Agent2.fetchTopic.
  apply (ReadOnly_try 0 0); [|intros _; apply ReadOnly_ret].
  apply (ReadOnly_bind 0 0); [apply ReadOnly_count|]. intros count.
  apply ReadOnly_forRange. intros i.
  apply (ReadOnly_bind 0 0); [apply ReadOnly_record | intros mem; apply ReadOnly_push].
Qed.

Lemma turn_read_only (w : World) (userMessage : JSString) :
  ReadOnly 1 (Agent2Cli.turn config w userMessage).
Proof.
  unfold Agent2Cli.turn.
  apply (ReadOnly_bind 0 1); [apply fetchUserMemories_read_only|]. intros memories.
  apply (ReadOnly_bind 1 0).
  - unfold Agent2Cli.replyWithMemories.
    apply (ReadOnly_bind 1 0); [apply ReadOnly_model | intros text; apply ReadOnly_ret].
  - intros reply. now apply ReadOnly_emit.
Qed.

Lemma loop_read_only (inputs : list (JSString * World)) :
  ReadOnly (length inputs) (Agent2Cli.loop config inputs).
Proof.
  induction inputs as [|[userMessage w] rest IH]; cbn [Agent2Cli.loop length].
  - now apply ReadOnly_emit.
  - apply (ReadOnly_bind 0 (S (length rest))); [now apply ReadOnly_emit|]. intros _.
    apply (ReadOnly_bind 1 (length rest)); [apply turn_read_only | intros _; exact IH].
Qed.

(** X18: the second agent is read-only: however many utterances it is
    given and whatever the ledger and the model answer, a run of [main] makes
    no ledger write, and it asks the model at most once per utterance. *)
Theorem agent2_is_read_only (inputs : list (JSString * World)) (st : Store) :
  countWrites (trace (snd (Agent2Cli.main config inputs st))) = countWrites (trace st)
  /\ (countModelCalls (trace (snd (Agent2Cli.main config inputs st)))
      <= countModelCalls (trace st) + length inputs)%nat.
Proof.
  revert st. change (ReadOnly (length inputs) (Agent2Cli.main config inputs)).
  unfold Agent2Cli.main.
  repeat (apply (ReadOnly_bind 0 (length inputs)); [now apply ReadOnly_emit | intros _]).
  apply loop_read_only.
Qed.

Variable w : World.

Lemma turn2_run (userMessage : JSString) (st : Store) :
  exists st1 : Store,
    Agent2.fetchUserMemories config w st
    = (Returned (flat_map (readable config w) Agent2.knownTopics), st1)
    /\ Agent2Cli.turn config w userMessage st
       = match generateText_result w
                 (Agent2Cli.replyRequest config userMessage
                    (flat_map (readable config w) Agent2.knownTopics)) with
         | Returned reply =>
             (Returned tt,
              {| trace := trace st1
                          ++ [ModelCall (Agent2Cli.replyRequest config userMessage
                                (flat_map (readable config w) Agent2.knownTopics));
                              reply2Log reply];
                 array := array st1 |})
         | Threw e =>
             (Threw e,
              {| trace := trace st1
                          ++ [ModelCall (Agent2Cli.replyRequest config userMessage
                                (flat_map (readable config w) Agent2.knownTopics))];
                 array := array st1 |})
         end.
Proof.
  destruct (scan_run config w Agent2.knownTopics st) as [st1 Hscan].
  exists st1. split; [exact Hscan|].
  unfold Agent2Cli.turn. erewrite bind_run by exact Hscan.
  unfold Agent2Cli.replyWithMemories, generateText, bind, emit, ret, console_log, emit.
  cbn [trace array].
  destruct (generateText_result w _) as [reply|e]; [|reflexivity].
  cbn [trace array]. rewrite <- app_assoc. reflexivity.
Qed.


(** X20: when the completion rejects, the turn of the second agent rejects
    with the same error after the scan: nothing is printed for the turn, the
    loop ends there without taking the utterances behind it, and [main]
    rejects. *)
Theorem agent2_turn_rejects (userMessage : JSString) (e : JSError)
    (rest : list (JSString * World)) (st : Store) :
  generateText_result w
    (Agent2Cli.replyRequest config userMessage
       (flat_map (readable config w) Agent2.knownTopics)) = Threw e ->
  (exists st1 : Store,
     Agent2.fetchUserMemories config w
       {| trace := trace st ++ [Agent2Cli.question]; array := array st |}
     = (Returned (flat_map (readable config w) Agent2.knownTopics), st1)
     /\ Agent2Cli.loop config ((userMessage, w) :: rest) st
        = (Threw e,
           {| trace := trace st1
                       ++ [ModelCall (Agent2Cli.replyRequest config userMessage
                             (flat_map (readable config w) Agent2.knownTopics))];
              array := array st1 |}))
  /\ fst (Agent2Cli.main config ((userMessage, w) :: rest) st) = Threw e.
Proof.
  intros Hreply.
  assert (Hloop : forall st0 : Store,
    exists st1 : Store,
      Agent2.fetchUserMemories config w
        {| trace := trace st0 ++ [Agent2Cli.question]; array := array st0 |}
      = (Returned (flat_map (readable config w) Agent2.knownTopics), st1)
      /\ Agent2Cli.loop config ((userMessage, w) :: rest) st0
         = (Threw e,
            {| trace := trace st1
                        ++ [ModelCall (Agent2Cli.replyRequest config userMessage
                              (flat_map (readable config w) Agent2.knownTopics))];
               array := array st1 |})).
  { intros st0.
    destruct (turn2_run userMessage
                {| trace := trace st0 ++ [Agent2Cli.question]; array := array st0 |})
      as [st1 [Hscan Hturn]].
    exists st1. split; [exact Hscan|].
    cbn [Agent2Cli.loop]. unfold bind at 1, emit.
    apply bind_threw. now rewrite Hturn, Hreply. }
  split; [apply Hloop|].
  unfold Agent2Cli.main, console_log.
  repeat (unfold bind at 1, emit at 1).
  match goal with
  | |- fst (Agent2Cli.loop _ _ ?s) = _ => destruct (Hloop s) as [st1 [_ Hrun]]
  end.
  now rewrite Hrun.
Qed.

End SecondAgentLoop.

(* ================================================================== *)
(** * The form of a topic key *)
(* ================================================================== *)

Section KeyFormat.

Lemma hexDigit_hex (n : Z) : 0 <= n < 16 -> isHexDigit (hexDigit n) = true.
Proof.
  intros H. unfold isHexDigit, hexDigit.
  destruct (Z.ltb_spec n 10); apply orb_true_iff; [left | right];
    apply andb_true_iff; split; apply Z.leb_le; lia.
Qed.

Lemma digits_shape (bs : list Z) :
  Forall isByte bs ->
  length (flat_map (fun b => [hexDigit (Z.shiftr b 4); hexDigit (Z.land b 15)]) bs)
  = (2 * length bs)%nat
  /\ forallb isHexDigit
       (flat_map (fun b => [hexDigit (Z.shiftr b 4); hexDigit (Z.land b 15)]) bs)
     = true.
Proof.
  induction 1 as [|b bs Hb _ [IHlen IHhex]]; [split; reflexivity|].
  cbn [flat_map app length forallb]. rewrite IHlen, IHhex.
  unfold isByte in Hb. split; [lia|].
  rewrite !hexDigit_hex; [reflexivity | |].
  - change 15 with (Z.ones 4). rewrite Z.land_ones by lia.
    pose proof (Z.mod_pos_bound b (2 ^ 4)). lia.
  - rewrite Z.shiftr_div_pow2 by lia. change (2 ^ 4) with 16.
    split; [apply Z.div_pos; lia | apply Z.div_lt_upper_bound; lia].
Qed.

(** X21: whatever the topic, the empty one included, its key is a
    well-formed bytes32 literal: 0x followed by 64 digits, each 0 to 9 or a
    to f, 66 code units in all. *)
Theorem topicHash_is_bytes32 (t : JSString) :
  length (AgentApp.topicHash t) = 66%nat
  /\ firstn 2 (AgentApp.topicHash t) = lit "0x"
  /\ forallb isHexDigit (skipn 2 (AgentApp.topicHash t)) = true
  /\ Agent2.topicHash t = AgentApp.topicHash t
  /\ McpServer.topicHash t = AgentApp.topicHash t.
Proof.
  destruct (digits_shape (keccak256_bytes (stringToBytes t))
              (keccak256_bytes_range _)) as [Hlen Hhex].
  rewrite keccak256_bytes_length in Hlen.
  unfold AgentApp.topicHash, keccak256, bytesToHex.
  change (lit "0x") with [48; 120]. cbn [app length firstn skipn].
  rewrite Hlen, Hhex. repeat split.
Qed.

End KeyFormat.

(* ================================================================== *)
(** * The further properties at work *)
(* ================================================================== *)

Section FurtherSamples.

(** X1 at work: the slashes of an address in a string open no comment. *)
Lemma stripComments_keeps_strings_witness :
  Plain (lit "{ ")
  /\ Wrangler.stripComments (lit "{ " ++ [34] ++ lit "http://x" ++ [34] ++ lit " }")
     = lit "{ " ++ [34] ++ lit "http://x" ++ [34] ++ lit " }".
Proof.
  assert (Hpre : Plain (lit "{ "))
    by (split; intros H; vm_compute in H; intuition discriminate).
  split; [exact Hpre|].
  rewrite (stripComments_keeps_strings (lit "{ ") (lit "http://x") (lit " }") Hpre).
  - reflexivity.
  - intros H. vm_compute in H. intuition discriminate.
  - intros H. vm_compute in H. intuition discriminate.
Defined.

(** X2 at work: a line comment goes with its line feed. *)
Lemma stripComments_line_comment_witness :
  ~ In 10 (lit " note")
  /\ Wrangler.stripComments (lit "{" ++ [47; 47] ++ lit " note" ++ [10] ++ lit "}")
     = lit "{}".
Proof.
  assert (Htext : ~ In 10 (lit " note"))
    by (intros H; vm_compute in H; intuition discriminate).
  split; [exact Htext|].
  rewrite (proj1 (stripComments_line_comment (lit "{") (lit " note") (lit "}")
                    ltac:(split; intros H; vm_compute in H; intuition discriminate)
                    Htext)).
  reflexivity.
Defined.

(** X3 at work: the brace behind the comment is lost with it. *)
Lemma stripComments_block_comment_witness :
  ~ In 47 (lit " note ")
  /\ Wrangler.stripComments (lit "{" ++ [47; 42] ++ lit " note " ++ [42; 47] ++ lit "}")
     = lit "{".
Proof.
  assert (Hbody : ~ In 47 (lit " note "))
    by (intros H; vm_compute in H; intuition discriminate).
  split; [exact Hbody|].
  change (lit "}") with (125 :: []).
  rewrite (stripComments_block_comment (lit "{") (lit " note ") [] 125
             ltac:(split; intros H; vm_compute in H; intuition discriminate)
             Hbody).
  reflexivity.
Defined.

(** X4 at work: the comma before the closing brace goes, the blank
    stays. *)
Lemma removeTrailingCommas_rule_witness :
  forallb isWhiteSpace (lit " ") = true
  /\ Wrangler.removeTrailingCommas (lit "{1" ++ 44 :: lit " " ++ 125 :: [])
     = lit "{1 }".
Proof.
  split; [reflexivity|].
  rewrite (proj1 (removeTrailingCommas_rule (lit "{1") (lit " ") [] 125
                    eq_refl (or_introl eq_refl))).
  reflexivity.
Defined.

(** X5 at work: the model is down and the loop of the first agent ends
    with its error. *)
Lemma turn_rejects_with_reply_witness :
  generateText_result Faults.modelDown
    (AgentApp.answerRequest Samples.config (lit "hi")
       (retrieved Samples.config Faults.modelDown AgentApp.topics))
    = Threw Faults.overloaded
  /\ fst (AgentApp.loop Samples.config
            [(lit "hi", Faults.modelDown); (lit "again", Samples.online)] emptyStore)
     = Threw Faults.overloaded.
Proof.
  split; [reflexivity|].
  destruct (turn_rejects_with_reply Samples.config Faults.modelDown (lit "hi")
              Faults.overloaded [(lit "again", Samples.online)] emptyStore eq_refl)
    as [st' [_ [_ [_ Hloop]]]].
  now rewrite Hloop.
Defined.

(** X6 at work: the reply came, the decision did not. *)
Lemma turn_rejects_with_decision_witness :
  generateText_result Faults.decisionDown
    (AgentApp.decideRequest Samples.config (lit "hi")
       (retrieved Samples.config Faults.decisionDown AgentApp.topics))
    = Threw Faults.overloaded
  /\ fst (AgentApp.loop Samples.config
            [(lit "hi", Faults.decisionDown); (lit "again", Samples.online)] emptyStore)
     = Threw Faults.overloaded.
Proof.
  split; [reflexivity|].
  destruct (turn_rejects_with_decision Samples.config Faults.decisionDown (lit "hi")
              (lit "Hello.") Faults.overloaded [(lit "again", Samples.online)]
              emptyStore eq_refl eq_refl)
    as [st' [_ [_ [_ Hloop]]]].
  now rewrite Hloop.
Defined.

(** X25 at work: the record is there, stamped 2^53, and the first agent
    reads null, where the second agent, whose ABI says uint256, reads it. *)
Lemma unsafe_timestamp_reads_as_absent_witness :
  Ledger.getLatestMemory (memorySet Samples.config Faults.lateStamp (lit "preferences"))
    = Some {| Ledger.timestamp := 2 ^ 53;
              Ledger.writer := lit "0xagent";
              Ledger.content := lit "likes tea" |}
  /\ fst (AgentApp.getLatestMemory Samples.config Faults.lateStamp
            (lit "preferences") emptyStore) = Returned None
  /\ option_map (map timestamp)
       match fst (Agent2.scan Samples.config2 Faults.lateStamp
                    [lit "preferences"] emptyStore) with
       | Returned l => Some l
       | Threw _ => None
       end = Some [2 ^ 53].
Proof.
  split; [reflexivity|]. split; [|vm_compute; reflexivity].
  destruct (unsafe_timestamp_reads_as_absent Samples.config Faults.lateStamp
              (lit "preferences") _ emptyStore eq_refl eq_refl ltac:(cbn; lia))
    as [_ Hrun].
  now rewrite Hrun.
Defined.

(** X10 at work: a key that is none is answered 500. *)
Lemma setup_failure_answers_500_witness :
  privateKeyToAccount_result Faults.badKey (McpServer.keyLiteral Samples.serverEnv)
    = Threw InvalidPrivateKey
  /\ fst (McpServer.fetch Faults.badKey
            {| McpServer.method := lit "GET";
               McpServer.pathname := lit "/";
               McpServer.body := [] |}
            Samples.serverEnv emptyStore)
     = Returned (Some (McpServer.failureResponse InvalidPrivateKey)).
Proof.
  split; [reflexivity|].
  destruct (setup_failure_answers_500 Faults.badKey Samples.serverEnv
              {| McpServer.method := lit "GET";
                 McpServer.pathname := lit "/";
                 McpServer.body := [] |}
              InvalidPrivateKey emptyStore eq_refl) as [Hrun _].
  now rewrite Hrun.
Defined.

(** X11 at work: a body that is not JSON. *)
Lemma malformed_body_answers_500_witness :
  JSON_parse (McpServer.body (Samples.post "/get-memory" (lit "topic=goals"))) = None
  /\ fst (McpServer.fetch Samples.online (Samples.post "/get-memory" (lit "topic=goals"))
            Samples.serverEnv emptyStore)
     = Returned (Some (McpServer.failureResponse SyntaxError)).
Proof.
  assert (Hbody :
    JSON_parse (McpServer.body (Samples.post "/get-memory" (lit "topic=goals"))) = None)
    by (vm_compute; reflexivity).
  split; [exact Hbody|].
  destruct (malformed_body_answers_500 Samples.online Samples.serverEnv
              (Samples.post "/get-memory" (lit "topic=goals")) (lit "0xagent")
              emptyStore eq_refl eq_refl (or_intror eq_refl)) as [Hsyntax _].
  now rewrite (Hsyntax Hbody).
Defined.

(** X12 at work: the ledger holds a record under the topic and the answer
    is 500. *)
Lemma get_memory_route_witness :
  JSON_parse (Samples.json "{'user_address': '0xabc', 'topic': 'goals'}")
    = Some (JObject [(lit "user_address", JString (lit "0xabc"));
                     (lit "topic", JString (lit "goals"))])
  /\ exists response : McpServer.Response,
       fst (McpServer.fetch Samples.online
              (Samples.post "/get-memory"
                 (Samples.json "{'user_address': '0xabc', 'topic': 'goals'}"))
              Samples.serverEnv emptyStore)
       = Returned (Some response)
       /\ McpServer.status response = 500.
Proof.
  assert (Hparse :
    JSON_parse (Samples.json "{'user_address': '0xabc', 'topic': 'goals'}")
    = Some (JObject [(lit "user_address", JString (lit "0xabc"));
                     (lit "topic", JString (lit "goals"))]))
    by (vm_compute; reflexivity).
  split; [exact Hparse|].
  destruct (get_memory_route Samples.online Samples.serverEnv
              (Samples.post "/get-memory"
                 (Samples.json "{'user_address': '0xabc', 'topic': 'goals'}"))
              (lit "0xagent") _ emptyStore eq_refl eq_refl eq_refl Hparse
              ltac:(discriminate))
    as [_ Hfields].
  destruct (Hfields (lit "0xabc") (lit "goals") eq_refl ltac:(discriminate)
              eq_refl ltac:(discriminate)) as [response [Hrun [Hstatus _]]].
  exists response. rewrite Hrun. split; [reflexivity | exact Hstatus].
Defined.

(** X13 at work: the ledger would take the write and the answer is 500. *)
Lemma store_write_failure_answers_500_witness :
  writeContract_result Samples.online
    (workerWrite Samples.serverEnv (lit "0xabc") (lit "goals") (lit "Run"))
    = Returned (lit "0xtx")
  /\ exists response : McpServer.Response,
       fst (McpServer.fetch Samples.online
              (Samples.post "/store-memory"
                 (Samples.json "{'user_address': '0xabc', 'topic': 'goals', 'content': 'Run'}"))
              Samples.serverEnv emptyStore)
       = Returned (Some response)
       /\ McpServer.status response = 500.
Proof.
  split; [reflexivity|].
  assert (Hparse :
    JSON_parse
      (McpServer.body
         (Samples.post "/store-memory"
            (Samples.json "{'user_address': '0xabc', 'topic': 'goals', 'content': 'Run'}")))
    = Some (JObject [(lit "user_address", JString (lit "0xabc"));
                     (lit "topic", JString (lit "goals"));
                     (lit "content", JString (lit "Run"))]))
    by (vm_compute; reflexivity).
  destruct (store_write_failure_answers_500 Samples.online Samples.serverEnv
              (Samples.post "/store-memory"
                 (Samples.json "{'user_address': '0xabc', 'topic': 'goals', 'content': 'Run'}"))
              (lit "0xagent") _ (lit "0xabc") (lit "goals") (lit "Run") emptyStore
              eq_refl eq_refl eq_refl Hparse
              eq_refl ltac:(discriminate) eq_refl ltac:(discriminate)
              eq_refl ltac:(discriminate))
    as [Hrun [Hstatus _]].
  exists (McpServer.failureResponse TypeError).
  rewrite Hrun. split; [reflexivity | exact Hstatus].
Defined.

(** X16 at work: a plain file with an address in it. *)
Lemma plain_file_is_parsed_as_it_stands_witness :
  commentOpens false false Faults.plainFile = false
  /\ trailingComma Faults.plainFile = false
  /\ fst (Wrangler.loadWranglerVars (Returned Faults.plainFile))
     = JObject [(lit "RPC_URL", JString (lit "https://rpc.example"));
                (lit "USER_ADDRESS", JString (lit "0xuser"))].
Proof.
  assert (Hcomments : commentOpens false false Faults.plainFile = false)
    by (vm_compute; reflexivity).
  assert (Hcommas : trailingComma Faults.plainFile = false)
    by (vm_compute; reflexivity).
  split; [exact Hcomments|]. split; [exact Hcommas|].
  rewrite (proj2 (plain_file_is_parsed_as_it_stands Faults.plainFile Hcomments Hcommas)).
  vm_compute. reflexivity.
Defined.



(** X20 at work: the model is down and [main] of the second agent
    rejects. *)
Lemma agent2_turn_rejects_witness :
  generateText_result Faults.modelDown
    (Agent2Cli.replyRequest Samples.config2 (lit "What are my goals?")
       (flat_map (readable Samples.config2 Faults.modelDown) Agent2.knownTopics))
    = Threw Faults.overloaded
  /\ fst (Agent2Cli.main Samples.config2
            [(lit "What are my goals?", Faults.modelDown);
             (lit "And my name?", Samples.online)] emptyStore)
     = Threw Faults.overloaded.
Proof.
  split; [reflexivity|].
  exact (proj2 (agent2_turn_rejects Samples.config2 Faults.modelDown
                  (lit "What are my goals?") Faults.overloaded
                  [(lit "And my name?", Samples.online)] emptyStore eq_refl)).
Defined.

(** X14 at work: a request to store is answered. *)
Lemma fetch_never_rejects_witness :
  WellTyped (Samples.post "/store-memory"
               (Samples.json "{'user_address': '0xabc', 'topic': 'goals', 'content': 'Run'}"))
  /\ exists response : McpServer.Response,
       fst (McpServer.fetch Samples.online
              (Samples.post "/store-memory"
                 (Samples.json "{'user_address': '0xabc', 'topic': 'goals', 'content': 'Run'}"))
              Samples.serverEnv emptyStore) = Returned (Some response)
       /\ In (McpServer.status response) statuses.
Proof.
  assert (Hwell :
    WellTyped (Samples.post "/store-memory"
                 (Samples.json "{'user_address': '0xabc', 'topic': 'goals', 'content': 'Run'}"))).
  { intros parsed key Hparse. vm_compute in Hparse. injection Hparse as <-.
    intros [<-|[<-|[<-|[]]]] _; vm_compute; discriminate. }
  split; [exact Hwell|].
  destruct (fetch_never_rejects Samples.online Samples.serverEnv _ emptyStore Hwell)
    as [response [st' [Hrun Hstatus]]].
  exists response. rewrite Hrun. split; [reflexivity | exact Hstatus].
Defined.

(** X26 at work: the ledger would take the write of a request to store,
    and the answer is not 200. *)
Lemma post_is_never_answered_200_witness :
  WellTyped (Samples.post "/store-memory"
               (Samples.json "{'user_address': '0xabc', 'topic': 'goals', 'content': 'Run'}"))
  /\ writeContract_result Samples.online
       (workerWrite Samples.serverEnv (lit "0xabc") (lit "goals") (lit "Run"))
     = Returned (lit "0xtx")
  /\ exists response : McpServer.Response,
       fst (McpServer.fetch Samples.online
              (Samples.post "/store-memory"
                 (Samples.json "{'user_address': '0xabc', 'topic': 'goals', 'content': 'Run'}"))
              Samples.serverEnv emptyStore) = Returned (Some response)
       /\ In (McpServer.status response) [400; 404; 500].
Proof.
  assert (Hwell :
    WellTyped (Samples.post "/store-memory"
                 (Samples.json "{'user_address': '0xabc', 'topic': 'goals', 'content': 'Run'}"))).
  { intros parsed key Hparse. vm_compute in Hparse. injection Hparse as <-.
    intros [<-|[<-|[<-|[]]]] _; vm_compute; discriminate. }
  split; [exact Hwell|]. split; [reflexivity|].
  destruct (post_is_never_answered_200 Samples.online Samples.serverEnv _ emptyStore
              Hwell eq_refl)
    as [response [st' [Hrun [Hstatus _]]]].
  exists response. rewrite Hrun. split; [reflexivity | exact Hstatus].
Defined.

(** X15 at work: a content of zero is missing, and nothing is written. *)
Lemma fetch_ledger_budget_witness :
  WellTyped (Samples.post "/store-memory"
               (Samples.json "{'user_address': '0xabc', 'topic': 'goals', 'content': 0}"))
  /\ (countReads
        (trace (snd (McpServer.fetch Samples.online
                       (Samples.post "/store-memory"
                          (Samples.json "{'user_address': '0xabc', 'topic': 'goals', 'content': 0}"))
                       Samples.serverEnv emptyStore)))
      + countWrites
          (trace (snd (McpServer.fetch Samples.online
                         (Samples.post "/store-memory"
                            (Samples.json "{'user_address': '0xabc', 'topic': 'goals', 'content': 0}"))
                         Samples.serverEnv emptyStore)))
      <= 1)%nat.
Proof.
  assert (Hwell :
    WellTyped (Samples.post "/store-memory"
                 (Samples.json "{'user_address': '0xabc', 'topic': 'goals', 'content': 0}"))).
  { intros parsed key Hparse. vm_compute in Hparse. injection Hparse as <-.
    intros [<-|[<-|[<-|[]]]] Htruthy; vm_compute; vm_compute in Htruthy;
      discriminate. }
  split; [exact Hwell|].
  exact (proj1 (fetch_ledger_budget Samples.online Samples.serverEnv _ emptyStore Hwell)).
Defined.

(** X24 at work: the comment before the first key takes its quote, the
    file no longer parses, and the endpoint set in it is ignored. *)
Lemma unusable_file_defers_to_process_env_witness :
  JSON_parse
    (Wrangler.removeTrailingCommas
       (Wrangler.stripComments
          (Samples.json "{/* settings */'vars': {'RPC_URL': 'https://rpc.example'}}")))
    = None
  /\ option_map AgentApp.cfg_RPC_URL
       (Wrangler.getEnvFromFile
          (Returned (Samples.json "{/* settings */'vars': {'RPC_URL': 'https://rpc.example'}}"))
          Samples.noVars None)
     = Some [].
Proof.
  assert (Hparse :
    JSON_parse
      (Wrangler.removeTrailingCommas
         (Wrangler.stripComments
            (Samples.json "{/* settings */'vars': {'RPC_URL': 'https://rpc.example'}}")))
    = None) by (vm_compute; reflexivity).
  split; [exact Hparse|].
  rewrite (proj1 (unusable_file_defers_to_process_env
                    (Returned (Samples.json "{/* settings */'vars': {'RPC_URL': 'https://rpc.example'}}"))
                    Samples.noVars None Hparse)).
  vm_compute. reflexivity.
Defined.

Example wrangler_with_comments :
  Wrangler.loadWranglerVars
    (Returned (Samples.json "{ // settings
  'vars': { 'RPC_URL': 'https://rpc.example', /* owner */ 'USER_ADDRESS': '0xuser', },
}"))
  = (JObject [(lit "RPC_URL", JString (lit "https://rpc.example"));
              (lit "USER_ADDRESS", JString (lit "0xuser"))],
     [Wrangler.Loaded]).
Proof. vm_compute. reflexivity. Qed.

Example block_comment_takes_the_quote :
  Wrangler.stripComments (Samples.json "{/* owner */'USER_ADDRESS': '0xuser'}")
  = Samples.json "{USER_ADDRESS': '0xuser'}"
  /\ Wrangler.loadWranglerVars
       (Returned (Samples.json "{/* owner */'USER_ADDRESS': '0xuser'}"))
     = (JObject [], [Wrangler.CouldNotLoad SyntaxError]).
Proof. split; vm_compute; reflexivity. Qed.

Example agent2_prompt_without_memories :
  prompt (Agent2Cli.replyRequest Samples.config2 (lit "Who am I?") [])
  = lit "
Retrieved on-chain memories:
No on-chain memories found.

User: " ++ dq ++ lit "Who am I?" ++ dq ++ nl.
Proof. vm_compute. reflexivity. Qed.

End FurtherSamples.
